(** * job_metrics_exporter: the sampling pipeline of metrics.go

    A shallow embedding of [metrics.go]: the cgroup walk that resolves a PID
    to its Slurm job ([getJobIDFromPID]), the accelerator collector
    ([collectGPUMetrics]), the I/O collector ([collectIOMetrics]) and the
    ticker body of [main].

    Go strings are byte sequences and are modelled by [string] (a list of
    8-bit [ascii]).  A [float64] is modelled by [spec_float] of the Standard
    Library at precision 53 and exponent bound 1024 (IEEE 754 binary64).  The
    four global [GaugeVec]s are finite maps from label values to [float64].

    The collectors never read the metric registry: their only effect on it
    is the ordered sequence of [With(labels).Set(value)] calls.  Each
    collector is therefore a function to the list of [SetCall]s it performs,
    and [publish] replays such a list onto a [Registry].  The messages that
    the program prints and the HTTP handler that serves the registry are
    left out.

    The version of the exporter that came before it ([Earlier]) and the
    one-shot program that follows it in the same file ([Script]) are
    embedded in the same way. *)

From Stdlib Require Import ZArith String Ascii List Bool Lia SpecFloat.
From stdpp Require Import base option list gmap strings.

Local Open Scope string_scope.
Local Open Scope Z_scope.
Local Open Scope list_scope.

(** ** Bytes *)

Definition byte_code (c : ascii) : N := N_of_ascii c.

Definition LF : ascii := ascii_of_N 10.
Definition CR : ascii := ascii_of_N 13.
Definition DQUOTE : ascii := ascii_of_N 34.

(** One-character strings that cannot be written as literals. *)
Definition nl : string := String LF EmptyString.

Definition isSome {A : Type} (o : option A) : bool :=
  match o with Some _ => true | None => false end.

(** ** The functions of Go's [strings] package that the program calls *)

Module strings.

Fixpoint HasPrefix (s prefix : string) : bool :=
  match prefix with
  | EmptyString => true
  | String p prefix' =>
      match s with
      | EmptyString => false
      | String c s' => if Ascii.eqb c p then HasPrefix s' prefix' else false
      end
  end.

Fixpoint drop_bytes (n : nat) (s : string) : string :=
  match n with
  | O => s
  | S n' => match s with
            | EmptyString => EmptyString
            | String _ s' => drop_bytes n' s'
            end
  end.

Definition TrimPrefix (s prefix : string) : string :=
  if HasPrefix s prefix then drop_bytes (String.length prefix) s else s.

(** [Split s sep] for a non-empty [sep] (the program only uses [", "],
    [":"] and a newline): the pieces of [s] between the non-overlapping
    occurrences of [sep], found left to right.  [skip] counts the bytes of
    a separator that was matched and is still to be stepped over. *)
Fixpoint split_from (sep : string) (s : string) (skip : nat) : list string :=
  match s with
  | EmptyString => [EmptyString]
  | String c s' =>
      match skip with
      | S k => split_from sep s' k
      | O =>
          if HasPrefix s sep
          then EmptyString :: split_from sep s' (String.length sep - 1)
          else match split_from sep s' O with
               | piece :: pieces => String c piece :: pieces
               | [] => [String c EmptyString]
               end
      end
  end.

Definition Split (s sep : string) : list string := split_from sep s O.

(** White space.  [asciiSpace] is the table of the same name in Go;
    [space_width] is the width in bytes of the white-space rune that
    starts the byte sequence, 0 when there is none.  The multi-byte cases
    are the UTF-8 encodings of the code points of [unicode.IsSpace]:
    U+0085, U+00A0, U+1680, U+2000 to U+200A, U+2028, U+2029, U+202F,
    U+205F and U+3000.  UTF-8 is self-synchronising, so matching these
    encodings on bytes agrees with decoding runes first. *)
Definition asciiSpace (c : ascii) : bool :=
  let n := byte_code c in
  (N.eqb n 9 || N.eqb n 10 || N.eqb n 11 || N.eqb n 12 || N.eqb n 13
   || N.eqb n 32)%bool.

Definition space3 (b0 b1 b2 : N) : bool :=
  ((N.eqb b0 225 && N.eqb b1 154 && N.eqb b2 128)
   || (N.eqb b0 226 && N.eqb b1 128
       && ((N.leb 128 b2 && N.leb b2 138) || N.eqb b2 168 || N.eqb b2 169
           || N.eqb b2 175))
   || (N.eqb b0 226 && N.eqb b1 129 && N.eqb b2 159)
   || (N.eqb b0 227 && N.eqb b1 128 && N.eqb b2 128))%bool.

Definition space2 (b0 b1 : N) : bool :=
  (N.eqb b0 194 && (N.eqb b1 133 || N.eqb b1 160))%bool.

Definition space_width (s : list ascii) : nat :=
  match s with
  | [] => 0%nat
  | c0 :: rest =>
      if asciiSpace c0 then 1%nat
      else match rest with
           | c1 :: rest' =>
               if space2 (byte_code c0) (byte_code c1) then 2%nat
               else match rest' with
                    | c2 :: _ =>
                        if space3 (byte_code c0) (byte_code c1) (byte_code c2)
                        then 3%nat else 0%nat
                    | [] => 0%nat
                    end
           | [] => 0%nat
           end
  end.

(** The same on a reversed byte sequence: the width of the white-space
    rune that ends the original one. *)
Definition space_width_rev (r : list ascii) : nat :=
  match r with
  | [] => 0%nat
  | c0 :: rest =>
      if asciiSpace c0 then 1%nat
      else match rest with
           | c1 :: rest' =>
               if space2 (byte_code c1) (byte_code c0) then 2%nat
               else match rest' with
                    | c2 :: _ =>
                        if space3 (byte_code c2) (byte_code c1) (byte_code c0)
                        then 3%nat else 0%nat
                    | [] => 0%nat
                    end
           | [] => 0%nat
           end
  end.

(** Drop the white-space runes at the head, [width] being [space_width]
    or [space_width_rev]. *)
Fixpoint trim_head (width : list ascii -> nat) (s : list ascii) (skip : nat)
  : list ascii :=
  match s with
  | [] => []
  | _ :: s' =>
      match skip with
      | S k => trim_head width s' k
      | O => match width s with
             | O => s
             | S w => trim_head width s' w
             end
      end
  end.

Definition TrimSpace (s : string) : string :=
  let left := trim_head space_width (list_ascii_of_string s) O in
  let right := trim_head space_width_rev (rev left) O in
  string_of_list_ascii (rev right).

(** [Fields]: the maximal runs of bytes between white-space runes. *)
Fixpoint fields_from (s : list ascii) (skip : nat) : list (list ascii) :=
  match s with
  | [] => [[]]
  | c :: s' =>
      match skip with
      | S k => fields_from s' k
      | O =>
          match space_width s with
          | S w => [] :: fields_from s' w
          | O => match fields_from s' O with
                 | piece :: pieces => (c :: piece) :: pieces
                 | [] => [[c]]
                 end
          end
      end
  end.

Definition nonempty (l : list ascii) : bool :=
  match l with [] => false | _ => true end.

Definition Fields (s : string) : list string :=
  map string_of_list_ascii
      (List.filter nonempty (fields_from (list_ascii_of_string s) O)).

(** [Trim s cutset] for a cutset of ASCII bytes (the program's is
    [" MiB"]): Go builds a byte set and strips matching bytes from both
    ends. *)
Fixpoint in_cutset (cutset : string) (c : ascii) : bool :=
  match cutset with
  | EmptyString => false
  | String k cutset' => (Ascii.eqb c k || in_cutset cutset' c)%bool
  end.

Fixpoint trim_left_bytes (cutset : string) (s : list ascii) : list ascii :=
  match s with
  | [] => []
  | c :: s' => if in_cutset cutset c then trim_left_bytes cutset s' else s
  end.

Definition Trim (s cutset : string) : string :=
  let right := trim_left_bytes cutset (rev (list_ascii_of_string s)) in
  string_of_list_ascii (trim_left_bytes cutset (rev right)).

End strings.

(** ** [float64] and [strconv.ParseFloat] *)

Definition float64 : Type := spec_float.

Definition prec64 : Z := 53.
Definition emax64 : Z := 1024.

Definition float64_mul (x y : float64) : float64 := SFmul prec64 emax64 x y.

(** The [float64] nearest to the integer [z] (an untyped constant such as
    [0] or [1024] converted to [float64]). *)
Definition float64_of_Z (z : Z) : float64 := binary_normalize prec64 emax64 z 0 false.

Module strconv.

Definition lower (c : ascii) : ascii := ascii_of_N (N.lor (byte_code c) 32).

Definition digit_val (c : ascii) : option Z :=
  let n := byte_code c in
  if (N.leb 48 n && N.leb n 57)%bool then Some (Z.of_N n - 48) else None.

(** The value of [c] as a hexadecimal letter, under [lower]. *)
Definition hex_letter_val (c : ascii) : option Z :=
  let n := byte_code (lower c) in
  if (N.leb 97 n && N.leb n 102)%bool then Some (Z.of_N n - 97 + 10) else None.

(** [special]: the value and the number of bytes consumed when [s] starts
    with an optionally signed [inf] or [infinity], or with [nan], letters
    in either case. *)
Definition fold_AZ (c : ascii) : ascii :=
  let n := byte_code c in
  if (N.leb 65 n && N.leb n 90)%bool then ascii_of_N (n + 32) else c.

Fixpoint commonPrefixLenIgnoreCase (s prefix : list ascii) : nat :=
  match s, prefix with
  | c :: s', p :: prefix' =>
      if Ascii.eqb (fold_AZ c) p then S (commonPrefixLenIgnoreCase s' prefix') else O
  | _, _ => O
  end.

Definition special_inf (sign : bool) (nsign : nat) (s : list ascii)
  : option (float64 * nat) :=
  let n := commonPrefixLenIgnoreCase s (list_ascii_of_string "infinity") in
  let n := if (Nat.ltb 3 n && Nat.ltb n 8)%bool then 3%nat else n in
  if (Nat.eqb n 3 || Nat.eqb n 8)%bool
  then Some (S754_infinity sign, (nsign + n)%nat) else None.

Definition special (s : list ascii) : option (float64 * nat) :=
  match s with
  | [] => None
  | c :: s' =>
      if Ascii.eqb c "+" then special_inf false 1 s'
      else if Ascii.eqb c "-" then special_inf true 1 s'
      else if (Ascii.eqb c "i" || Ascii.eqb c "I")%bool then special_inf false 0 s
      else if (Ascii.eqb c "n" || Ascii.eqb c "N")%bool then
        if Nat.eqb (commonPrefixLenIgnoreCase s (list_ascii_of_string "nan")) 3
        then Some (S754_nan, 3%nat) else None
      else None
  end.

(** [underscoreOK]: underscores only between digits, or between a base
    prefix and a digit. *)
Inductive saw := SawStart | SawDigit | SawUnderscore | SawOther.

Fixpoint underscore_scan (hex : bool) (seen : saw) (s : list ascii) : bool :=
  match s with
  | [] => match seen with SawUnderscore => false | _ => true end
  | c :: s' =>
      if (isSome (digit_val c) || (hex && isSome (hex_letter_val c)))%bool
      then underscore_scan hex SawDigit s'
      else if Ascii.eqb c "_" then
        match seen with
        | SawDigit => underscore_scan hex SawUnderscore s'
        | _ => false
        end
      else match seen with
           | SawUnderscore => false
           | _ => underscore_scan hex SawOther s'
           end
  end.

Definition underscoreOK (s : list ascii) : bool :=
  let s := match s with
           | c :: s' => if (Ascii.eqb c "-" || Ascii.eqb c "+")%bool then s' else s
           | [] => s
           end in
  match s with
  | c0 :: c1 :: s' =>
      let l := lower c1 in
      if (Ascii.eqb c0 "0"
          && (Ascii.eqb l "b" || Ascii.eqb l "o" || Ascii.eqb l "x"))%bool
      then underscore_scan (Ascii.eqb l "x") SawDigit s'
      else underscore_scan false SawStart s
  | _ => underscore_scan false SawStart s
  end.

(** The digits of [readFloat].  Go keeps 19 digits (16 in base 16) and a
    truncation flag and rounds correctly from them; here the mantissa is
    the exact integer [mant] of all digits read, [frac] of them after the
    point. *)
Record digits := {
  mant : Z;
  frac : Z;
  sawdigits : bool;
  underscores : bool;
  rest : list ascii
}.

Fixpoint read_digits (hex : bool) (s : list ascii)
         (m f : Z) (sawdot sawdig unders : bool) : digits :=
  let stop := {| mant := m; frac := f; sawdigits := sawdig;
                 underscores := unders; rest := s |} in
  match s with
  | [] => stop
  | c :: s' =>
      if Ascii.eqb c "_" then read_digits hex s' m f sawdot sawdig true
      else if Ascii.eqb c "." then
        if sawdot then stop else read_digits hex s' m f true sawdig unders
      else match digit_val c with
           | Some d =>
               read_digits hex s' (m * (if hex then 16 else 10) + d)
                           (if sawdot then f + 1 else f) sawdot true unders
           | None =>
               match (if hex then hex_letter_val c else None) with
               | Some d =>
                   read_digits hex s' (m * 16 + d)
                               (if sawdot then f + 1 else f) sawdot true unders
               | None => stop
               end
           end
  end.

(** The digits of the exponent: [e] stops growing once it reaches 10000. *)
Fixpoint read_exp (s : list ascii) (e : Z) (unders : bool)
  : Z * bool * list ascii :=
  match s with
  | [] => (e, unders, [])
  | c :: s' =>
      if Ascii.eqb c "_" then read_exp s' e true
      else match digit_val c with
           | Some d => read_exp s' (if e <? 10000 then e * 10 + d else e) unders
           | None => (e, unders, s)
           end
  end.

(** The syntax that [readFloat] accepts, as the exact value
    [mant * 10 ^ exp10] or [mant * 2 ^ exp2]. *)
Record literal := {
  neg : bool;
  is_hex : bool;
  lit_mant : Z;
  lit_exp : Z;
  lit_underscores : bool;
  lit_rest : list ascii
}.

Definition read_sign (s : list ascii) : bool * list ascii :=
  match s with
  | c :: s' => if Ascii.eqb c "+" then (false, s')
               else if Ascii.eqb c "-" then (true, s') else (false, s)
  | [] => (false, [])
  end.

(** The prefix [0x] makes the number hexadecimal when a byte follows it. *)
Definition read_base (s : list ascii) : bool * list ascii :=
  match s with
  | c0 :: c1 :: c2 :: s' =>
      if (Ascii.eqb c0 "0" && Ascii.eqb (lower c1) "x")%bool
      then (true, c2 :: s') else (false, s)
  | _ => (false, s)
  end.

(** The optional exponent, after [e] (after [p], and required, for a
    hexadecimal number): its value, the underscore flag and what is left. *)
Definition read_exponent (hex : bool) (s : list ascii) (unders : bool)
  : option (Z * bool * list ascii) :=
  match s with
  | c :: s1 =>
      if Ascii.eqb (lower c) (if hex then "p" else "e")%char then
        match s1 with
        | [] => None
        | c' :: s1' =>
            let '(esign, s2) :=
              if Ascii.eqb c' "+" then (1, s1')
              else if Ascii.eqb c' "-" then ((-1), s1') else (1, s1) in
            match s2 with
            | c'' :: _ =>
                if isSome (digit_val c'') then
                  let '(e, unders', r) := read_exp s2 0 unders in
                  Some (e * esign, unders', r)
                else None
            | [] => None
            end
        end
      else if hex then None
      else Some (0, unders, s)
  | [] => if hex then None else Some (0, unders, [])
  end.

Definition readFloat (s : list ascii) : option literal :=
  match s with
  | [] => None
  | _ =>
      let '(sign, s1) := read_sign s in
      let '(hex, s2) := read_base s1 in
      let d := read_digits hex s2 0 0 false false false in
      if negb (sawdigits d) then None
      else match read_exponent hex (rest d) (underscores d) with
           | None => None
           | Some (e, unders, r) =>
               Some {| neg := sign; is_hex := hex; lit_mant := mant d;
                       lit_exp := e - (if hex then 4 * frac d else frac d);
                       lit_underscores := unders; lit_rest := r |}
           end
  end.

(** The nearest [float64] (ties to even) of [m * 10 ^ e] and of
    [m * 2 ^ e], for [0 <= m]. *)
Definition round_binary (sign : bool) (m e : Z) : float64 :=
  binary_normalize prec64 emax64 (if sign then - m else m) e sign.

Definition round_decimal (sign : bool) (m e : Z) : float64 :=
  match m with
  | Zpos p =>
      if 0 <=? e then round_binary sign (m * 10 ^ e) 0
      else match 10 ^ (- e) with
           | Zpos q => SFdiv prec64 emax64 (S754_finite sign p 0) (S754_finite false q 0)
           | _ => S754_nan
           end
  | _ => S754_zero sign
  end.

(** [ParseFloat s 64]: [None] stands for a non-nil error, which is a
    syntax error or, when the value rounds to an infinity, a range
    error. *)
Definition ParseFloat (str : string) : option float64 :=
  let s := list_ascii_of_string str in
  match special s with
  | Some (v, n) => if Nat.eqb n (length s) then Some v else None
  | None =>
      match readFloat s with
      | None => None
      | Some l =>
          if (lit_underscores l && negb (underscoreOK s))%bool then None
          else match lit_rest l with
               | _ :: _ => None
               | [] =>
                   let v := if is_hex l
                            then round_binary (neg l) (lit_mant l) (lit_exp l)
                            else round_decimal (neg l) (lit_mant l) (lit_exp l) in
                   match v with
                   | S754_infinity _ => None
                   | _ => Some v
                   end
               end
      end
  end.

End strconv.

(** ** [bufio.Scanner] with its default split function [ScanLines] *)

Module bufio.

(** A line of [MaxScanTokenSize] bytes or more does not fit the buffer. *)
Definition MaxScanTokenSize : N := 65536.

Definition tooLong (line : string) : bool :=
  N.leb MaxScanTokenSize (N.of_nat (String.length line)).

Fixpoint dropCR (line : string) : string :=
  match line with
  | EmptyString => EmptyString
  | String c EmptyString => if Ascii.eqb c CR then EmptyString else line
  | String c line' => String c (dropCR line')
  end.

(** The tokens that successive [Scan] calls deliver for the pieces of the
    content between newlines, and whether [Err] is non-nil once [Scan] has
    returned false.  The piece after the last newline is a token only
    when it is not empty. *)
Fixpoint scan (pieces : list string) : list string * bool :=
  match pieces with
  | [] => ([], false)
  | [piece] =>
      match piece with
      | EmptyString => ([], false)
      | _ => if tooLong piece then ([], true) else ([dropCR piece], false)
      end
  | piece :: pieces' =>
      if tooLong piece then ([], true)
      else let '(tokens, err) := scan pieces' in (dropCR piece :: tokens, err)
  end.

Definition ScanLines (content : string) : list string * bool :=
  scan (strings.Split content nl).

End bufio.

(** ** Paths *)

Module filepath.

(** [fmt.Sprintf] with the format [%s/%s]. *)
Definition slash (dir name : string) : string := dir +:+ "/" +:+ name.

(** [filepath.Join dir name].  Join cleans its result; the names joined
    here are directory entries that start with [uid_] or [job_] and hold
    no slash, and [cgroup.procs], for which cleaning changes nothing. *)
Definition Join (dir name : string) : string := dir +:+ "/" +:+ name.

End filepath.

(** ** The metric registry *)

(** The four [GaugeVec]s, by metric name. *)
Inductive Gauge : Type :=
| gpu_utilization
| gpu_memory_usage_bytes
| io_read_bytes
| io_write_bytes.

(** A [GaugeVec] maps the label values, in the order of the declared label
    names, to the value last set: [gpu_id; job_id] for the two accelerator
    metrics and [pid; job_id] for the two I/O metrics. *)
Abbreviation GaugeVec := (gmap (list string) float64).

Record Registry : Type := {
  gpuUtilizationMetric : GaugeVec;
  gpuMemoryUsageMetric : GaugeVec;
  ioReadBytesMetric : GaugeVec;
  ioWriteBytesMetric : GaugeVec
}.

(** One [metric.With(labels).Set(value)], or
    [metric.WithLabelValues(labels...).Set(value)].  The client library
    panics on a label value that is not valid UTF-8; the label values here
    are taken to be valid. *)
Record SetCall : Type := {
  metric : Gauge;
  labels : list string;
  value : float64
}.

Definition mkCall (g : Gauge) (l : list string) (v : float64) : SetCall :=
  {| metric := g; labels := l; value := v |}.

Definition Set_ (c : SetCall) (r : Registry) : Registry :=
  match metric c with
  | gpu_utilization =>
      {| gpuUtilizationMetric := <[labels c := value c]> (gpuUtilizationMetric r);
         gpuMemoryUsageMetric := gpuMemoryUsageMetric r;
         ioReadBytesMetric := ioReadBytesMetric r;
         ioWriteBytesMetric := ioWriteBytesMetric r |}
  | gpu_memory_usage_bytes =>
      {| gpuUtilizationMetric := gpuUtilizationMetric r;
         gpuMemoryUsageMetric := <[labels c := value c]> (gpuMemoryUsageMetric r);
         ioReadBytesMetric := ioReadBytesMetric r;
         ioWriteBytesMetric := ioWriteBytesMetric r |}
  | io_read_bytes =>
      {| gpuUtilizationMetric := gpuUtilizationMetric r;
         gpuMemoryUsageMetric := gpuMemoryUsageMetric r;
         ioReadBytesMetric := <[labels c := value c]> (ioReadBytesMetric r);
         ioWriteBytesMetric := ioWriteBytesMetric r |}
  | io_write_bytes =>
      {| gpuUtilizationMetric := gpuUtilizationMetric r;
         gpuMemoryUsageMetric := gpuMemoryUsageMetric r;
         ioReadBytesMetric := ioReadBytesMetric r;
         ioWriteBytesMetric := <[labels c := value c]> (ioWriteBytesMetric r) |}
  end.

Definition gauge (g : Gauge) (r : Registry) : GaugeVec :=
  match g with
  | gpu_utilization => gpuUtilizationMetric r
  | gpu_memory_usage_bytes => gpuMemoryUsageMetric r
  | io_read_bytes => ioReadBytesMetric r
  | io_write_bytes => ioWriteBytesMetric r
  end.

(** The calls of a collector, replayed in order. *)
Definition publish (calls : list SetCall) (r : Registry) : Registry :=
  fold_left (fun r c => Set_ c r) calls r.

(** The registry after [MustRegister]: four gauges without entries. *)
Definition registered : Registry :=
  {| gpuUtilizationMetric := ∅;
     gpuMemoryUsageMetric := ∅;
     ioReadBytesMetric := ∅;
     ioWriteBytesMetric := ∅ |}.

(** [init]: every metric is set to 0 at the labels [none, none]. *)
Definition init : Registry :=
  publish [ mkCall gpu_memory_usage_bytes ["none"; "none"] (float64_of_Z 0);
            mkCall gpu_utilization ["none"; "none"] (float64_of_Z 0);
            mkCall io_read_bytes ["none"; "none"] (float64_of_Z 0);
            mkCall io_write_bytes ["none"; "none"] (float64_of_Z 0) ]
          registered.

(** ** The host: the file system and the two [nvidia-smi] queries *)

(** What the program observes of the file system: the names that
    [os.Open] and [Readdirnames(-1)] return for a directory, the content
    that [os.Open] or [os.ReadFile] gives for a file ([None] for an error),
    and whether [os.Stat] fails with an error that [os.IsNotExist]
    recognises. *)
Record FileSystem : Type := {
  Readdirnames : string -> option (list string);
  ReadFile : string -> option string;
  IsNotExist : string -> bool
}.

(** What one tick observes: one state of the file system, and [Output()] of
    each command, [None] when it returns an error. *)
Record Host : Type := {
  fs : FileSystem;
  gpuInfoCmd : option string;
  computeAppsCmd : option string
}.

Definition basePath : string := "/sys/fs/cgroup/cpu/slurm".

(** ** [getJobIDFromPID] *)

(** How one turn of a loop of [getJobIDFromPID] ends. *)
Inductive search : Type :=
| Return (jobID : string)
| Fail
| Continue.

Fixpoint searchJobs (fsys : FileSystem) (pid uidPath : string)
         (jobEntries : list string) : search :=
  match jobEntries with
  | [] => Continue
  | jobEntry :: more =>
      if strings.HasPrefix jobEntry "job_" then
        let jobPath := filepath.slash (filepath.slash uidPath jobEntry) "cgroup.procs" in
        match ReadFile fsys jobPath with
        | None => searchJobs fsys pid uidPath more
        | Some content =>
            let '(lines, err) := bufio.ScanLines content in
            if existsb (fun line => String.eqb line pid) lines
            then Return (strings.TrimPrefix jobEntry "job_")
            else if err then Fail
            else searchJobs fsys pid uidPath more
        end
      else searchJobs fsys pid uidPath more
  end.

Fixpoint searchUIDs (fsys : FileSystem) (pid : string) (entries : list string)
  : search :=
  match entries with
  | [] => Continue
  | entry :: more =>
      if strings.HasPrefix entry "uid_" then
        let uidPath := filepath.slash basePath entry in
        match Readdirnames fsys uidPath with
        | None => searchUIDs fsys pid more
        | Some jobEntries =>
            match searchJobs fsys pid uidPath jobEntries with
            | Continue => searchUIDs fsys pid more
            | found => found
            end
        end
      else searchUIDs fsys pid more
  end.

(** [None] stands for a non-nil error. *)
Definition getJobIDFromPID (fsys : FileSystem) (pid : string) : option string :=
  match Readdirnames fsys basePath with
  | None => None
  | Some entries =>
      match searchUIDs fsys pid entries with
      | Return jobID => Some jobID
      | Fail | Continue => None
      end
  end.

(** ** [collectGPUMetrics] *)

Definition gpuInfoLine (m : gmap string string) (line : string) : gmap string string :=
  match strings.Split line ", " with
  | [uuid; index; _; _] => <[uuid := index]> m
  | _ => m
  end.

Definition gpuUUIDToIndex (gpuInfoLines : list string) : gmap string string :=
  fold_left gpuInfoLine gpuInfoLines ∅.

Definition MiB_to_bytes (usedMemory : float64) : float64 :=
  float64_mul (float64_mul usedMemory (float64_of_Z 1024)) (float64_of_Z 1024).

Definition computeAppsLine (fsys : FileSystem) (m : gmap string string)
           (line : string) : list SetCall :=
  match strings.Split line ", " with
  | [pid; used; uuid] =>
      match strconv.ParseFloat (strings.Trim used " MiB") with
      | None => []
      | Some usedMemory =>
          match m !! uuid with
          | Some index =>
              match getJobIDFromPID fsys pid with
              | None => []
              | Some jobID =>
                  [ {| metric := gpu_memory_usage_bytes;
                       labels := [index; jobID];
                       value := MiB_to_bytes usedMemory |} ]
              end
          | None => []
          end
      end
  | _ => []
  end.

Definition outputLines (output : string) : list string :=
  strings.Split (strings.TrimSpace output) nl.

Definition collectGPUMetrics (h : Host) : list SetCall :=
  match gpuInfoCmd h with
  | None => []
  | Some gpuInfoOutput =>
      match computeAppsCmd h with
      | None => []
      | Some computeAppsOutput =>
          let m := gpuUUIDToIndex (outputLines gpuInfoOutput) in
          flat_map (computeAppsLine (fs h) m) (outputLines computeAppsOutput)
      end
  end.

(** ** [collectIOMetrics] *)

Definition ioLine (pid jobEntry line : string) : list SetCall :=
  match strings.Split line ":" with
  | [k; v] =>
      let key := strings.TrimSpace k in
      match strconv.ParseFloat (strings.TrimSpace v) with
      | None => []
      | Some val =>
          if String.eqb key "read_bytes" then
            [ {| metric := io_read_bytes; labels := [pid; jobEntry]; value := val |} ]
          else if String.eqb key "write_bytes" then
            [ {| metric := io_write_bytes; labels := [pid; jobEntry]; value := val |} ]
          else []
      end
  | _ => []
  end.

Definition ioPID (fsys : FileSystem) (jobEntry pid : string) : list SetCall :=
  match ReadFile fsys ("/proc/" +:+ pid +:+ "/io") with
  | None => []
  | Some content => flat_map (ioLine pid jobEntry) (strings.Split content nl)
  end.

Definition ioJob (fsys : FileSystem) (uidPath jobEntry : string) : list SetCall :=
  if strings.HasPrefix jobEntry "job_" then
    let jobPath := filepath.slash uidPath jobEntry in
    let cgroupProcsPath := filepath.Join jobPath "cgroup.procs" in
    if IsNotExist fsys cgroupProcsPath then []
    else match ReadFile fsys cgroupProcsPath with
         | None => []
         | Some pids =>
             match strings.Fields pids with
             | [] =>
                 [ {| metric := io_read_bytes; labels := ["none"; jobEntry];
                      value := float64_of_Z 0 |};
                   {| metric := io_write_bytes; labels := ["none"; jobEntry];
                      value := float64_of_Z 0 |} ]
             | fields => flat_map (ioPID fsys jobEntry) fields
             end
         end
  else [].

Definition ioUID (fsys : FileSystem) (entry : string) : list SetCall :=
  if strings.HasPrefix entry "uid_" then
    let uidPath := filepath.slash basePath entry in
    match Readdirnames fsys uidPath with
    | None => []
    | Some jobEntries => flat_map (ioJob fsys uidPath) jobEntries
    end
  else [].

Definition collectIOMetrics (fsys : FileSystem) : list SetCall :=
  match Readdirnames fsys basePath with
  | None => []
  | Some entries => flat_map (ioUID fsys) entries
  end.

(** ** One tick of the loop in [main] *)

Definition tick (h : Host) : list SetCall :=
  collectGPUMetrics h ++ collectIOMetrics (fs h).

Definition cycle (h : Host) (r : Registry) : Registry := publish (tick h) r.

(** ** Notions used to state the properties *)

(** The [job_id] label of a call: the second label of all four metrics. *)
Definition job_id (c : SetCall) : string := nth 1 (labels c) EmptyString.

(** The first label: [gpu_id] of an accelerator metric, [pid] of an I/O
    metric. *)
Definition first_label (c : SetCall) : string := nth 0 (labels c) EmptyString.

(** A row of the per-device query: its UUID and its index. *)
Definition deviceRow (line : string) : option (string * string) :=
  match strings.Split line ", " with
  | [uuid; index; _; _] => Some (uuid, index)
  | _ => None
  end.

Definition deviceRows (gpuInfoLines : list string) : list (string * string) :=
  omap deviceRow gpuInfoLines.

(** One step of building the map from the rows. *)
Definition insertRow (m : gmap string string) (row : string * string) : gmap string string :=
  <[fst row := snd row]> m.

(** Well-formed per-device output names every device once. *)
Definition distinctUUIDs (gpuInfoLines : list string) : Prop :=
  NoDup (map fst (deviceRows gpuInfoLines)).

(** A registry has an entry of [gpu_utilization] for the device [index]. *)
Definition utilizationOf (r : Registry) (index : string) : Prop :=
  exists jobID v, gpuUtilizationMetric r !! [index; jobID] = Some v.

(** The job directories that [collectIOMetrics] visits, each with the path
    of the [uid_] directory it is listed in. *)
Definition uidJobs (fsys : FileSystem) (entry : string) : list (string * string) :=
  if strings.HasPrefix entry "uid_" then
    let uidPath := filepath.slash basePath entry in
    match Readdirnames fsys uidPath with
    | None => []
    | Some jobEntries => map (fun jobEntry => (uidPath, jobEntry)) jobEntries
    end
  else [].

Definition jobDirs (fsys : FileSystem) : list (string * string) :=
  match Readdirnames fsys basePath with
  | None => []
  | Some entries => flat_map (uidJobs fsys) entries
  end.

(** The calls of a pass that carry the job label [jobEntry]. *)
Definition callsOfJob (jobEntry : string) (calls : list SetCall) : list SetCall :=
  List.filter (fun c => String.eqb (job_id c) jobEntry) calls.



(** A call of the I/O collector for the job directory [jobEntry]. *)
Definition ioCall (jobEntry : string) (c : SetCall) : Prop :=
  (metric c = io_read_bytes \/ metric c = io_write_bytes) /\ job_id c = jobEntry.

(** Bytes of the cutset that [collectGPUMetrics] trims from the memory
    field. *)
Definition inMiBCutset (c : ascii) : Prop := strings.in_cutset " MiB" c = true.

(** What a line of a process I/O record must be for a call [c] to come
    from it. *)
Definition fromIOLine (pid jobEntry line : string) (c : SetCall) : Prop :=
  exists k v,
    strings.Split line ":" = [k; v]
    /\ strconv.ParseFloat (strings.TrimSpace v) = Some (value c)
    /\ labels c = [pid; jobEntry]
    /\ ((strings.TrimSpace k = "read_bytes" /\ metric c = io_read_bytes)
        \/ (strings.TrimSpace k = "write_bytes" /\ metric c = io_write_bytes)).

(** The calls of the two loops of [collectGPUMetrics] on the lines of the
    two outputs. *)
Definition rowCalls (fsys : FileSystem) (gpuInfoLines computeAppsLines : list string)
  : list SetCall :=
  flat_map (computeAppsLine fsys (gpuUUIDToIndex gpuInfoLines)) computeAppsLines.

(** The bytes that occur in the strings that [ParseFloat] accepts: digits,
    signs, the point, the underscore, and in either case the letters of the
    hexadecimal digits, of the exponent and prefix marks and of [infinity]
    and [nan]. *)
Definition numberByte (c : ascii) : bool :=
  (isSome (strconv.digit_val c)
   || strings.in_cutset "+-._abcdefinptxy" (strconv.fold_AZ c))%bool.

Definition numberBytes (s : list ascii) : Prop := Forall (fun c => numberByte c = true) s.

(** A reader that goes from [s] to [r] has consumed number bytes only. *)
Definition consumes (s r : list ascii) : Prop :=
  exists consumed, s = consumed ++ r /\ numberBytes consumed.

(** A decimal number in the usual notation: an optional sign, decimal digits
    with at most one point among them and at least one digit, then
    optionally an exponent, [e] or [E] with an optional sign and at least
    one digit. *)
Fixpoint span_digits (s : list ascii) : list ascii * list ascii :=
  match s with
  | [] => ([], [])
  | c :: s' =>
      if isSome (strconv.digit_val c)
      then let '(ds, r) := span_digits s' in (c :: ds, r)
      else ([], s)
  end.

Definition drop_sign (s : list ascii) : list ascii :=
  match s with
  | c :: s' => if (Ascii.eqb c "+" || Ascii.eqb c "-")%bool then s' else s
  | [] => []
  end.

Definition decimalExponent (s : list ascii) : bool :=
  match s with
  | [] => true
  | c :: s' =>
      if (Ascii.eqb c "e" || Ascii.eqb c "E")%bool
      then match span_digits (drop_sign s') with
           | (_ :: _, []) => true
           | _ => false
           end
      else false
  end.

Definition decimalNumber (str : string) : bool :=
  let '(whole, r) := span_digits (drop_sign (list_ascii_of_string str)) in
  let '(fraction, r') :=
    match r with
    | c :: r1 => if Ascii.eqb c "." then span_digits r1 else ([], r)
    | [] => ([], [])
    end in
  (strings.nonempty (whole ++ fraction) && decimalExponent r')%bool.

(** Successive ticks, the first host first. *)
Definition cycles (hs : list Host) (r : Registry) : Registry :=
  fold_left (fun r h => cycle h r) hs r.

(** A tick in which one of the two queries fails. *)
Definition queryFails (h : Host) : Prop :=
  gpuInfoCmd h = None \/ computeAppsCmd h = None.

(** ** The earlier version of the exporter *)

(** The version of [metrics.go] before the cgroup walk: the job of a process
    is read from its own [/proc/<pid>/cgroup] and the I/O pass ranges over
    the numeric entries of [/proc].  Its [init], its accelerator loop and
    its parsing of an I/O record are those above. *)
Module Earlier.

(** [strings.Contains]. *)
Fixpoint Contains (s substr : string) : bool :=
  if strings.HasPrefix s substr then true
  else match s with
       | EmptyString => false
       | String _ s' => Contains s' substr
       end.

(** The digits of [Atoi], most significant first. *)
Fixpoint digits_value (s : list ascii) (acc : Z) : option Z :=
  match s with
  | [] => Some acc
  | c :: s' =>
      match strconv.digit_val c with
      | Some d => digits_value s' (acc * 10 + d)
      | None => None
      end
  end.

(** [strconv.Atoi] for a 64-bit [int]: an optional sign and at least one
    decimal digit, the value within the range of [int]; [None] stands for a
    non-nil error. *)
Definition Atoi (str : string) : option Z :=
  let s := list_ascii_of_string str in
  let '(negative, ds) :=
    match s with
    | c :: s' => if Ascii.eqb c "-" then (true, s')
                 else if Ascii.eqb c "+" then (false, s') else (false, s)
    | [] => (false, [])
    end in
  match ds with
  | [] => None
  | _ =>
      match digits_value ds 0 with
      | None => None
      | Some n =>
          let v := if negative then - n else n in
          if ((- 2 ^ 63 <=? v) && (v <? 2 ^ 63))%bool then Some v else None
      end
  end.

(** The loop of [getJobIDFromPID] over the lines of the cgroup file. *)
Fixpoint firstJob (lines : list string) : option string :=
  match lines with
  | [] => None
  | line :: more =>
      if (Contains line "slurm" && Contains line "job_")%bool then
        match strings.Split line "job_" with
        | _ :: part :: _ =>
            match strings.Split part "/" with
            | jobID :: _ => Some jobID
            | [] => firstJob more
            end
        | _ => firstJob more
        end
      else firstJob more
  end.

Definition cgroupPath (pid : string) : string := "/proc/" +:+ pid +:+ "/cgroup".

(** [None] stands for a non-nil error: the file does not open, the scan
    fails, or no line names a job. *)
Definition getJobIDFromPID (fsys : FileSystem) (pid : string) : option string :=
  match ReadFile fsys (cgroupPath pid) with
  | None => None
  | Some content => firstJob (fst (bufio.ScanLines content))
  end.

Definition computeAppsLine (fsys : FileSystem) (m : gmap string string)
           (line : string) : list SetCall :=
  match strings.Split line ", " with
  | [pid; used; uuid] =>
      match strconv.ParseFloat (strings.Trim used " MiB") with
      | None => []
      | Some usedMemory =>
          match m !! uuid with
          | Some index =>
              match getJobIDFromPID fsys pid with
              | None => []
              | Some jobID =>
                  [ {| metric := gpu_memory_usage_bytes;
                       labels := [index; jobID];
                       value := MiB_to_bytes usedMemory |} ]
              end
          | None => []
          end
      end
  | _ => []
  end.

Definition collectGPUMetrics (h : Host) : list SetCall :=
  match gpuInfoCmd h with
  | None => []
  | Some gpuInfoOutput =>
      match computeAppsCmd h with
      | None => []
      | Some computeAppsOutput =>
          let m := gpuUUIDToIndex (outputLines gpuInfoOutput) in
          flat_map (computeAppsLine (fs h) m) (outputLines computeAppsOutput)
      end
  end.

(** One entry of [/proc]. *)
Definition ioEntry (fsys : FileSystem) (pid : string) : list SetCall :=
  match Atoi pid with
  | None => []
  | Some _ =>
      match getJobIDFromPID fsys pid with
      | None => []
      | Some jobID =>
          match ReadFile fsys ("/proc/" +:+ pid +:+ "/io") with
          | None => []
          | Some content => flat_map (ioLine pid jobID) (strings.Split content nl)
          end
      end
  end.

Definition collectIOMetrics (fsys : FileSystem) : list SetCall :=
  match Readdirnames fsys "/proc" with
  | None => []
  | Some pids => flat_map (ioEntry fsys) pids
  end.

Definition tick (h : Host) : list SetCall :=
  collectGPUMetrics h ++ collectIOMetrics (fs h).

End Earlier.

(** ** The one-shot program *)

(** The second program of the repository collects once and returns maps of
    strings.  [readProcIO] and [getIOMetrics] read the I/O records;
    [getNvidiaMetrics] joins the two [nvidia-smi] tables. *)
Module Script.

(** The first occurrence of [sep] in [s]: what is before it and what is
    after it. *)
Fixpoint cut (sep s : string) : option (string * string) :=
  if strings.HasPrefix s sep then Some (EmptyString, strings.drop_bytes (String.length sep) s)
  else match s with
       | EmptyString => None
       | String c s' =>
           match cut sep s' with
           | Some (before, after) => Some (String c before, after)
           | None => None
           end
       end.

(** [strings.SplitN s sep 2] for a non-empty [sep]. *)
Definition SplitN2 (s sep : string) : list string :=
  match cut sep s with
  | Some (before, after) => [before; after]
  | None => [s]
  end.

(** One line of [readProcIO]. *)
Definition ioDataLine (ioData : gmap string string) (line : string) : gmap string string :=
  match SplitN2 line ":" with
  | [k; v] => <[strings.TrimSpace k := strings.TrimSpace v]> ioData
  | _ => ioData
  end.

(** [None] stands for a non-nil error: the file does not open or the scan
    fails. *)
Definition readProcIO (fsys : FileSystem) (pid : string) : option (gmap string string) :=
  match ReadFile fsys ("/proc/" +:+ pid +:+ "/io") with
  | None => None
  | Some content =>
      let '(lines, err) := bufio.ScanLines content in
      if err then None else Some (fold_left ioDataLine lines ∅)
  end.

(** The loop of [getIOMetrics], for the PIDs in the order in which the map
    [pidToJob] is ranged over. *)
Definition ioMetricsStep (fsys : FileSystem) (ioMetrics : gmap string (gmap string string))
           (pid : string) : gmap string (gmap string string) :=
  match readProcIO fsys pid with
  | None => ioMetrics
  | Some ioData => <[pid := ioData]> ioMetrics
  end.

Definition getIOMetricsIn (fsys : FileSystem) (order : list string)
  : gmap string (gmap string string) :=
  fold_left (ioMetricsStep fsys) order ∅.

(** [getIOMetrics]; its error is always nil. *)
Definition getIOMetrics (fsys : FileSystem) (pidToJob : gmap string string)
  : gmap string (gmap string string) :=
  getIOMetricsIn fsys (map fst (map_to_list pidToJob)).

(** How [getNvidiaMetrics] ends: with its map, with a non-nil error, or with
    a run-time panic of an index or a slice out of range. *)
Inductive outcome (A : Type) : Type :=
| Done (a : A)
| Failed
| Panics.

Arguments Done {A} a.
Arguments Failed {A}.
Arguments Panics {A}.

(** The entry of one record of the compute-apps table. *)
Definition appEntry (record : list string) : option (string * gmap string string) :=
  match record with
  | pid :: used :: name :: uuid :: _ =>
      Some (pid, <["gpu_utilization" := "N/A"]>
                   (<["gpu_uuid" := uuid]>
                      (<["gpu_name" := name]>
                         (<["gpu_memory_usage" := used]> ∅))))
  | _ => None
  end.

Fixpoint appEntries (records : list (list string)) (metrics : gmap string (gmap string string))
  : option (gmap string (gmap string string)) :=
  match records with
  | [] => Some metrics
  | record :: more =>
      match appEntry record with
      | Some (pid, entry) => appEntries more (<[pid := entry]> metrics)
      | None => None
      end
  end.

(** The inner loop for one record of the per-device table. *)
Definition setUtilization (gpuUuid gpuUtilization : string) (metric : gmap string string)
  : gmap string string :=
  if String.eqb (default EmptyString (metric !! "gpu_uuid")) gpuUuid
  then <["gpu_utilization" := gpuUtilization]> metric
  else metric.

Fixpoint usageRecords (records : list (list string)) (metrics : gmap string (gmap string string))
  : option (gmap string (gmap string string)) :=
  match records with
  | [] => Some metrics
  | record :: more =>
      match record with
      | gpuUuid :: _ :: gpuUtilization :: _ =>
          usageRecords more (setUtilization gpuUuid gpuUtilization <$> metrics)
      | _ => None
      end
  end.

(** What [filepath.Walk] finds at a path: nothing that [Lstat] can
    describe, something that is not a directory with the content that
    [os.Open] gives ([None] when it does not open), or a directory with the
    entries that [Readdirnames] gives ([None] when it cannot be read), each
    with its name.  The names are those of directory entries, without a
    separator, so that the base of the directory of a path is the name of
    the directory that holds it; and a file that opens is read to its end,
    as [ReadFile] does in [FileSystem]. *)
#[local] Unset Elimination Schemes.
Inductive node : Type :=
| Unstatable
| File (content : option string)
| Dir (entries : option (list (string * node))).
#[local] Set Elimination Schemes.

(** [sort.Strings] on the names: byte-wise order. *)
Fixpoint insertByName {A : Type} (e : string * A) (l : list (string * A))
  : list (string * A) :=
  match l with
  | [] => [e]
  | e' :: l' => if String.leb (fst e) (fst e') then e :: l else e' :: insertByName e l'
  end.

Fixpoint sortByName {A : Type} (l : list (string * A)) : list (string * A) :=
  match l with
  | [] => []
  | e :: l' => insertByName e (sortByName l')
  end.

(** A walk of a subtree: from the map so far to the map after it and
    whether it ends with an error. *)
Definition walker : Type := gmap string string -> gmap string string * bool.

(** The loop over the sorted names of a directory: it stops at the first
    error. *)
Fixpoint runAll (ws : list (string * walker)) (pidToJob : gmap string string)
  : gmap string string * bool :=
  match ws with
  | [] => (pidToJob, false)
  | (_, w) :: more =>
      let '(pidToJob', err) := w pidToJob in
      if err then (pidToJob', true) else runAll more pidToJob'
  end.

(** The lines of a [cgroup.procs] file, each bound to the name of the
    directory that holds the file, [filepath.Base(filepath.Dir(path))]. *)
Definition bindAll (jobID : string) (pids : list string) (pidToJob : gmap string string)
  : gmap string string :=
  fold_left (fun m pid => <[pid := jobID]> m) pids pidToJob.

(** [filepath.Walk] with the function of [getCgroupPidToJob], at the node
    [name] of the directory [parent]. *)
Fixpoint walk (parent name : string) (n : node) : walker :=
  match n with
  | Unstatable => fun pidToJob => (pidToJob, true)
  | File content =>
      fun pidToJob =>
        if String.eqb name "cgroup.procs" then
          match content with
          | None => (pidToJob, true)
          | Some text =>
              let '(pids, err) := bufio.ScanLines text in
              (bindAll parent pids pidToJob, err)
          end
        else (pidToJob, false)
  | Dir None => fun pidToJob => (pidToJob, true)
  | Dir (Some entries) =>
      runAll (sortByName
                (map (fun e => match e with
                               | (childName, child) => (childName, walk name childName child)
                               end) entries))
  end.

(** [getCgroupPidToJob] on what is at [/sys/fs/cgroup]: its map, and whether
    its error is non-nil. *)
Definition getCgroupPidToJob (root : node) : gmap string string * bool :=
  walk "fs" "cgroup" root ∅.

Section Nvidia.

(** [csv.NewReader(...).ReadAll()] of the package [encoding/csv]: the
    records of a text, [None] for a non-nil error. *)
Variable ReadAll : string -> option (list (list string)).

(** The second command is run once the first table is in the map. *)
Definition getNvidiaMetrics (computeAppsCmd gpuUsageCmd : option string)
  : outcome (gmap string (gmap string string)) :=
  match computeAppsCmd with
  | None => Failed
  | Some computeAppsOutput =>
      match ReadAll computeAppsOutput with
      | None => Failed
      | Some [] => Panics
      | Some (_ :: computeAppsRecords) =>
          match appEntries computeAppsRecords ∅ with
          | None => Panics
          | Some metrics =>
              match gpuUsageCmd with
              | None => Failed
              | Some gpuUsageOutput =>
                  match ReadAll gpuUsageOutput with
                  | None => Failed
                  | Some [] => Panics
                  | Some (_ :: gpuUsageRecords) =>
                      match usageRecords gpuUsageRecords metrics with
                      | None => Panics
                      | Some metrics' => Done metrics'
                      end
                  end
              end
          end
      end
  end.

End Nvidia.

End Script.

(** ** Notions for the properties beyond the stated ones *)

(** The [cgroup.procs] file that [getJobIDFromPID] opens for a visited
    directory, given with the path of its [uid_] directory. *)
Definition procsPath (d : string * string) : string :=
  filepath.slash (filepath.slash (fst d) (snd d)) "cgroup.procs".

(** What the scan of that file delivers, when the entry is a job directory
    and the file opens. *)
Definition scanned (fsys : FileSystem) (d : string * string) : option (list string * bool) :=
  if strings.HasPrefix (snd d) "job_" then
    match ReadFile fsys (procsPath d) with
    | Some content => Some (bufio.ScanLines content)
    | None => None
    end
  else None.

(** The scan delivers the line [pid]. *)
Definition listsPID (fsys : FileSystem) (pid : string) (d : string * string) : bool :=
  match scanned fsys d with
  | Some (lines, _) => existsb (fun line => String.eqb line pid) lines
  | None => false
  end.

(** The scan ends with an error. *)
Definition scanFails (fsys : FileSystem) (d : string * string) : bool :=
  match scanned fsys d with
  | Some (_, err) => err
  | None => false
  end.

(** The two loops of [getJobIDFromPID] as one loop over the visited
    directories. *)
Fixpoint searchDirs (fsys : FileSystem) (pid : string) (dirs : list (string * string))
  : search :=
  match dirs with
  | [] => Continue
  | d :: more =>
      if listsPID fsys pid d then Return (strings.TrimPrefix (snd d) "job_")
      else if scanFails fsys d then Fail
      else searchDirs fsys pid more
  end.

(** A directory that neither lists [pid] nor fails. *)
Definition passedBy (fsys : FileSystem) (pid : string) (d : string * string) : Prop :=
  listsPID fsys pid d = false /\ scanFails fsys d = false.

#[global] Instance Gauge_eq_dec : EqDecision Gauge.
Proof. solve_decision. Defined.

(** The value that the last call of [calls] for the entry [k] of the gauge
    [g] sets, if there is one. *)
Fixpoint lastSet (g : Gauge) (k : list string) (calls : list SetCall) : option float64 :=
  match calls with
  | [] => None
  | c :: more =>
      match lastSet g k more with
      | Some v => Some v
      | None => if decide (metric c = g /\ labels c = k) then Some (value c) else None
      end
  end.

(** Every entry of the registry has two labels. *)
Definition twoLabels (r : Registry) : Prop :=
  forall g k v, gauge g r !! k = Some v -> length k = 2%nat.

(** The path of the I/O record of a process. *)
Definition ioPath (pid : string) : string := "/proc/" +:+ pid +:+ "/io".

(** A string of [2 ^ k] copies of [s]. *)
Fixpoint doubled (k : nat) (s : string) : string :=
  match k with
  | O => s
  | S k' => doubled k' (s +:+ s)
  end.

(** A file system given by the listings of its directories and the contents
    of its files. *)
Fixpoint assoc {A : Type} (path : string) (table : list (string * A)) : option A :=
  match table with
  | [] => None
  | (p, a) :: more => if String.eqb path p then Some a else assoc path more
  end.

Definition tableFS (dirs : list (string * list string)) (files : list (string * string))
  : FileSystem :=
  {| Readdirnames := fun path => assoc path dirs;
     ReadFile := fun path => assoc path files;
     IsNotExist := fun path => negb (isSome (assoc path files)) |}.

(** The key that a line gives to [readProcIO], when the line holds a
    colon. *)
Definition ioKey (line : string) : option string :=
  match Script.cut ":" line with
  | Some (k, _) => Some (strings.TrimSpace k)
  | None => None
  end.

(** The utilization that the records of the per-device table leave for a
    device: that of the last record with its UUID, [current] without one. *)
Fixpoint lastUtilization (uuid : string) (records : list (list string)) (current : string)
  : string :=
  match records with
  | [] => current
  | (gpuUuid :: _ :: gpuUtilization :: _) :: more =>
      lastUtilization uuid more (if String.eqb uuid gpuUuid then gpuUtilization else current)
  | _ :: more => lastUtilization uuid more current
  end.

(** What the records of the per-device table do to one entry. *)
Definition usageStep (metric : gmap string string) (record : list string)
  : gmap string string :=
  match record with
  | gpuUuid :: _ :: gpuUtilization :: _ => Script.setUtilization gpuUuid gpuUtilization metric
  | _ => metric
  end.

Definition applyUsage (records : list (list string)) (metric : gmap string string)
  : gmap string string :=
  fold_left usageStep records metric.

(** A [cgroup.procs] file that opens, in the subtree [name] of [parent],
    lists [pid], and [jobID] is the name of the directory that holds it. *)
Inductive listsIn : string -> string -> Script.node -> string -> string -> Prop :=
| listsIn_file (parent text pid : string) :
    In pid (fst (bufio.ScanLines text)) ->
    listsIn parent "cgroup.procs" (Script.File (Some text)) pid parent
| listsIn_dir (parent name : string) (entries : list (string * Script.node))
              (childName : string) (child : Script.node) (pid jobID : string) :
    In (childName, child) entries ->
    listsIn name childName child pid jobID ->
    listsIn parent name (Script.Dir (Some entries)) pid jobID.

(** Something in the subtree [name] stops the walk: a path that [Lstat]
    cannot describe, a directory that cannot be read, a [cgroup.procs] that
    does not open or whose scan fails. *)
Inductive stops : string -> Script.node -> Prop :=
| stops_unstatable (name : string) : stops name Script.Unstatable
| stops_unreadable (name : string) : stops name (Script.Dir None)
| stops_unopened : stops "cgroup.procs" (Script.File None)
| stops_scan (text : string) :
    snd (bufio.ScanLines text) = true -> stops "cgroup.procs" (Script.File (Some text))
| stops_below (name : string) (entries : list (string * Script.node))
              (childName : string) (child : Script.node) :
    In (childName, child) entries ->
    stops childName child ->
    stops name (Script.Dir (Some entries)).

(** Induction on a node with the hypothesis for every entry of a
    directory. *)
Fixpoint node_induction (P : Script.node -> Prop)
         (Hunstatable : P Script.Unstatable)
         (Hfile : forall content, P (Script.File content))
         (Hunreadable : P (Script.Dir None))
         (Hdir : forall entries, Forall (fun e => P (snd e)) entries ->
                                 P (Script.Dir (Some entries)))
         (n : Script.node) : P n :=
  match n with
  | Script.Unstatable => Hunstatable
  | Script.File content => Hfile content
  | Script.Dir None => Hunreadable
  | Script.Dir (Some entries) =>
      Hdir entries
           ((fix all (l : list (string * Script.node)) : Forall (fun e => P (snd e)) l :=
               match l with
               | [] => List.Forall_nil _
               | (childName, child) :: l' =>
                   @List.Forall_cons _ _ (childName, child) l'
                     (node_induction P Hunstatable Hfile Hunreadable Hdir child) (all l')
               end) entries)
  end.

(** What a walker may add: bindings that satisfy [R]. *)
Definition addsOnly (R : string -> string -> Prop) (w : Script.walker) : Prop :=
  forall acc pid j, fst (w acc) !! pid = Some j -> acc !! pid = Some j \/ R pid j.

(** Whether a walker ends with an error does not depend on the map. *)
Definition errsIff (B : Prop) (w : Script.walker) : Prop :=
  forall acc, snd (w acc) = true <-> B.

(** A walker keeps what is bound. *)
Definition keepsBound (w : Script.walker) : Prop :=
  forall acc pid, is_Some (acc !! pid) -> is_Some (fst (w acc) !! pid).

(** A walker that ends without an error has bound [pid]. *)
Definition binds (pid : string) (w : Script.walker) : Prop :=
  forall acc, snd (w acc) = false -> is_Some (fst (w acc) !! pid).

(** A reader of comma-separated lines without quotes, to run the examples:
    the lines that are not empty, cut at the commas. *)
Definition plainCSV (text : string) : option (list (list string)) :=
  Some (map (fun line => strings.Split line ",")
            (List.filter (fun line => negb (String.eqb line EmptyString))
                         (strings.Split text nl))).

(** ** Examples of hosts *)

Module Example.

Definition quoted (s : string) : string :=
  String DQUOTE EmptyString +:+ s +:+ String DQUOTE EmptyString.

(** The rows of the example of the specification. *)
Definition gpuRow : string := "gpu-uuid-1, 0, " +:+ quoted "GPUX" +:+ ", 37".
Definition appRow : string := "1234, 512 MiB, gpu-uuid-1".

Definition procs42 : string := "/sys/fs/cgroup/cpu/slurm/uid_1000/job_42/cgroup.procs".
Definition procs43 : string := "/sys/fs/cgroup/cpu/slurm/uid_1000/job_43/cgroup.procs".

Definition ioRecord : string :=
  "rchar: 100" +:+ nl +:+ "read_bytes: 4096" +:+ nl +:+ "write_bytes: 0".

(** User 1000 runs job 42 with the one process 1234 and job 43 with no
    process. *)
Definition cgroups : FileSystem :=
  {| Readdirnames := fun path =>
       if String.eqb path basePath then Some ["uid_1000"; "tasks"]
       else if String.eqb path "/sys/fs/cgroup/cpu/slurm/uid_1000"
            then Some ["job_42"; "job_43"; "cgroup.procs"]
            else None;
     ReadFile := fun path =>
       if String.eqb path procs42 then Some ("1234" +:+ nl)
       else if String.eqb path procs43 then Some EmptyString
       else if String.eqb path "/proc/1234/io" then Some ioRecord
       else None;
     IsNotExist := fun path =>
       negb (String.eqb path procs42 || String.eqb path procs43) |}.

Definition busy : Host :=
  {| fs := cgroups;
     gpuInfoCmd := Some (gpuRow +:+ nl);
     computeAppsCmd := Some (appRow +:+ nl) |}.

(** The device is there and no process uses it. *)
Definition idle : Host :=
  {| fs := cgroups;
     gpuInfoCmd := Some (gpuRow +:+ nl);
     computeAppsCmd := Some EmptyString |}.

Definition noDriver : Host :=
  {| fs := cgroups; gpuInfoCmd := None; computeAppsCmd := Some (appRow +:+ nl) |}.

Definition noApps : Host :=
  {| fs := cgroups; gpuInfoCmd := Some (gpuRow +:+ nl); computeAppsCmd := None |}.

(** Two devices; one process on the first and one row that names a device
    that the per-device query does not list. *)
Definition gpuRow2 : string := "gpu-uuid-2, 1, " +:+ quoted "GPUX" +:+ ", 0".
Definition strayRow : string := "1234, 100 MiB, gpu-uuid-9".

Definition twoDevices : string := gpuRow +:+ nl +:+ gpuRow2 +:+ nl.
Definition appsWithStray : string := appRow +:+ nl +:+ strayRow +:+ nl.

(** A row for the listed device whose process is in no job directory. *)
Definition orphanRow : string := "9999, 512 MiB, gpu-uuid-1".

(** A row whose memory is written as a hexadecimal floating-point number,
    16 MiB. *)
Definition hexRow : string := "1234, 0x1p4 MiB, gpu-uuid-1".


Definition naRow : string := "1234, [N/A], gpu-uuid-1".




(** Job 42 with two processes that both hold memory on device 0. *)
Definition uid1000 : string := "/sys/fs/cgroup/cpu/slurm/uid_1000".

Definition twoProcs : FileSystem :=
  tableFS [ (basePath, ["uid_1000"]); (uid1000, ["job_42"]) ]
          [ (procs42, "1234" +:+ nl +:+ "1235" +:+ nl);
            ("/proc/1234/io", ioRecord);
            ("/proc/1235/io", "read_bytes: 7" +:+ nl) ].

Definition shared : Host :=
  {| fs := twoProcs;
     gpuInfoCmd := Some (gpuRow +:+ nl);
     computeAppsCmd := Some (appRow +:+ nl +:+ "1235, 100 MiB, gpu-uuid-1" +:+ nl) |}.

(** Process 1234 is still listed and its I/O record is gone. *)
Definition exited : FileSystem :=
  tableFS [ (basePath, ["uid_1000"]); (uid1000, ["job_42"]) ]
          [ (procs42, "1234" +:+ nl) ].

(** Job 42 has ended: only job 43 is left, and no process uses the device. *)
Definition afterJob42 : Host :=
  {| fs := tableFS [ (basePath, ["uid_1000"]); (uid1000, ["job_43"]) ]
                   [ (procs43, EmptyString) ];
     gpuInfoCmd := Some (gpuRow +:+ nl);
     computeAppsCmd := Some EmptyString |}.

(** The membership file of job 41 holds one line of 65536 bytes. *)
Definition procs41 : string := "/sys/fs/cgroup/cpu/slurm/uid_1000/job_41/cgroup.procs".

Definition longLine : FileSystem :=
  tableFS [ (basePath, ["uid_1000"]); (uid1000, ["job_41"; "job_42"]) ]
          [ (procs41, doubled 16 "7" +:+ nl); (procs42, "1234" +:+ nl) ].

(** Two rows of the per-device output with the same UUID. *)
Definition repeatedDevice : string :=
  gpuRow +:+ nl +:+ "gpu-uuid-1, 3, " +:+ quoted "GPUX" +:+ ", 0" +:+ nl.

(** A host of the earlier version: process 1234 of job 42, and entries of
    [/proc] that are not processes. *)
Definition procfs : FileSystem :=
  tableFS [ ("/proc", ["1234"; "self"; "cpuinfo"]) ]
          [ ("/proc/1234/cgroup",
             "5:memory:/slurm/uid_1000/job_42/step_0" +:+ nl
             +:+ "4:cpu,cpuacct:/slurm/uid_1000/job_42/step_0" +:+ nl);
            ("/proc/1234/io", ioRecord);
            ("/proc/self/cgroup", "4:cpu,cpuacct:/slurm/uid_1000/job_42/step_0" +:+ nl);
            ("/proc/self/io", ioRecord) ].

(** A cgroup line of the earlier version in which a second [job_] follows
    the first before any slash. *)
Definition nestedJob : FileSystem :=
  tableFS [ ("/proc", ["7"]) ]
          [ ("/proc/7/cgroup", "4:cpu,cpuacct:/slurm/uid_1000/job_42job_7/step_0" +:+ nl) ].

Definition earlierBusy : Host :=
  {| fs := procfs;
     gpuInfoCmd := Some (gpuRow +:+ nl);
     computeAppsCmd := Some (appRow +:+ nl) |}.

(** An I/O record with a key given twice and a value with a colon. *)
Definition twiceRecord : string :=
  "read_bytes: 1" +:+ nl +:+ "no colon here" +:+ nl +:+ "read_bytes: 2:3" +:+ nl.

Definition scriptFS : FileSystem :=
  tableFS [] [ ("/proc/1234/io", twiceRecord); ("/proc/1235/io", ioRecord) ].

(** The two tables of the one-shot program, with their header lines. *)
Definition appsTable : string :=
  "pid,used_gpu_memory [MiB],gpu_name,gpu_uuid" +:+ nl
  +:+ "1234,512 MiB,GPUX,gpu-uuid-1" +:+ nl
  +:+ "1235,100 MiB,GPUX,gpu-uuid-2" +:+ nl
  +:+ "1234,64 MiB,GPUX,gpu-uuid-3" +:+ nl.

Definition usageTable : string :=
  "uuid,name,utilization.gpu [%]" +:+ nl
  +:+ "gpu-uuid-1,GPUX,37 %" +:+ nl
  +:+ "gpu-uuid-2,GPUX,5 %" +:+ nl.

(** A cgroup tree for the one-shot program: two controllers with the same
    job, and a second tree in which one directory cannot be read. *)
Definition jobNode (pids : string) : Script.node :=
  Script.Dir (Some [ ("tasks", Script.File (Some pids));
                     ("cgroup.procs", Script.File (Some pids)) ]).

Definition cgroupTree : Script.node :=
  Script.Dir (Some [ ("memory", Script.Dir (Some [ ("job_42", jobNode ("1234" +:+ nl)) ]));
                     ("cpu", Script.Dir (Some [ ("job_42", jobNode ("1234" +:+ nl));
                                                ("job_43", jobNode EmptyString) ])) ]).

Definition lockedTree : Script.node :=
  Script.Dir (Some [ ("cpu", Script.Dir (Some [ ("job_42", jobNode ("1234" +:+ nl)) ]));
                     ("systemd", Script.Dir None) ]).

End Example.

(** ** Replaying calls *)

Lemma publish_app (a b : list SetCall) (r : Registry) :
  publish (a ++ b) r = publish b (publish a r).
Proof. unfold publish. apply fold_left_app. Qed.

Lemma Set_other (c : SetCall) (g : Gauge) (r : Registry) :
  metric c <> g -> gauge g (Set_ c r) = gauge g r.
Proof.
  unfold Set_. destruct (metric c) eqn:E, g; simpl; congruence.
Qed.

Lemma Set_same (c : SetCall) (r : Registry) :
  gauge (metric c) (Set_ c r) = <[labels c := value c]> (gauge (metric c) r).
Proof. unfold Set_. destruct (metric c); reflexivity. Qed.

(** A gauge that no call names keeps its entries. *)
Lemma publish_other (g : Gauge) (calls : list SetCall) (r : Registry) :
  Forall (fun c => metric c <> g) calls ->
  gauge g (publish calls r) = gauge g r.
Proof.
  intros H. revert r. induction H as [|c calls Hc _ IH]; intros r.
  - reflexivity.
  - change (publish (c :: calls) r) with (publish calls (Set_ c r)).
    rewrite IH. now apply Set_other.
Qed.

(** The accelerator collector only sets [gpu_memory_usage_bytes]. *)
Lemma computeAppsLine_metric fsys m line :
  Forall (fun c => metric c = gpu_memory_usage_bytes) (computeAppsLine fsys m line).
Proof.
  unfold computeAppsLine.
  repeat (case_match; try (apply List.Forall_nil)).
  apply List.Forall_cons; [reflexivity | apply List.Forall_nil].
Qed.

Lemma Forall_flat_map_intro {A B : Type} (P : B -> Prop) (f : A -> list B) (l : list A) :
  (forall a, Forall P (f a)) -> Forall P (flat_map f l).
Proof.
  intros H. induction l as [|a l IH]; simpl.
  - apply List.Forall_nil.
  - apply Forall_app. split; [apply H | apply IH].
Qed.

Lemma collectGPUMetrics_metric (h : Host) :
  Forall (fun c => metric c = gpu_memory_usage_bytes) (collectGPUMetrics h).
Proof.
  unfold collectGPUMetrics.
  destruct (gpuInfoCmd h); [|apply List.Forall_nil].
  destruct (computeAppsCmd h); [|apply List.Forall_nil].
  apply Forall_flat_map_intro. intros line. apply computeAppsLine_metric.
Qed.

(** The I/O collector only sets the two I/O metrics, and labels every call
    of a job directory with the name of that directory. *)
Lemma ioLine_ioCall pid jobEntry line : Forall (ioCall jobEntry) (ioLine pid jobEntry line).
Proof.
  unfold ioLine.
  repeat (case_match; try (apply List.Forall_nil));
    (apply List.Forall_cons; [split; [auto | reflexivity] | apply List.Forall_nil]).
Qed.

Lemma ioPID_ioCall fsys jobEntry pid : Forall (ioCall jobEntry) (ioPID fsys jobEntry pid).
Proof.
  unfold ioPID. case_match; [|apply List.Forall_nil].
  apply Forall_flat_map_intro. intros line. apply ioLine_ioCall.
Qed.

Lemma ioJob_ioCall fsys uidPath jobEntry :
  Forall (ioCall jobEntry) (ioJob fsys uidPath jobEntry).
Proof.
  unfold ioJob.
  repeat (case_match; try (apply List.Forall_nil)).
  - repeat (apply List.Forall_cons; [split; [auto | reflexivity]|]). apply List.Forall_nil.
  - apply Forall_flat_map_intro. intros pid. apply ioPID_ioCall.
Qed.

(** [collectIOMetrics] runs [ioJob] on the job directories in order. *)
Lemma flat_map_map {A B C : Type} (f : B -> list C) (g : A -> B) (l : list A) :
  flat_map f (map g l) = flat_map (fun a => f (g a)) l.
Proof. induction l as [|a l IH]; simpl; [reflexivity | now rewrite IH]. Qed.

Lemma flat_map_flat_map {A B C : Type} (f : B -> list C) (g : A -> list B) (l : list A) :
  flat_map f (flat_map g l) = flat_map (fun a => flat_map f (g a)) l.
Proof.
  induction l as [|a l IH]; simpl; [reflexivity|].
  now rewrite flat_map_app, IH.
Qed.

Lemma collectIOMetrics_jobDirs (fsys : FileSystem) :
  collectIOMetrics fsys = flat_map (fun d => ioJob fsys (fst d) (snd d)) (jobDirs fsys).
Proof.
  unfold collectIOMetrics, jobDirs.
  destruct (Readdirnames fsys basePath) as [entries|]; [|reflexivity].
  rewrite flat_map_flat_map. apply flat_map_ext. intros entry.
  unfold ioUID, uidJobs.
  destruct (strings.HasPrefix entry "uid_"); [|reflexivity].
  destruct (Readdirnames fsys (filepath.slash basePath entry)); [|reflexivity].
  now rewrite flat_map_map.
Qed.

Lemma collectIOMetrics_metric (fsys : FileSystem) :
  Forall (fun c => metric c = io_read_bytes \/ metric c = io_write_bytes)
         (collectIOMetrics fsys).
Proof.
  rewrite collectIOMetrics_jobDirs. apply Forall_flat_map_intro. intros [u j].
  eapply Forall_impl; [apply ioJob_ioCall|]. intros c [H _]. exact H.
Qed.

(** ** A tick and the accelerator gauges *)

Lemma cycle_gpu_utilization (h : Host) (r : Registry) :
  gpuUtilizationMetric (cycle h r) = gpuUtilizationMetric r.
Proof.
  unfold cycle, tick. rewrite publish_app.
  change (gauge gpu_utilization
            (publish (collectIOMetrics (fs h)) (publish (collectGPUMetrics h) r))
          = gauge gpu_utilization r).
  rewrite publish_other.
  - apply publish_other.
    eapply Forall_impl; [apply collectGPUMetrics_metric|].
    simpl. intros c Hc. rewrite Hc. discriminate.
  - eapply Forall_impl; [apply collectIOMetrics_metric|].
    simpl. intros c [Hc|Hc]; rewrite Hc; discriminate.
Qed.

Lemma cycle_gpu_memory (h : Host) (r : Registry) :
  gpuMemoryUsageMetric (cycle h r)
  = gpuMemoryUsageMetric (publish (collectGPUMetrics h) r).
Proof.
  unfold cycle, tick. rewrite publish_app.
  apply (publish_other gpu_memory_usage_bytes).
  eapply Forall_impl; [apply collectIOMetrics_metric|].
  simpl. intros c [Hc|Hc]; rewrite Hc; discriminate.
Qed.

Lemma cycles_gpu_utilization (hs : list Host) (r : Registry) :
  gpuUtilizationMetric (cycles hs r) = gpuUtilizationMetric r.
Proof.
  revert r. induction hs as [|h hs IH]; intros r; [reflexivity|].
  change (cycles (h :: hs) r) with (cycles hs (cycle h r)).
  rewrite IH. apply cycle_gpu_utilization.
Qed.

Lemma failed_query_no_call (h : Host) : queryFails h -> collectGPUMetrics h = [].
Proof.
  unfold collectGPUMetrics. intros [H|H]; rewrite H; [reflexivity|].
  now destruct (gpuInfoCmd h).
Qed.

(** ** The rows of the example *)

Lemma gpuRow_lines : outputLines Example.gpuRow = [Example.gpuRow].
Proof. vm_compute. reflexivity. Qed.

Lemma appRow_lines : outputLines Example.appRow = [Example.appRow].
Proof. vm_compute. reflexivity. Qed.

Lemma gpuRow_index : gpuUUIDToIndex [Example.gpuRow] !! "gpu-uuid-1" = Some "0".
Proof. vm_compute. reflexivity. Qed.

Lemma appRow_fields :
  strings.Split Example.appRow ", " = ["1234"; "512 MiB"; "gpu-uuid-1"].
Proof. vm_compute. reflexivity. Qed.

Lemma parse_512_MiB :
  strconv.ParseFloat (strings.Trim "512 MiB" " MiB") = Some (float64_of_Z 512).
Proof. vm_compute. reflexivity. Qed.

Lemma bytes_of_512_MiB : MiB_to_bytes (float64_of_Z 512) = float64_of_Z 536870912.
Proof. vm_compute. reflexivity. Qed.

Lemma cgroups_resolves_1234 : getJobIDFromPID Example.cgroups "1234" = Some "42".
Proof. vm_compute. reflexivity. Qed.

(** ** C8: a failed query *)

(** C8.  In every tick in which one of the two [nvidia-smi] commands returns
    an error, [collectGPUMetrics] performs no [Set] call at all; and over any
    run of such ticks the two accelerator gauges keep exactly the entries
    and values they had before. *)
Theorem C8_failed_query_publishes_nothing (hs : list Host) (r : Registry) :
  Forall queryFails hs ->
  Forall (fun h => collectGPUMetrics h = []) hs
  /\ gpuMemoryUsageMetric (cycles hs r) = gpuMemoryUsageMetric r
  /\ gpuUtilizationMetric (cycles hs r) = gpuUtilizationMetric r.
Proof.
  intros H. split; [|split].
  - eapply Forall_impl; [exact H|]. intros h. apply failed_query_no_call.
  - revert r. induction H as [|h hs Hh _ IH]; intros r; [reflexivity|].
    change (cycles (h :: hs) r) with (cycles hs (cycle h r)).
    rewrite IH, cycle_gpu_memory, (failed_query_no_call h Hh). reflexivity.
  - apply cycles_gpu_utilization.
Qed.

Lemma C8_witness :
  Forall (fun h => collectGPUMetrics h = []) [Example.noDriver; Example.noApps]
  /\ gpuMemoryUsageMetric (cycles [Example.noDriver; Example.noApps] (cycle Example.busy init))
     = gpuMemoryUsageMetric (cycle Example.busy init)
  /\ gpuUtilizationMetric (cycles [Example.noDriver; Example.noApps] (cycle Example.busy init))
     = gpuUtilizationMetric (cycle Example.busy init).
Proof.
  apply (C8_failed_query_publishes_nothing
           [Example.noDriver; Example.noApps] (cycle Example.busy init)).
  repeat apply List.Forall_cons; try apply List.Forall_nil.
  - left. reflexivity.
  - right. reflexivity.
Defined.

(** ** C2: device utilization *)

Lemma init_gpu_utilization :
  gpuUtilizationMetric init = {[ ["none"; "none"] := float64_of_Z 0 ]}.
Proof. cbn. apply insert_empty. Qed.

(** C2, as the code has it.  No tick writes [gpu_utilization]: after any
    number of ticks from start-up the gauge holds the placeholder entry
    [none, none] with value 0 that [init] sets, and nothing else; so no
    entry carries the index of a device, with or without processes. *)
Theorem C2_utilization_is_the_placeholder (hs : list Host) :
  gpuUtilizationMetric (cycles hs init) = {[ ["none"; "none"] := float64_of_Z 0 ]}
  /\ forall index, index <> "none" -> ~ utilizationOf (cycles hs init) index.
Proof.
  split.
  - rewrite cycles_gpu_utilization. apply init_gpu_utilization.
  - intros index Hne (jobID & v & Hv).
    rewrite cycles_gpu_utilization, init_gpu_utilization in Hv.
    apply lookup_singleton_Some in Hv. destruct Hv as [Hk _].
    apply Hne. congruence.
Qed.

(** C2, as stated, fails: after a tick on a host whose per-device output
    lists the device with index 0 and whose compute-apps output is empty,
    the registry has no [gpu_utilization] entry for device 0. *)
Lemma C2_idle_device_has_no_entry :
  deviceRows (outputLines (Example.gpuRow +:+ nl)) = [("gpu-uuid-1", "0")]
  /\ collectGPUMetrics Example.idle = []
  /\ ~ utilizationOf (cycle Example.idle init) "0".
Proof.
  split; [vm_compute; reflexivity|].
  split; [vm_compute; reflexivity|].
  intros (jobID & v & Hv).
  rewrite cycle_gpu_utilization, init_gpu_utilization in Hv.
  apply lookup_singleton_Some in Hv. destruct Hv as [Hk _]. discriminate.
Qed.

(** ** C4: the example of the specification *)

(** C4.  When the one row of the per-device output is
    [gpu-uuid-1, 0, "GPUX", 37], the one row of the compute-apps output is
    [1234, 512 MiB, gpu-uuid-1] and PID 1234 resolves to job 42 in the cgroup
    tree, the accelerator pass performs the single call that sets
    [gpu_memory_usage_bytes] with [gpu_id] 0 and [job_id] 42 to 536870912, and
    that is the value of the entry after the tick. *)
Theorem C4_example_row (fsys : FileSystem) (gpuInfoOutput computeAppsOutput : string)
        (r : Registry) :
  outputLines gpuInfoOutput = [Example.gpuRow] ->
  outputLines computeAppsOutput = [Example.appRow] ->
  getJobIDFromPID fsys "1234" = Some "42" ->
  let h := {| fs := fsys;
              gpuInfoCmd := Some gpuInfoOutput;
              computeAppsCmd := Some computeAppsOutput |} in
  collectGPUMetrics h
  = [ mkCall gpu_memory_usage_bytes ["0"; "42"] (float64_of_Z 536870912) ]
  /\ gpuMemoryUsageMetric (cycle h r) !! ["0"; "42"] = Some (float64_of_Z 536870912).
Proof.
  intros Hgpu Happs Hjob h.
  assert (Hcalls : collectGPUMetrics h
            = [ mkCall gpu_memory_usage_bytes ["0"; "42"] (float64_of_Z 536870912) ]).
  { unfold collectGPUMetrics, h. cbn [gpuInfoCmd computeAppsCmd fs].
    rewrite Hgpu, Happs. cbn [flat_map]. rewrite app_nil_r.
    unfold computeAppsLine.
    rewrite appRow_fields, parse_512_MiB, gpuRow_index, Hjob, bytes_of_512_MiB.
    reflexivity. }
  split; [exact Hcalls|].
  rewrite cycle_gpu_memory, Hcalls. cbn.
  apply lookup_insert_eq.
Qed.

Lemma C4_witness :
  (collectGPUMetrics Example.busy
   = [ mkCall gpu_memory_usage_bytes ["0"; "42"] (float64_of_Z 536870912) ]
   /\ gpuMemoryUsageMetric (cycle Example.busy init) !! ["0"; "42"]
      = Some (float64_of_Z 536870912))
  /\ collectGPUMetrics {| fs := Example.cgroups;
                          gpuInfoCmd := Some Example.gpuRow;
                          computeAppsCmd := Some Example.appRow |}
     = [ mkCall gpu_memory_usage_bytes ["0"; "42"] (float64_of_Z 536870912) ].
Proof.
  split.
  - apply (C4_example_row Example.cgroups (Example.gpuRow +:+ nl) (Example.appRow +:+ nl) init).
    + vm_compute. reflexivity.
    + vm_compute. reflexivity.
    + apply cgroups_resolves_1234.
  - apply (C4_example_row Example.cgroups Example.gpuRow Example.appRow init).
    + exact gpuRow_lines.
    + exact appRow_lines.
    + apply cgroups_resolves_1234.
Defined.

(** ** C1: the job label of the two collectors *)

Lemma searchJobs_Return (fsys : FileSystem) (pid uidPath : string)
      (jobEntries : list string) (jobID : string) :
  searchJobs fsys pid uidPath jobEntries = Return jobID ->
  exists jobEntry,
    In jobEntry jobEntries
    /\ strings.HasPrefix jobEntry "job_" = true
    /\ jobID = strings.TrimPrefix jobEntry "job_".
Proof.
  induction jobEntries as [|jobEntry more IH]; [discriminate|].
  cbn [searchJobs]. intros H.
  assert (Hmore : searchJobs fsys pid uidPath more = Return jobID ->
                  exists e, In e (jobEntry :: more)
                            /\ strings.HasPrefix e "job_" = true
                            /\ jobID = strings.TrimPrefix e "job_").
  { intros Hm. destruct (IH Hm) as (e & He & Hp & Hj).
    exists e. split; [right; exact He | split; assumption]. }
  destruct (strings.HasPrefix jobEntry "job_") eqn:Hprefix; [|now apply Hmore].
  destruct (ReadFile fsys _) as [content|]; [|now apply Hmore].
  destruct (bufio.ScanLines content) as [lines err].
  destruct (existsb _ lines).
  - inversion H. exists jobEntry. split; [left; reflexivity | split; [exact Hprefix | reflexivity]].
  - destruct err; [discriminate | now apply Hmore].
Qed.

Lemma searchUIDs_Return (fsys : FileSystem) (pid : string) (entries : list string)
      (jobID : string) :
  searchUIDs fsys pid entries = Return jobID ->
  exists entry jobEntry,
    In (filepath.slash basePath entry, jobEntry) (flat_map (uidJobs fsys) entries)
    /\ strings.HasPrefix jobEntry "job_" = true
    /\ jobID = strings.TrimPrefix jobEntry "job_".
Proof.
  induction entries as [|entry more IH]; [discriminate|].
  cbn [searchUIDs flat_map]. intros H.
  assert (Hmore : searchUIDs fsys pid more = Return jobID ->
                  exists e jobEntry,
                    In (filepath.slash basePath e, jobEntry)
                       (uidJobs fsys entry ++ flat_map (uidJobs fsys) more)
                    /\ strings.HasPrefix jobEntry "job_" = true
                    /\ jobID = strings.TrimPrefix jobEntry "job_").
  { intros Hm. destruct (IH Hm) as (e & jobEntry & He & Hp & Hj).
    exists e, jobEntry. split; [apply in_or_app; right; exact He | split; assumption]. }
  destruct (strings.HasPrefix entry "uid_") eqn:Huid; [|now apply Hmore].
  destruct (Readdirnames fsys (filepath.slash basePath entry)) as [jobEntries|] eqn:Hdir;
    [|now apply Hmore].
  destruct (searchJobs fsys pid (filepath.slash basePath entry) jobEntries) eqn:Hjobs.
  - inversion H; subst. apply searchJobs_Return in Hjobs.
    destruct Hjobs as (jobEntry & Hin & Hp & Hj).
    exists entry, jobEntry. split; [|split; assumption].
    apply in_or_app. left. unfold uidJobs. rewrite Huid, Hdir.
    apply in_map_iff. exists jobEntry. split; [reflexivity | exact Hin].
  - discriminate.
  - now apply Hmore.
Qed.

(** The job that [getJobIDFromPID] returns is the name of a job directory
    that [collectIOMetrics] visits, without its prefix. *)
Lemma getJobIDFromPID_trimmed (fsys : FileSystem) (pid jobID : string) :
  getJobIDFromPID fsys pid = Some jobID ->
  exists uidPath jobEntry,
    In (uidPath, jobEntry) (jobDirs fsys)
    /\ strings.HasPrefix jobEntry "job_" = true
    /\ jobID = strings.TrimPrefix jobEntry "job_".
Proof.
  unfold getJobIDFromPID, jobDirs.
  destruct (Readdirnames fsys basePath) as [entries|]; [|discriminate].
  destruct (searchUIDs fsys pid entries) eqn:Hsearch; try discriminate.
  intros H. inversion H; subst. apply searchUIDs_Return in Hsearch.
  destruct Hsearch as (entry & jobEntry & Hin & Hp & Hj).
  exists (filepath.slash basePath entry), jobEntry. split; [exact Hin | split; assumption].
Qed.

Lemma TrimPrefix_job_differs (jobEntry : string) :
  strings.HasPrefix jobEntry "job_" = true ->
  strings.TrimPrefix jobEntry "job_" <> jobEntry.
Proof.
  intros Hp. unfold strings.TrimPrefix. rewrite Hp.
  destruct jobEntry as [|a [|b [|c [|d tail]]]];
    cbn in Hp; repeat case_match; try discriminate.
  cbn [String.length strings.drop_bytes]. intros Heq.
  apply (f_equal String.length) in Heq. cbn [String.length] in Heq. lia.
Qed.

(** C1, on the code.  Evaluated on a host where user 1000 runs job 42 with
    the process 1234, which holds 512 MiB on device 0: in one tick the
    accelerator sample of the process is set with the job label [42], which
    is what [getJobIDFromPID] returns after it trims the prefix, and its two
    I/O samples with the job label [job_42], the name of the directory.  And
    on every host: the job that [getJobIDFromPID] returns for a process is
    the name of a visited job directory without the prefix [job_], whereas
    every I/O call for that directory carries the name with the prefix, so
    the two labels differ. *)
Theorem C1_job_labels_of_one_tick :
  (tick Example.busy
   = [ mkCall gpu_memory_usage_bytes ["0"; "42"] (float64_of_Z 536870912);
       mkCall io_read_bytes ["1234"; "job_42"] (float64_of_Z 4096);
       mkCall io_write_bytes ["1234"; "job_42"] (float64_of_Z 0);
       mkCall io_read_bytes ["none"; "job_43"] (float64_of_Z 0);
       mkCall io_write_bytes ["none"; "job_43"] (float64_of_Z 0) ]
   /\ getJobIDFromPID (fs Example.busy) "1234" = Some "42"
   /\ "42" <> "job_42")
  /\ (forall (fsys : FileSystem) (pid jobID : string),
        getJobIDFromPID fsys pid = Some jobID ->
        exists uidPath jobEntry,
          In (uidPath, jobEntry) (jobDirs fsys)
          /\ jobID = strings.TrimPrefix jobEntry "job_"
          /\ Forall (fun c => job_id c = jobEntry) (ioJob fsys uidPath jobEntry)
          /\ jobID <> jobEntry).
Proof.
  split.
  - split; [vm_compute; reflexivity|].
    split; [vm_compute; reflexivity|discriminate].
  - intros fsys pid jobID H.
    destruct (getJobIDFromPID_trimmed fsys pid jobID H) as (uidPath & jobEntry & Hin & Hp & Hj).
    exists uidPath, jobEntry. split; [exact Hin|]. split; [exact Hj|]. split.
    + eapply Forall_impl; [apply ioJob_ioCall|]. intros c [_ Hc]. exact Hc.
    + rewrite Hj. now apply TrimPrefix_job_differs.
Qed.

(** ** C3: joining the two queries on the UUID *)

Lemma gpuInfoLine_deviceRow (m : gmap string string) (line : string) :
  gpuInfoLine m line
  = match deviceRow line with
    | Some (uuid, index) => <[uuid := index]> m
    | None => m
    end.
Proof. unfold gpuInfoLine, deviceRow. repeat case_match; reflexivity. Qed.

Lemma fold_gpuInfoLine (lines : list string) (m : gmap string string) :
  fold_left gpuInfoLine lines m = fold_left insertRow (deviceRows lines) m.
Proof.
  revert m. induction lines as [|line lines IH]; intros m; [reflexivity|].
  cbn [fold_left]. rewrite IH, gpuInfoLine_deviceRow.
  unfold deviceRows. cbn [omap list_omap].
  destruct (deviceRow line) as [[uuid index]|]; reflexivity.
Qed.

Lemma fold_insertRow_absent (rows : list (string * string)) (m : gmap string string) (uuid : string) :
  ~ In uuid (map fst rows) -> fold_left insertRow rows m !! uuid = m !! uuid.
Proof.
  revert m. induction rows as [|[u i] rows IH]; intros m Hnot; [reflexivity|].
  cbn [fold_left]. rewrite IH.
  - unfold insertRow. cbn [fst snd]. apply lookup_insert_ne.
    intros ->. apply Hnot. left. reflexivity.
  - intros Hin. apply Hnot. right. exact Hin.
Qed.

Lemma fold_insertRow_present (rows : list (string * string)) (m : gmap string string)
      (uuid index : string) :
  NoDup (map fst rows) -> In (uuid, index) rows ->
  fold_left insertRow rows m !! uuid = Some index.
Proof.
  revert m. induction rows as [|[u i] rows IH]; intros m Hnd Hin; [destruct Hin|].
  cbn [map fst] in Hnd. apply NoDup_cons in Hnd. destruct Hnd as [Hu Hnd].
  cbn [fold_left]. destruct Hin as [Heq|Hin].
  - inversion Heq; subst u i. rewrite fold_insertRow_absent.
    + apply lookup_insert_eq.
    + intros H. apply Hu. apply list_elem_of_In. exact H.
  - now apply IH.
Qed.

Lemma gpuUUIDToIndex_present (lines : list string) (uuid index : string) :
  distinctUUIDs lines -> In (uuid, index) (deviceRows lines) ->
  gpuUUIDToIndex lines !! uuid = Some index.
Proof.
  intros Hnd Hin. unfold gpuUUIDToIndex. rewrite fold_gpuInfoLine.
  now apply fold_insertRow_present.
Qed.

Lemma gpuUUIDToIndex_absent (lines : list string) (uuid : string) :
  ~ In uuid (map fst (deviceRows lines)) -> gpuUUIDToIndex lines !! uuid = None.
Proof.
  intros Hnot. unfold gpuUUIDToIndex. rewrite fold_gpuInfoLine.
  now rewrite fold_insertRow_absent.
Qed.

(** C3, as the code has it.  Let the per-device output name every device
    once.  The calls of
    the accelerator pass are those of its compute-apps rows, in order.  A
    row with the three fields [pid, used, uuid] whose UUID is that of a
    device row with index [index] gives, when its memory field is a number
    and its PID resolves to a job, exactly one call, labelled with
    [gpu_id = index], and no call otherwise; a row whose UUID is the UUID of no
    device row gives no call at all. *)
Theorem C3_rows_join_on_uuid (fsys : FileSystem)
        (gpuInfoOutput computeAppsOutput line pid used uuid : string) :
  let h := {| fs := fsys;
              gpuInfoCmd := Some gpuInfoOutput;
              computeAppsCmd := Some computeAppsOutput |} in
  let devices := deviceRows (outputLines gpuInfoOutput) in
  let m := gpuUUIDToIndex (outputLines gpuInfoOutput) in
  distinctUUIDs (outputLines gpuInfoOutput) ->
  In line (outputLines computeAppsOutput) ->
  strings.Split line ", " = [pid; used; uuid] ->
  collectGPUMetrics h = flat_map (computeAppsLine fsys m) (outputLines computeAppsOutput)
  /\ incl (computeAppsLine fsys m line) (collectGPUMetrics h)
  /\ (forall index, In (uuid, index) devices ->
        computeAppsLine fsys m line
        = match strconv.ParseFloat (strings.Trim used " MiB"), getJobIDFromPID fsys pid with
          | Some usedMemory, Some jobID =>
              [ mkCall gpu_memory_usage_bytes [index; jobID] (MiB_to_bytes usedMemory) ]
          | _, _ => []
          end)
  /\ (~ In uuid (map fst devices) -> computeAppsLine fsys m line = []).
Proof.
  intros h devices m Hnd Hline Hsplit.
  split; [reflexivity|]. split; [|split].
  - intros c Hc. unfold collectGPUMetrics, h. cbn [gpuInfoCmd computeAppsCmd fs].
    apply in_flat_map. exists line. split; assumption.
  - intros index Hin. unfold computeAppsLine. rewrite Hsplit.
    unfold m. rewrite (gpuUUIDToIndex_present _ _ _ Hnd Hin).
    destruct (strconv.ParseFloat (strings.Trim used " MiB")); [|reflexivity].
    destruct (getJobIDFromPID fsys pid); reflexivity.
  - intros Hnot. unfold computeAppsLine. rewrite Hsplit.
    unfold m. rewrite (gpuUUIDToIndex_absent _ _ Hnot).
    destruct (strconv.ParseFloat (strings.Trim used " MiB")); reflexivity.
Qed.

Lemma twoDevices_rows :
  deviceRows (outputLines Example.twoDevices) = [("gpu-uuid-1", "0"); ("gpu-uuid-2", "1")].
Proof. vm_compute. reflexivity. Qed.

Lemma twoDevices_distinct : distinctUUIDs (outputLines Example.twoDevices).
Proof.
  unfold distinctUUIDs. rewrite twoDevices_rows. cbn [map fst].
  apply NoDup_cons. split.
  - intros H. apply list_elem_of_In in H. destruct H as [H|[]]. discriminate.
  - apply NoDup_singleton.
Qed.

Lemma appsWithStray_lines :
  outputLines Example.appsWithStray = [Example.appRow; Example.strayRow].
Proof. vm_compute. reflexivity. Qed.

Lemma C3_witness :
  let m := gpuUUIDToIndex (outputLines Example.twoDevices) in
  computeAppsLine Example.cgroups m Example.appRow
  = [ mkCall gpu_memory_usage_bytes ["0"; "42"] (float64_of_Z 536870912) ]
  /\ computeAppsLine Example.cgroups m Example.strayRow = [].
Proof.
  intros m. split.
  - destruct (C3_rows_join_on_uuid Example.cgroups Example.twoDevices
                Example.appsWithStray Example.appRow "1234" "512 MiB" "gpu-uuid-1")
      as (_ & _ & Hin & _).
    + exact twoDevices_distinct.
    + rewrite appsWithStray_lines. left. reflexivity.
    + exact appRow_fields.
    + fold m in Hin. rewrite (Hin "0").
      * rewrite parse_512_MiB, cgroups_resolves_1234, bytes_of_512_MiB. reflexivity.
      * rewrite twoDevices_rows. left. reflexivity.
  - destruct (C3_rows_join_on_uuid Example.cgroups Example.twoDevices
                Example.appsWithStray Example.strayRow "1234" "100 MiB" "gpu-uuid-9")
      as (_ & _ & _ & Hout).
    + exact twoDevices_distinct.
    + rewrite appsWithStray_lines. right. left. reflexivity.
    + vm_compute. reflexivity.
    + apply Hout. rewrite twoDevices_rows. cbn [map fst].
      intros [H|[H|[]]]; discriminate.
Defined.

(** C3, as stated, fails: a matched row is not always published.  The row
    [9999, 512 MiB, gpu-uuid-1] has three fields, its UUID is that of the
    per-device row with index 0 and its memory field is a number, but
    process 9999 is in no job directory: the pass performs no call, no call
    of the tick is labelled with [gpu_id = 0], and the gauge is after the
    tick what it was at start-up.  Nor is the matched row
    [1234, [N/A], gpu-uuid-1] of a process with a job published: its memory
    field is no number. *)
Lemma C3_matched_row_without_job :
  let h := {| fs := Example.cgroups;
              gpuInfoCmd := Some (Example.gpuRow +:+ nl);
              computeAppsCmd := Some (Example.orphanRow +:+ nl) |} in
  distinctUUIDs (outputLines (Example.gpuRow +:+ nl))
  /\ In Example.orphanRow (outputLines (Example.orphanRow +:+ nl))
  /\ strings.Split Example.orphanRow ", " = ["9999"; "512 MiB"; "gpu-uuid-1"]
  /\ In ("gpu-uuid-1", "0") (deviceRows (outputLines (Example.gpuRow +:+ nl)))
  /\ strconv.ParseFloat (strings.Trim "512 MiB" " MiB") = Some (float64_of_Z 512)
  /\ collectGPUMetrics h = []
  /\ ~ (exists c, In c (tick h)
                  /\ metric c = gpu_memory_usage_bytes /\ first_label c = "0")
  /\ gpuMemoryUsageMetric (cycle h init) = gpuMemoryUsageMetric init
  /\ strings.Split Example.naRow ", " = ["1234"; "[N/A]"; "gpu-uuid-1"]
  /\ getJobIDFromPID Example.cgroups "1234" = Some "42"
  /\ collectGPUMetrics {| fs := Example.cgroups;
                          gpuInfoCmd := Some (Example.gpuRow +:+ nl);
                          computeAppsCmd := Some (Example.naRow +:+ nl) |} = [].
Proof.
  intros h.
  assert (Hrows : deviceRows (outputLines (Example.gpuRow +:+ nl)) = [("gpu-uuid-1", "0")])
    by (vm_compute; reflexivity).
  assert (Hcalls : collectGPUMetrics h = []) by (vm_compute; reflexivity).
  split.
  { unfold distinctUUIDs. rewrite Hrows. cbn [map fst].
    apply NoDup_singleton. }
  split; [vm_compute; left; reflexivity|].
  split; [vm_compute; reflexivity|].
  split; [rewrite Hrows; left; reflexivity|].
  split; [exact parse_512_MiB|].
  split; [exact Hcalls|].
  split.
  - intros (c & Hin & Hmetric & _).
    unfold tick in Hin. rewrite Hcalls in Hin. cbn [app] in Hin.
    pose proof (collectIOMetrics_metric (fs h)) as Hio.
    rewrite List.Forall_forall in Hio. specialize (Hio c Hin).
    cbn in Hio. rewrite Hmetric in Hio. destruct Hio; discriminate.
  - split; [rewrite cycle_gpu_memory, Hcalls; reflexivity|].
    split; [vm_compute; reflexivity|].
    split; [exact cgroups_resolves_1234|].
    vm_compute. reflexivity.
Qed.

(** ** Reading an entry after a replay *)

Lemma Set_lookup_other (c : SetCall) (g : Gauge) (k : list string) (r : Registry) :
  labels c <> k -> gauge g (Set_ c r) !! k = gauge g r !! k.
Proof.
  intros Hk. unfold Set_.
  destruct (metric c), g; cbn [gauge gpuUtilizationMetric gpuMemoryUsageMetric
                                 ioReadBytesMetric ioWriteBytesMetric];
    try reflexivity; now apply lookup_insert_ne.
Qed.

Lemma Set_lookup_congr (c : SetCall) (g : Gauge) (k : list string) (r r' : Registry) :
  gauge g r !! k = gauge g r' !! k ->
  gauge g (Set_ c r) !! k = gauge g (Set_ c r') !! k.
Proof.
  intros H. unfold Set_.
  destruct (metric c), g; cbn [gauge gpuUtilizationMetric gpuMemoryUsageMetric
                                 ioReadBytesMetric ioWriteBytesMetric];
    try exact H; rewrite !lookup_insert; case_decide; (reflexivity || exact H).
Qed.

Lemma publish_lookup_congr (calls : list SetCall) (g : Gauge) (k : list string)
      (r r' : Registry) :
  gauge g r !! k = gauge g r' !! k ->
  gauge g (publish calls r) !! k = gauge g (publish calls r') !! k.
Proof.
  revert r r'. induction calls as [|c calls IH]; intros r r' H; [exact H|].
  change (gauge g (publish calls (Set_ c r)) !! k
          = gauge g (publish calls (Set_ c r')) !! k).
  apply IH. now apply Set_lookup_congr.
Qed.

(** The entry with the job label [j] only depends on the calls that carry
    that label. *)
Lemma publish_lookup_job (calls : list SetCall) (g : Gauge) (k : list string)
      (r : Registry) :
  gauge g (publish calls r) !! k
  = gauge g (publish (callsOfJob (nth 1 k EmptyString) calls) r) !! k.
Proof.
  revert r. induction calls as [|c calls IH]; intros r; [reflexivity|].
  change (publish (c :: calls) r) with (publish calls (Set_ c r)).
  unfold callsOfJob. cbn [List.filter]. fold (callsOfJob (nth 1 k EmptyString) calls).
  destruct (String.eqb (job_id c) (nth 1 k EmptyString)) eqn:E.
  - change (publish (c :: callsOfJob (nth 1 k EmptyString) calls) r)
      with (publish (callsOfJob (nth 1 k EmptyString) calls) (Set_ c r)).
    apply IH.
  - rewrite IH. apply publish_lookup_congr. apply Set_lookup_other.
    intros Hk. apply String.eqb_neq in E. apply E. unfold job_id. now rewrite Hk.
Qed.

(** ** C5: a job directory without processes *)

Lemma callsOfJob_other (j jobEntry : string) (calls : list SetCall) :
  Forall (ioCall j) calls -> j <> jobEntry -> callsOfJob jobEntry calls = [].
Proof.
  intros H Hne. induction H as [|c calls [_ Hj] _ IH]; [reflexivity|].
  unfold callsOfJob. cbn [List.filter]. rewrite Hj.
  apply String.eqb_neq in Hne. rewrite Hne. exact IH.
Qed.

Lemma callsOfJob_own (jobEntry : string) (calls : list SetCall) :
  Forall (ioCall jobEntry) calls -> callsOfJob jobEntry calls = calls.
Proof.
  intros H. induction H as [|c calls [_ Hj] _ IH]; [reflexivity|].
  unfold callsOfJob. cbn [List.filter]. rewrite Hj, String.eqb_refl.
  f_equal. exact IH.
Qed.

Lemma callsOfJob_app (jobEntry : string) (a b : list SetCall) :
  callsOfJob jobEntry (a ++ b) = callsOfJob jobEntry a ++ callsOfJob jobEntry b.
Proof. unfold callsOfJob. apply List.filter_app. Qed.

Lemma callsOfJob_other_dirs (fsys : FileSystem) (jobEntry : string)
      (dirs : list (string * string)) :
  ~ In jobEntry (map snd dirs) ->
  callsOfJob jobEntry (flat_map (fun d => ioJob fsys (fst d) (snd d)) dirs) = [].
Proof.
  induction dirs as [|[u j] dirs IH]; intros Hnot; [reflexivity|].
  cbn [flat_map fst snd]. rewrite callsOfJob_app, IH.
  - rewrite (callsOfJob_other j); [reflexivity | apply ioJob_ioCall |].
    intros ->. apply Hnot. left. reflexivity.
  - intros Hin. apply Hnot. right. exact Hin.
Qed.

(** The calls of the pass for a job directory that is listed once. *)
Lemma callsOfJob_collectIOMetrics (fsys : FileSystem) (uidPath jobEntry : string)
      (before after : list (string * string)) :
  jobDirs fsys = before ++ (uidPath, jobEntry) :: after ->
  ~ In jobEntry (map snd (before ++ after)) ->
  callsOfJob jobEntry (collectIOMetrics fsys) = ioJob fsys uidPath jobEntry.
Proof.
  intros Hdirs Hnot. rewrite collectIOMetrics_jobDirs, Hdirs.
  rewrite map_app in Hnot.
  rewrite flat_map_app. cbn [flat_map fst snd].
  rewrite !callsOfJob_app, !callsOfJob_other_dirs.
  - cbn [app]. rewrite app_nil_r. apply callsOfJob_own, ioJob_ioCall.
  - intros H. apply Hnot. apply in_or_app. right. exact H.
  - intros H. apply Hnot. apply in_or_app. left. exact H.
Qed.

(** C5.  Take a job directory that the pass visits, listed once, whose
    [cgroup.procs] exists, is read, and holds no field.  Then the calls of
    the I/O pass that carry the label of that job are exactly two: one sets
    [io_read_bytes] and one sets [io_write_bytes], both with [pid = none] and
    the value 0; and after the pass both entries are in the registry with the
    value 0. *)
Theorem C5_job_without_processes (fsys : FileSystem) (uidPath jobEntry pids : string)
        (before after : list (string * string)) (r : Registry) :
  let cgroupProcsPath := filepath.Join (filepath.slash uidPath jobEntry) "cgroup.procs" in
  jobDirs fsys = before ++ (uidPath, jobEntry) :: after ->
  ~ In jobEntry (map snd (before ++ after)) ->
  strings.HasPrefix jobEntry "job_" = true ->
  IsNotExist fsys cgroupProcsPath = false ->
  ReadFile fsys cgroupProcsPath = Some pids ->
  strings.Fields pids = [] ->
  callsOfJob jobEntry (collectIOMetrics fsys)
  = [ mkCall io_read_bytes ["none"; jobEntry] (float64_of_Z 0);
      mkCall io_write_bytes ["none"; jobEntry] (float64_of_Z 0) ]
  /\ ioReadBytesMetric (publish (collectIOMetrics fsys) r) !! ["none"; jobEntry]
     = Some (float64_of_Z 0)
  /\ ioWriteBytesMetric (publish (collectIOMetrics fsys) r) !! ["none"; jobEntry]
     = Some (float64_of_Z 0).
Proof.
  intros path Hdirs Hnot Hjob Hstat Hread Hfields.
  assert (Hcalls : callsOfJob jobEntry (collectIOMetrics fsys)
            = [ mkCall io_read_bytes ["none"; jobEntry] (float64_of_Z 0);
                mkCall io_write_bytes ["none"; jobEntry] (float64_of_Z 0) ]).
  { rewrite (callsOfJob_collectIOMetrics fsys uidPath jobEntry before after Hdirs Hnot).
    unfold ioJob. rewrite Hjob. fold path. rewrite Hstat, Hread, Hfields. reflexivity. }
  split; [exact Hcalls|]. split.
  - change (gauge io_read_bytes (publish (collectIOMetrics fsys) r) !! ["none"; jobEntry]
            = Some (float64_of_Z 0)).
    rewrite publish_lookup_job. cbn [nth]. rewrite Hcalls.
    cbn. apply lookup_insert_eq.
  - change (gauge io_write_bytes (publish (collectIOMetrics fsys) r) !! ["none"; jobEntry]
            = Some (float64_of_Z 0)).
    rewrite publish_lookup_job. cbn [nth]. rewrite Hcalls.
    cbn. apply lookup_insert_eq.
Qed.

Lemma cgroups_jobDirs :
  jobDirs Example.cgroups
  = [ ("/sys/fs/cgroup/cpu/slurm/uid_1000", "job_42") ]
    ++ ("/sys/fs/cgroup/cpu/slurm/uid_1000", "job_43")
    :: [ ("/sys/fs/cgroup/cpu/slurm/uid_1000", "cgroup.procs") ].
Proof. vm_compute. reflexivity. Qed.

Lemma C5_witness :
  callsOfJob "job_43" (collectIOMetrics Example.cgroups)
  = [ mkCall io_read_bytes ["none"; "job_43"] (float64_of_Z 0);
      mkCall io_write_bytes ["none"; "job_43"] (float64_of_Z 0) ]
  /\ ioReadBytesMetric (publish (collectIOMetrics Example.cgroups) init) !! ["none"; "job_43"]
     = Some (float64_of_Z 0)
  /\ ioWriteBytesMetric (publish (collectIOMetrics Example.cgroups) init) !! ["none"; "job_43"]
     = Some (float64_of_Z 0).
Proof.
  apply (C5_job_without_processes Example.cgroups
           "/sys/fs/cgroup/cpu/slurm/uid_1000" "job_43" EmptyString
           [ ("/sys/fs/cgroup/cpu/slurm/uid_1000", "job_42") ]
           [ ("/sys/fs/cgroup/cpu/slurm/uid_1000", "cgroup.procs") ] init).
  - exact cgroups_jobDirs.
  - cbn [app map snd]. intros [H|[H|[]]]; discriminate.
  - reflexivity.
  - reflexivity.
  - reflexivity.
  - reflexivity.
Defined.

(** ** C6: the keys of a process I/O record *)

Lemma ioLine_fromIOLine (pid jobEntry line : string) :
  Forall (fromIOLine pid jobEntry line) (ioLine pid jobEntry line).
Proof.
  unfold ioLine.
  destruct (strings.Split line ":") as [|k [|v [|? ?]]] eqn:Hsplit;
    try apply List.Forall_nil.
  destruct (strconv.ParseFloat (strings.TrimSpace v)) as [val|] eqn:Hval;
    [|apply List.Forall_nil].
  destruct (String.eqb (strings.TrimSpace k) "read_bytes") eqn:Hread.
  - apply List.Forall_cons; [|apply List.Forall_nil].
    exists k, v. apply String.eqb_eq in Hread. cbn [value labels metric]. auto 10.
  - destruct (String.eqb (strings.TrimSpace k) "write_bytes") eqn:Hwrite;
      [|apply List.Forall_nil].
    apply List.Forall_cons; [|apply List.Forall_nil].
    exists k, v. apply String.eqb_eq in Hwrite. cbn [value labels metric]. auto 10.
Qed.

Lemma ioLine_other_key (pid jobEntry line k v : string) :
  strings.Split line ":" = [k; v] ->
  strings.TrimSpace k <> "read_bytes" ->
  strings.TrimSpace k <> "write_bytes" ->
  ioLine pid jobEntry line = [].
Proof.
  intros Hsplit Hread Hwrite. unfold ioLine. rewrite Hsplit.
  apply String.eqb_neq in Hread, Hwrite. rewrite Hread, Hwrite.
  now destruct (strconv.ParseFloat (strings.TrimSpace v)).
Qed.

Lemma ioRecord_calls (pid jobEntry : string) :
  flat_map (ioLine pid jobEntry) (strings.Split Example.ioRecord nl)
  = [ mkCall io_read_bytes [pid; jobEntry] (float64_of_Z 4096);
      mkCall io_write_bytes [pid; jobEntry] (float64_of_Z 0) ].
Proof. vm_compute. reflexivity. Qed.

(** C6.  For a process whose I/O record is read, the calls are those of the
    lines of the record, in order.  Each call comes from a line [key: value]
    whose key is [read_bytes], and then sets [io_read_bytes], or
    [write_bytes], and then sets [io_write_bytes], to the number of that
    line; a line with any other key gives no call.  For the record with the
    lines [rchar: 100], [read_bytes: 4096] and [write_bytes: 0] the calls are
    the two that set [io_read_bytes] to 4096 and [io_write_bytes] to 0. *)
Theorem C6_only_read_and_write_bytes (fsys : FileSystem) (jobEntry pid content : string) :
  ReadFile fsys ("/proc/" +:+ pid +:+ "/io") = Some content ->
  ioPID fsys jobEntry pid = flat_map (ioLine pid jobEntry) (strings.Split content nl)
  /\ Forall (fun c => exists line,
                 In line (strings.Split content nl) /\ fromIOLine pid jobEntry line c)
            (ioPID fsys jobEntry pid)
  /\ (forall line k v,
        strings.Split line ":" = [k; v] ->
        strings.TrimSpace k <> "read_bytes" ->
        strings.TrimSpace k <> "write_bytes" ->
        ioLine pid jobEntry line = [])
  /\ (content = Example.ioRecord ->
      ioPID fsys jobEntry pid
      = [ mkCall io_read_bytes [pid; jobEntry] (float64_of_Z 4096);
          mkCall io_write_bytes [pid; jobEntry] (float64_of_Z 0) ]).
Proof.
  intros Hread.
  assert (Hcalls : ioPID fsys jobEntry pid
            = flat_map (ioLine pid jobEntry) (strings.Split content nl)).
  { unfold ioPID. now rewrite Hread. }
  split; [exact Hcalls|]. split; [|split].
  - rewrite Hcalls. apply List.Forall_forall. intros c Hc.
    apply in_flat_map in Hc. destruct Hc as (line & Hline & Hc).
    exists line. split; [exact Hline|].
    pose proof (ioLine_fromIOLine pid jobEntry line) as Hall.
    rewrite List.Forall_forall in Hall. now apply Hall.
  - intros line k v. apply ioLine_other_key.
  - intros ->. rewrite Hcalls. apply ioRecord_calls.
Qed.

Lemma C6_witness :
  ioPID Example.cgroups "job_42" "1234"
  = [ mkCall io_read_bytes ["1234"; "job_42"] (float64_of_Z 4096);
      mkCall io_write_bytes ["1234"; "job_42"] (float64_of_Z 0) ]
  /\ ioLine "1234" "job_42" "rchar: 100" = [].
Proof.
  destruct (C6_only_read_and_write_bytes Example.cgroups "job_42" "1234" Example.ioRecord)
    as (_ & _ & Hother & Hrecord).
  - reflexivity.
  - split.
    + apply Hrecord. reflexivity.
    + apply (Hother "rchar: 100" "rchar" " 100").
      * reflexivity.
      * discriminate.
      * discriminate.
Defined.

(** ** C7: a malformed row *)

Lemma collectGPUMetrics_rowCalls (fsys : FileSystem) (gpuInfoOutput computeAppsOutput : string) :
  collectGPUMetrics {| fs := fsys;
                       gpuInfoCmd := Some gpuInfoOutput;
                       computeAppsCmd := Some computeAppsOutput |}
  = rowCalls fsys (outputLines gpuInfoOutput) (outputLines computeAppsOutput).
Proof. reflexivity. Qed.

Lemma rowCalls_app (fsys : FileSystem) (gpuInfoLines a b : list string) :
  rowCalls fsys gpuInfoLines (a ++ b)
  = rowCalls fsys gpuInfoLines a ++ rowCalls fsys gpuInfoLines b.
Proof. unfold rowCalls. apply flat_map_app. Qed.











(** ** C10: the memory field *)

(** [trim_left_bytes] drops a prefix of cutset bytes, and all of them. *)
Lemma trim_left_bytes_split (cutset : string) (l : list ascii) :
  exists pre,
    l = pre ++ strings.trim_left_bytes cutset l
    /\ Forall (fun c => strings.in_cutset cutset c = true) pre
    /\ forall c t, strings.trim_left_bytes cutset l = c :: t ->
                   strings.in_cutset cutset c = false.
Proof.
  induction l as [|a l (pre & Hl & Hpre & Hhead)].
  - exists []. repeat split; [apply List.Forall_nil | discriminate].
  - cbn [strings.trim_left_bytes].
    destruct (strings.in_cutset cutset a) eqn:Ha.
    + exists (a :: pre). repeat split.
      * cbn [app]. now rewrite <- Hl.
      * now apply List.Forall_cons.
      * exact Hhead.
    + exists []. repeat split; [apply List.Forall_nil|].
      intros c t Heq. inversion Heq; subst. exact Ha.
Qed.

(** [Trim] strips bytes of the cutset from both ends, and nothing else: what
    is left neither starts nor ends with a byte of the cutset. *)
Lemma Trim_split (s cutset : string) :
  exists pre post,
    list_ascii_of_string s = pre ++ list_ascii_of_string (strings.Trim s cutset) ++ post
    /\ Forall (fun c => strings.in_cutset cutset c = true) pre
    /\ Forall (fun c => strings.in_cutset cutset c = true) post
    /\ (forall c t, list_ascii_of_string (strings.Trim s cutset) = c :: t ->
                    strings.in_cutset cutset c = false)
    /\ (forall c t, list_ascii_of_string (strings.Trim s cutset) = t ++ [c] ->
                    strings.in_cutset cutset c = false).
Proof.
  unfold strings.Trim. rewrite list_ascii_of_string_of_list_ascii.
  set (l := list_ascii_of_string s).
  destruct (trim_left_bytes_split cutset (rev l)) as (p1 & H1 & Hp1 & Hh1).
  set (t1 := strings.trim_left_bytes cutset (rev l)) in *.
  destruct (trim_left_bytes_split cutset (rev t1)) as (p2 & H2 & Hp2 & Hh2).
  set (t2 := strings.trim_left_bytes cutset (rev t1)) in *.
  exists p2, (rev p1). repeat split.
  - rewrite app_assoc, <- H2, <- rev_app_distr, <- H1. symmetry. apply rev_involutive.
  - exact Hp2.
  - apply List.Forall_rev. exact Hp1.
  - exact Hh2.
  - intros c t Ht2. apply (Hh1 c (rev t ++ rev p2)).
    rewrite <- (rev_involutive t1), H2, Ht2.
    rewrite !rev_app_distr. reflexivity.
Qed.

(** ** What [ParseFloat] accepts is made of number bytes *)

Ltac byte_cases c :=
  destruct c as [[|] [|] [|] [|] [|] [|] [|] [|]];
  vm_compute; intros; first [reflexivity | assumption | discriminate].

Lemma numberByte_digit (c : ascii) :
  isSome (strconv.digit_val c) = true -> numberByte c = true.
Proof. byte_cases c. Qed.

Lemma numberByte_hex (c : ascii) :
  isSome (strconv.hex_letter_val c) = true -> numberByte c = true.
Proof. byte_cases c. Qed.

Lemma numberByte_mark (c : ascii) :
  (Ascii.eqb c "_" || Ascii.eqb c "." || Ascii.eqb c "+" || Ascii.eqb c "-")%bool = true ->
  numberByte c = true.
Proof. byte_cases c. Qed.

Lemma numberByte_lower (c : ascii) :
  (Ascii.eqb (strconv.lower c) "e" || Ascii.eqb (strconv.lower c) "p"
   || Ascii.eqb (strconv.lower c) "x")%bool = true ->
  numberByte c = true.
Proof. byte_cases c. Qed.

Lemma numberByte_special (c : ascii) :
  existsb (Ascii.eqb (strconv.fold_AZ c)) (list_ascii_of_string "infinitynan") = true ->
  numberByte c = true.
Proof. byte_cases c. Qed.

Lemma commonPrefixLen_le (s prefix : list ascii) :
  (strconv.commonPrefixLenIgnoreCase s prefix <= length s)%nat.
Proof.
  revert prefix. induction s as [|c s IH]; intros [|p prefix]; cbn; try lia.
  destruct (Ascii.eqb (strconv.fold_AZ c) p); [|lia].
  specialize (IH prefix). lia.
Qed.

Lemma commonPrefixLen_full (s prefix : list ascii) :
  strconv.commonPrefixLenIgnoreCase s prefix = length s ->
  Forall (fun c => existsb (Ascii.eqb (strconv.fold_AZ c)) prefix = true) s.
Proof.
  revert prefix. induction s as [|c s IH]; intros prefix H; [apply List.Forall_nil|].
  destruct prefix as [|p prefix]; [discriminate|].
  cbn in H. destruct (Ascii.eqb (strconv.fold_AZ c) p) eqn:Hc; [|discriminate].
  apply List.Forall_cons.
  - cbn. now rewrite Hc.
  - injection H as H. eapply Forall_impl; [apply (IH prefix H)|].
    intros a Ha. cbn. rewrite Ha. apply orb_true_r.
Qed.

Lemma existsb_weaken (c : ascii) (a b : list ascii) :
  existsb (Ascii.eqb c) a = true -> existsb (Ascii.eqb c) (a ++ b) = true.
Proof. intros H. rewrite existsb_app, H. reflexivity. Qed.

Lemma existsb_weaken_r (c : ascii) (a b : list ascii) :
  existsb (Ascii.eqb c) b = true -> existsb (Ascii.eqb c) (a ++ b) = true.
Proof. intros H. rewrite existsb_app, H. apply orb_true_r. Qed.

Lemma special_inf_numberBytes (sign : bool) (nsign : nat) (s : list ascii) (v : float64) :
  strconv.special_inf sign nsign s = Some (v, (nsign + length s)%nat) -> numberBytes s.
Proof.
  unfold strconv.special_inf.
  set (n := strconv.commonPrefixLenIgnoreCase s (list_ascii_of_string "infinity")).
  pose proof (commonPrefixLen_le s (list_ascii_of_string "infinity")) as Hle. fold n in Hle.
  destruct (Nat.ltb 3 n && Nat.ltb n 8)%bool eqn:Hmid.
  - cbn. intros H. injection H as _ H.
    apply andb_true_iff in Hmid. destruct Hmid as [H3 _].
    apply Nat.ltb_lt in H3. lia.
  - destruct (Nat.eqb n 3 || Nat.eqb n 8)%bool; [|discriminate].
    intros H. injection H as _ H.
    assert (Hn : n = length s) by lia.
    eapply Forall_impl; [apply (commonPrefixLen_full _ _ Hn)|].
    intros c Hc. apply numberByte_special.
    change (list_ascii_of_string "infinitynan")
      with (list_ascii_of_string "infinity" ++ list_ascii_of_string "nan").
    now apply existsb_weaken.
Qed.

Lemma special_numberBytes (s : list ascii) (v : float64) :
  strconv.special s = Some (v, length s) -> numberBytes s.
Proof.
  destruct s as [|c s]; [discriminate|].
  cbn [strconv.special length].
  destruct (Ascii.eqb c "+") eqn:Hplus.
  { intros H. apply List.Forall_cons.
    - apply numberByte_mark. rewrite Hplus. now rewrite !orb_true_r.
    - now apply (special_inf_numberBytes false 1 s v). }
  destruct (Ascii.eqb c "-") eqn:Hminus.
  { intros H. apply List.Forall_cons.
    - apply numberByte_mark. rewrite Hminus. now rewrite !orb_true_r.
    - now apply (special_inf_numberBytes true 1 s v). }
  destruct (Ascii.eqb c "i" || Ascii.eqb c "I")%bool.
  { intros H. now apply (special_inf_numberBytes false 0 (c :: s) v). }
  destruct (Ascii.eqb c "n" || Ascii.eqb c "N")%bool; [|discriminate].
  destruct (Nat.eqb _ 3) eqn:Hn; [|discriminate].
  intros H. injection H as _ H. apply Nat.eqb_eq in Hn. rewrite H in Hn.
  eapply Forall_impl; [apply (commonPrefixLen_full _ _ Hn)|].
  intros a Ha. apply numberByte_special.
  change (list_ascii_of_string "infinitynan")
    with (list_ascii_of_string "infinity" ++ list_ascii_of_string "nan").
  now apply existsb_weaken_r.
Qed.

(** Each reader of [ParseFloat] consumes number bytes only. *)
Lemma consumes_refl (s : list ascii) : consumes s s.
Proof. exists []. split; [reflexivity | apply List.Forall_nil]. Qed.

Lemma consumes_cons (c : ascii) (s r : list ascii) :
  numberByte c = true -> consumes s r -> consumes (c :: s) r.
Proof.
  intros Hc (consumed & Hs & Hall). exists (c :: consumed). split.
  - cbn. now rewrite Hs.
  - now apply List.Forall_cons.
Qed.

Lemma consumes_trans (s r t : list ascii) : consumes s r -> consumes r t -> consumes s t.
Proof.
  intros (a & Hs & Ha) (b & Hr & Hb). exists (a ++ b). split.
  - now rewrite Hs, Hr, app_assoc.
  - apply Forall_app. split; assumption.
Qed.

Lemma read_digits_consumes (hex : bool) (s : list ascii) (m f : Z)
      (sawdot sawdig unders : bool) :
  consumes s (strconv.rest (strconv.read_digits hex s m f sawdot sawdig unders)).
Proof.
  revert m f sawdot sawdig unders.
  induction s as [|c s IH]; intros m f sawdot sawdig unders; [apply consumes_refl|].
  cbn [strconv.read_digits].
  destruct (Ascii.eqb c "_") eqn:Hu.
  { apply consumes_cons; [|apply IH]. apply numberByte_mark. now rewrite Hu. }
  destruct (Ascii.eqb c ".") eqn:Hdot.
  { destruct sawdot; [apply consumes_refl|].
    apply consumes_cons; [|apply IH]. apply numberByte_mark. rewrite Hdot.
    now rewrite !orb_true_r. }
  destruct (strconv.digit_val c) as [d|] eqn:Hd.
  { apply consumes_cons; [|apply IH]. apply numberByte_digit. now rewrite Hd. }
  destruct hex; [|apply consumes_refl].
  destruct (strconv.hex_letter_val c) as [d|] eqn:Hh; [|apply consumes_refl].
  apply consumes_cons; [|apply IH]. apply numberByte_hex. now rewrite Hh.
Qed.

Lemma read_exp_consumes (s : list ascii) (e : Z) (unders : bool) :
  consumes s (snd (strconv.read_exp s e unders)).
Proof.
  revert e unders. induction s as [|c s IH]; intros e unders; [apply consumes_refl|].
  cbn [strconv.read_exp].
  destruct (Ascii.eqb c "_") eqn:Hu.
  { apply consumes_cons; [|apply IH]. apply numberByte_mark. now rewrite Hu. }
  destruct (strconv.digit_val c) as [d|] eqn:Hd; [|apply consumes_refl].
  apply consumes_cons; [|apply IH]. apply numberByte_digit. now rewrite Hd.
Qed.

Lemma read_sign_consumes (s : list ascii) : consumes s (snd (strconv.read_sign s)).
Proof.
  destruct s as [|c s]; [apply consumes_refl|]. cbn [strconv.read_sign].
  destruct (Ascii.eqb c "+") eqn:Hplus.
  { apply consumes_cons; [|apply consumes_refl]. apply numberByte_mark.
    rewrite Hplus. now rewrite !orb_true_r. }
  destruct (Ascii.eqb c "-") eqn:Hminus; [|apply consumes_refl].
  apply consumes_cons; [|apply consumes_refl]. apply numberByte_mark.
  rewrite Hminus. now rewrite !orb_true_r.
Qed.

Lemma read_base_consumes (s : list ascii) : consumes s (snd (strconv.read_base s)).
Proof.
  destruct s as [|c0 [|c1 [|c2 s]]]; try apply consumes_refl.
  cbn [strconv.read_base].
  destruct (Ascii.eqb c0 "0") eqn:H0; [|apply consumes_refl].
  destruct (Ascii.eqb (strconv.lower c1) "x") eqn:Hx; [|apply consumes_refl].
  cbn [andb snd].
  apply consumes_cons.
  { apply Ascii.eqb_eq in H0. subst c0. reflexivity. }
  apply consumes_cons; [|apply consumes_refl].
  apply numberByte_lower. rewrite Hx. now rewrite !orb_true_r.
Qed.

Lemma read_exponent_consumes (hex : bool) (s : list ascii) (unders : bool)
      (e : Z) (unders' : bool) (r : list ascii) :
  strconv.read_exponent hex s unders = Some (e, unders', r) -> consumes s r.
Proof.
  destruct s as [|c s]; cbn [strconv.read_exponent].
  { destruct hex; [discriminate|]. intros H. inversion H. apply consumes_refl. }
  destruct (Ascii.eqb (strconv.lower c) (if hex then "p"%char else "e"%char)) eqn:Hmark.
  - assert (Hc : numberByte c = true).
    { apply numberByte_lower. destruct hex; rewrite Hmark; now rewrite ?orb_true_r. }
    destruct s as [|c' s']; [discriminate|].
    assert (Hexp : forall s2 esign,
               consumes (c' :: s') s2 ->
               match s2 with
               | [] => None
               | c'' :: _ =>
                   if isSome (strconv.digit_val c'')
                   then let '(e0, u0, r0) := strconv.read_exp s2 0 unders in
                        Some (e0 * esign, u0, r0)
                   else None
               end = Some (e, unders', r) ->
               consumes (c :: c' :: s') r).
    { intros s2 esign Hs2 H. apply consumes_cons; [exact Hc|].
      apply (consumes_trans _ s2); [exact Hs2|].
      destruct s2 as [|c'' s2']; [discriminate|].
      destruct (isSome (strconv.digit_val c'')); [|discriminate].
      pose proof (read_exp_consumes (c'' :: s2') 0 unders) as Hcons.
      destruct (strconv.read_exp (c'' :: s2') 0 unders) as [[e0 u0] r0].
      inversion H; subst. exact Hcons. }
    destruct (Ascii.eqb c' "+") eqn:Hplus.
    { apply (Hexp s' 1). apply consumes_cons; [|apply consumes_refl].
      apply numberByte_mark. rewrite Hplus. now rewrite !orb_true_r. }
    destruct (Ascii.eqb c' "-") eqn:Hminus.
    { apply (Hexp s' (-1)). apply consumes_cons; [|apply consumes_refl].
      apply numberByte_mark. rewrite Hminus. now rewrite !orb_true_r. }
    apply (Hexp (c' :: s') 1). apply consumes_refl.
  - destruct hex; [discriminate|]. intros H. inversion H. apply consumes_refl.
Qed.

Lemma readFloat_consumes (s : list ascii) (l : strconv.literal) :
  strconv.readFloat s = Some l -> consumes s (strconv.lit_rest l).
Proof.
  unfold strconv.readFloat. destruct s as [|c s]; [discriminate|].
  pose proof (read_sign_consumes (c :: s)) as Hsign.
  destruct (strconv.read_sign (c :: s)) as [sign s1]. cbn [snd] in Hsign.
  pose proof (read_base_consumes s1) as Hbase.
  destruct (strconv.read_base s1) as [hex s2]. cbn [snd] in Hbase.
  pose proof (read_digits_consumes hex s2 0 0 false false false) as Hdigits.
  set (d := strconv.read_digits hex s2 0 0 false false false) in *.
  destruct (negb (strconv.sawdigits d)); [discriminate|].
  destruct (strconv.read_exponent hex (strconv.rest d) (strconv.underscores d))
    as [[[e unders] r]|] eqn:Hexp; [|discriminate].
  intros H. inversion H; subst. cbn [strconv.lit_rest].
  apply read_exponent_consumes in Hexp.
  eapply consumes_trans; [exact Hsign|].
  eapply consumes_trans; [exact Hbase|].
  eapply consumes_trans; [exact Hdigits | exact Hexp].
Qed.

(** A string with a byte that is not a number byte is not a number. *)
Lemma ParseFloat_numberBytes (str : string) (v : float64) :
  strconv.ParseFloat str = Some v -> numberBytes (list_ascii_of_string str).
Proof.
  unfold strconv.ParseFloat. set (s := list_ascii_of_string str).
  destruct (strconv.special s) as [[v' n]|] eqn:Hspecial.
  - destruct (Nat.eqb n (length s)) eqn:Hn; [|discriminate].
    intros _. apply Nat.eqb_eq in Hn. subst n. now apply (special_numberBytes s v').
  - destruct (strconv.readFloat s) as [l|] eqn:Hread; [|discriminate].
    destruct (strconv.lit_underscores l && negb (strconv.underscoreOK s))%bool;
      [discriminate|].
    apply readFloat_consumes in Hread.
    destruct (strconv.lit_rest l); [|discriminate].
    intros _. destruct Hread as (consumed & Hs & Hall).
    rewrite app_nil_r in Hs. now rewrite Hs.
Qed.

Lemma ParseFloat_rejects (str : string) (c : ascii) :
  In c (list_ascii_of_string str) -> numberByte c = false ->
  strconv.ParseFloat str = None.
Proof.
  intros Hin Hc. destruct (strconv.ParseFloat str) as [v|] eqn:H; [|reflexivity].
  apply ParseFloat_numberBytes in H. unfold numberBytes in H.
  rewrite List.Forall_forall in H. rewrite (H c Hin) in Hc. discriminate.
Qed.

(** A byte of the field that is not of the cutset is still there after
    [Trim]. *)
Lemma Trim_keeps (s cutset : string) (c : ascii) :
  In c (list_ascii_of_string s) -> strings.in_cutset cutset c = false ->
  In c (list_ascii_of_string (strings.Trim s cutset)).
Proof.
  intros Hin Hc.
  destruct (Trim_split s cutset) as (pre & post & Hs & Hpre & Hpost & _).
  rewrite Hs in Hin. rewrite List.Forall_forall in Hpre, Hpost.
  apply in_app_or in Hin. destruct Hin as [Hin|Hin].
  { rewrite (Hpre c Hin) in Hc. discriminate. }
  apply in_app_or in Hin. destruct Hin as [Hin|Hin]; [exact Hin|].
  rewrite (Hpost c Hin) in Hc. discriminate.
Qed.

(** C10, as the code has it.  For a compute-apps row with the three fields
    [pid, used, uuid], in this version and in the earlier one, the memory
    field is trimmed of the bytes of [" MiB"] (space, M, i, B) at both ends
    and of nothing else.  When what is left is a number for [ParseFloat],
    the device is listed and the process has a job, the row gives exactly
    one call, whose value is that number times 1024 times 1024, whatever
    unit the field named; otherwise it gives no call.  [ParseFloat] rejects
    what is left whenever the field holds a byte that is neither of the
    cutset nor a byte of a number, such as the K of KiB, the G of GiB or a
    bracket. *)
Theorem C10_memory_field (fsys : FileSystem) (m : gmap string string)
        (line pid used uuid : string) :
  strings.Split line ", " = [pid; used; uuid] ->
  let trimmed := strings.Trim used " MiB" in
  let bytes (usedMemory : float64) :=
    float64_mul (float64_mul usedMemory (float64_of_Z 1024)) (float64_of_Z 1024) in
  (exists pre post,
      list_ascii_of_string used = pre ++ list_ascii_of_string trimmed ++ post
      /\ Forall inMiBCutset pre /\ Forall inMiBCutset post
      /\ (forall c t, list_ascii_of_string trimmed = c :: t -> ~ inMiBCutset c)
      /\ (forall c t, list_ascii_of_string trimmed = t ++ [c] -> ~ inMiBCutset c))
  /\ computeAppsLine fsys m line
     = match strconv.ParseFloat trimmed, m !! uuid, getJobIDFromPID fsys pid with
       | Some usedMemory, Some index, Some jobID =>
           [ mkCall gpu_memory_usage_bytes [index; jobID] (bytes usedMemory) ]
       | _, _, _ => []
       end
  /\ Earlier.computeAppsLine fsys m line
     = match strconv.ParseFloat trimmed, m !! uuid, Earlier.getJobIDFromPID fsys pid with
       | Some usedMemory, Some index, Some jobID =>
           [ mkCall gpu_memory_usage_bytes [index; jobID] (bytes usedMemory) ]
       | _, _, _ => []
       end
  /\ (strconv.ParseFloat trimmed = None ->
      computeAppsLine fsys m line = [] /\ Earlier.computeAppsLine fsys m line = [])
  /\ (forall c, In c (list_ascii_of_string used) ->
                ~ inMiBCutset c -> numberByte c = false ->
                strconv.ParseFloat trimmed = None).
Proof.
  intros Hsplit trimmed bytes.
  split; [|split; [|split; [|split]]].
  - destruct (Trim_split used " MiB") as (pre & post & H & Hpre & Hpost & Hhead & Hlast).
    exists pre, post. unfold inMiBCutset. repeat split; try assumption.
    + intros c t Ht Hc. rewrite (Hhead c t Ht) in Hc. discriminate.
    + intros c t Ht Hc. rewrite (Hlast c t Ht) in Hc. discriminate.
  - unfold computeAppsLine. rewrite Hsplit. fold trimmed.
    destruct (strconv.ParseFloat trimmed) as [usedMemory|]; [|reflexivity].
    destruct (m !! uuid); [|reflexivity].
    destruct (getJobIDFromPID fsys pid); reflexivity.
  - unfold Earlier.computeAppsLine. rewrite Hsplit. fold trimmed.
    destruct (strconv.ParseFloat trimmed) as [usedMemory|]; [|reflexivity].
    destruct (m !! uuid); [|reflexivity].
    destruct (Earlier.getJobIDFromPID fsys pid); reflexivity.
  - intros Hnone. unfold computeAppsLine, Earlier.computeAppsLine.
    rewrite Hsplit. fold trimmed. rewrite Hnone. split; reflexivity.
  - intros c Hin Hcut Hnum.
    apply (ParseFloat_rejects trimmed c); [|exact Hnum].
    apply Trim_keeps; [exact Hin|].
    unfold inMiBCutset in Hcut. now destruct (strings.in_cutset " MiB" c).
Qed.

(** Rows with the suffixes KiB and GiB and with a placeholder give no call;
    a row in bytes is published as if it were in MiB, in both versions. *)
Lemma C10_witness :
  let m := gpuUUIDToIndex [Example.gpuRow] in
  (strings.Trim "512 KiB" " MiB" = "512 K"
   /\ computeAppsLine Example.cgroups m "1234, 512 KiB, gpu-uuid-1" = [])
  /\ (strings.Trim "2 GiB" " MiB" = "2 G"
      /\ computeAppsLine Example.cgroups m "1234, 2 GiB, gpu-uuid-1" = [])
  /\ (strings.Trim "[N/A]" " MiB" = "[N/A]"
      /\ computeAppsLine Example.cgroups m "1234, [N/A], gpu-uuid-1" = [])
  /\ (strings.Trim "512 B" " MiB" = "512"
      /\ computeAppsLine Example.cgroups m "1234, 512 B, gpu-uuid-1"
         = [ mkCall gpu_memory_usage_bytes ["0"; "42"] (float64_of_Z 536870912) ]
      /\ Earlier.computeAppsLine Example.procfs m "1234, 512 B, gpu-uuid-1"
         = [ mkCall gpu_memory_usage_bytes ["0"; "42"] (float64_of_Z 536870912) ]).
Proof.
  intros m. split; [|split; [|split]].
  - split; [reflexivity|].
    destruct (C10_memory_field Example.cgroups m "1234, 512 KiB, gpu-uuid-1"
                "1234" "512 KiB" "gpu-uuid-1") as (_ & _ & _ & Hnone & Hbyte); [reflexivity|].
    apply Hnone. apply (Hbyte "K"%char).
    + cbn. tauto.
    + unfold inMiBCutset. discriminate.
    + reflexivity.
  - split; [reflexivity|].
    destruct (C10_memory_field Example.cgroups m "1234, 2 GiB, gpu-uuid-1"
                "1234" "2 GiB" "gpu-uuid-1") as (_ & _ & _ & Hnone & Hbyte); [reflexivity|].
    apply Hnone. apply (Hbyte "G"%char).
    + cbn. tauto.
    + unfold inMiBCutset. discriminate.
    + reflexivity.
  - split; [reflexivity|].
    destruct (C10_memory_field Example.cgroups m "1234, [N/A], gpu-uuid-1"
                "1234" "[N/A]" "gpu-uuid-1") as (_ & _ & _ & Hnone & _); [reflexivity|].
    apply Hnone. vm_compute. reflexivity.
  - split; [reflexivity|].
    destruct (C10_memory_field Example.cgroups m "1234, 512 B, gpu-uuid-1"
                "1234" "512 B" "gpu-uuid-1") as (_ & Hcall & _); [reflexivity|].
    destruct (C10_memory_field Example.procfs m "1234, 512 B, gpu-uuid-1"
                "1234" "512 B" "gpu-uuid-1") as (_ & _ & Hearlier & _); [reflexivity|].
    split.
    + rewrite Hcall. vm_compute. reflexivity.
    + rewrite Hearlier. vm_compute. reflexivity.
Defined.

(** C10, as stated, fails: what is left of a memory field need not be a
    decimal number for the row to be published.  The field [0x1p4 MiB] is
    trimmed to [0x1p4], which is no decimal number and which [ParseFloat]
    reads as 16; the row is published as 16 times 1024 times 1024 bytes. *)
Lemma C10_hexadecimal_field_is_published :
  let h := {| fs := Example.cgroups;
              gpuInfoCmd := Some (Example.gpuRow +:+ nl);
              computeAppsCmd := Some (Example.hexRow +:+ nl) |} in
  strings.Split Example.hexRow ", " = ["1234"; "0x1p4 MiB"; "gpu-uuid-1"]
  /\ strings.Trim "0x1p4 MiB" " MiB" = "0x1p4"
  /\ decimalNumber "0x1p4" = false
  /\ decimalNumber "512" = true
  /\ strconv.ParseFloat "0x1p4" = Some (float64_of_Z 16)
  /\ collectGPUMetrics h
     = [ mkCall gpu_memory_usage_bytes ["0"; "42"] (float64_of_Z 16777216) ]
  /\ gpuMemoryUsageMetric (cycle h init) !! ["0"; "42"] = Some (float64_of_Z 16777216).
Proof.
  intros h.
  repeat (split; [vm_compute; reflexivity|]).
  vm_compute. reflexivity.
Qed.

(** ** [getJobIDFromPID]: which directory answers *)

Lemma searchJobs_dirs (fsys : FileSystem) (pid uidPath : string) (jobEntries : list string) :
  searchJobs fsys pid uidPath jobEntries
  = searchDirs fsys pid (map (fun jobEntry => (uidPath, jobEntry)) jobEntries).
Proof.
  induction jobEntries as [|jobEntry more IH]; [reflexivity|].
  cbn [searchJobs map searchDirs].
  unfold listsPID, scanFails, scanned, procsPath. cbn [fst snd].
  destruct (strings.HasPrefix jobEntry "job_"); [|exact IH].
  destruct (ReadFile fsys _) as [content|]; [|exact IH].
  destruct (bufio.ScanLines content) as [lines err].
  destruct (existsb _ lines); [reflexivity|].
  destruct err; [reflexivity | exact IH].
Qed.

Lemma searchDirs_app (fsys : FileSystem) (pid : string) (a b : list (string * string)) :
  searchDirs fsys pid (a ++ b)
  = match searchDirs fsys pid a with
    | Continue => searchDirs fsys pid b
    | found => found
    end.
Proof.
  induction a as [|d a IH]; [reflexivity|].
  cbn [app searchDirs].
  destruct (listsPID fsys pid d); [reflexivity|].
  destruct (scanFails fsys d); [reflexivity | exact IH].
Qed.

Lemma searchUIDs_dirs (fsys : FileSystem) (pid : string) (entries : list string) :
  searchUIDs fsys pid entries = searchDirs fsys pid (flat_map (uidJobs fsys) entries).
Proof.
  induction entries as [|entry more IH]; [reflexivity|].
  cbn [searchUIDs flat_map]. rewrite searchDirs_app. unfold uidJobs at 1.
  destruct (strings.HasPrefix entry "uid_"); [|exact IH].
  destruct (Readdirnames fsys (filepath.slash basePath entry)) as [jobEntries|]; [|exact IH].
  rewrite <- searchJobs_dirs.
  destruct (searchJobs fsys pid (filepath.slash basePath entry) jobEntries);
    [reflexivity | reflexivity | exact IH].
Qed.

Lemma getJobIDFromPID_dirs (fsys : FileSystem) (pid : string) :
  getJobIDFromPID fsys pid
  = match searchDirs fsys pid (jobDirs fsys) with
    | Return jobID => Some jobID
    | Fail | Continue => None
    end.
Proof.
  unfold getJobIDFromPID, jobDirs.
  destruct (Readdirnames fsys basePath) as [entries|]; [|reflexivity].
  now rewrite searchUIDs_dirs.
Qed.

Lemma searchDirs_passed (fsys : FileSystem) (pid : string) (dirs : list (string * string)) :
  Forall (passedBy fsys pid) dirs -> searchDirs fsys pid dirs = Continue.
Proof.
  induction 1 as [|d dirs [Hl Hf] _ IH]; [reflexivity|].
  cbn [searchDirs]. now rewrite Hl, Hf.
Qed.

Lemma searchDirs_Return (fsys : FileSystem) (pid : string) (dirs : list (string * string))
      (jobID : string) :
  searchDirs fsys pid dirs = Return jobID ->
  exists before d after,
    dirs = before ++ d :: after
    /\ Forall (passedBy fsys pid) before
    /\ listsPID fsys pid d = true
    /\ jobID = strings.TrimPrefix (snd d) "job_".
Proof.
  induction dirs as [|d dirs IH]; [discriminate|].
  cbn [searchDirs].
  destruct (listsPID fsys pid d) eqn:Hl.
  - intros H. inversion H. exists [], d, dirs.
    split; [reflexivity|]. split; [apply List.Forall_nil|]. split; [exact Hl | reflexivity].
  - destruct (scanFails fsys d) eqn:Hf; [discriminate|].
    intros H. destruct (IH H) as (before & d' & after & Hdirs & Hpassed & Hl' & Hj).
    exists (d :: before), d', after.
    split; [now rewrite Hdirs|]. split; [|split; assumption].
    apply List.Forall_cons; [split; assumption | exact Hpassed].
Qed.

(** X1.  [getJobIDFromPID] answers with a job exactly when some visited job
    directory lists the PID in its [cgroup.procs] and every directory
    visited before it neither lists the PID nor ends its scan with an error;
    the answer is the name of the first such directory without the prefix
    [job_]. *)
Theorem getJobIDFromPID_first_listing (fsys : FileSystem) (pid jobID : string) :
  getJobIDFromPID fsys pid = Some jobID
  <-> exists before d after,
        jobDirs fsys = before ++ d :: after
        /\ Forall (passedBy fsys pid) before
        /\ listsPID fsys pid d = true
        /\ jobID = strings.TrimPrefix (snd d) "job_".
Proof.
  rewrite getJobIDFromPID_dirs. split.
  - destruct (searchDirs fsys pid (jobDirs fsys)) eqn:H; try discriminate.
    intros Heq. inversion Heq; subst. now apply searchDirs_Return.
  - intros (before & d & after & Hdirs & Hpassed & Hl & Hj).
    rewrite Hdirs, searchDirs_app, (searchDirs_passed _ _ _ Hpassed).
    cbn [searchDirs]. rewrite Hl. now rewrite Hj.
Qed.

(** X2.  When the scan of a visited [cgroup.procs] ends with an error before
    any directory has listed the PID, [getJobIDFromPID] returns an error,
    whatever the directories after it list. *)
Theorem getJobIDFromPID_scan_error (fsys : FileSystem) (pid : string)
        (before after : list (string * string)) (d : string * string) :
  jobDirs fsys = before ++ d :: after ->
  Forall (passedBy fsys pid) before ->
  listsPID fsys pid d = false ->
  scanFails fsys d = true ->
  getJobIDFromPID fsys pid = None.
Proof.
  intros Hdirs Hpassed Hl Hf.
  rewrite getJobIDFromPID_dirs, Hdirs, searchDirs_app, (searchDirs_passed _ _ _ Hpassed).
  cbn [searchDirs]. now rewrite Hl, Hf.
Qed.

Lemma longLine_dirs :
  jobDirs Example.longLine
  = [] ++ (Example.uid1000, "job_41") :: [ (Example.uid1000, "job_42") ].
Proof. vm_compute. reflexivity. Qed.

Lemma getJobIDFromPID_scan_error_witness :
  listsPID Example.longLine "1234" (Example.uid1000, "job_42") = true
  /\ getJobIDFromPID Example.longLine "1234" = None.
Proof.
  split; [vm_compute; reflexivity|].
  apply (getJobIDFromPID_scan_error Example.longLine "1234" []
           [ (Example.uid1000, "job_42") ] (Example.uid1000, "job_41")).
  - exact longLine_dirs.
  - apply List.Forall_nil.
  - vm_compute. reflexivity.
  - vm_compute. reflexivity.
Defined.

(** ** [collectGPUMetrics]: the row that gives a UUID its index *)

(** X3.  The index of a UUID is that of the last row of the per-device output
    with four fields that names it: rows before it with the same UUID are
    overwritten. *)
Theorem gpuUUIDToIndex_last_row (before after : list string) (line uuid index : string) :
  deviceRow line = Some (uuid, index) ->
  ~ In uuid (map fst (deviceRows after)) ->
  gpuUUIDToIndex (before ++ line :: after) !! uuid = Some index.
Proof.
  intros Hrow Hnot. unfold gpuUUIDToIndex.
  rewrite fold_left_app. cbn [fold_left].
  rewrite (fold_gpuInfoLine after), fold_insertRow_absent by exact Hnot.
  rewrite gpuInfoLine_deviceRow, Hrow. apply lookup_insert_eq.
Qed.

Lemma gpuUUIDToIndex_last_row_witness :
  gpuUUIDToIndex (outputLines Example.repeatedDevice) !! "gpu-uuid-1" = Some "3".
Proof.
  assert (H : outputLines Example.repeatedDevice
              = [Example.gpuRow]
                ++ ("gpu-uuid-1, 3, " +:+ Example.quoted "GPUX" +:+ ", 0") :: []).
  { vm_compute. reflexivity. }
  rewrite H. apply gpuUUIDToIndex_last_row.
  - vm_compute. reflexivity.
  - intros [].
Defined.

(** ** The registry after a replay *)

Lemma Set_lookup (c : SetCall) (g : Gauge) (k : list string) (r : Registry) :
  gauge g (Set_ c r) !! k
  = if decide (metric c = g /\ labels c = k) then Some (value c) else gauge g r !! k.
Proof.
  destruct (decide (metric c = g /\ labels c = k)) as [[Hg Hk]|Hno].
  - subst g k. rewrite Set_same. apply lookup_insert_eq.
  - destruct (decide (metric c = g)) as [Hg|Hg].
    + subst g. rewrite Set_same. apply lookup_insert_ne. intros Hk. apply Hno. now split.
    + now rewrite Set_other.
Qed.

Lemma publish_lookup (calls : list SetCall) (g : Gauge) (k : list string) (r : Registry) :
  gauge g (publish calls r) !! k
  = from_option Some (gauge g r !! k) (lastSet g k calls).
Proof.
  revert r. induction calls as [|c calls IH]; intros r; [reflexivity|].
  change (publish (c :: calls) r) with (publish calls (Set_ c r)).
  rewrite IH. cbn [lastSet].
  destruct (lastSet g k calls); [reflexivity|].
  cbn [from_option]. rewrite Set_lookup.
  now destruct (decide (metric c = g /\ labels c = k)).
Qed.

Lemma lastSet_app (g : Gauge) (k : list string) (a b : list SetCall) :
  lastSet g k (a ++ b)
  = match lastSet g k b with
    | Some v => Some v
    | None => lastSet g k a
    end.
Proof.
  induction a as [|c a IH]; cbn [app lastSet].
  - now destruct (lastSet g k b).
  - rewrite IH. now destruct (lastSet g k b).
Qed.

Lemma lastSet_None (g : Gauge) (k : list string) (calls : list SetCall) :
  Forall (fun c => ~ (metric c = g /\ labels c = k)) calls -> lastSet g k calls = None.
Proof.
  induction 1 as [|c calls Hc _ IH]; [reflexivity|].
  cbn [lastSet]. rewrite IH. now destruct (decide (metric c = g /\ labels c = k)).
Qed.

Lemma Registry_ext (r r' : Registry) :
  (forall g, gauge g r = gauge g r') -> r = r'.
Proof.
  intros H. destruct r, r'.
  pose proof (H gpu_utilization) as H1. pose proof (H gpu_memory_usage_bytes) as H2.
  pose proof (H io_read_bytes) as H3. pose proof (H io_write_bytes) as H4.
  cbn in H1, H2, H3, H4. now subst.
Qed.

(** ** [collectGPUMetrics]: several processes of one job on one device *)

(** X4.  The entry of a job on a device holds the memory of one process, the
    last one listed: when a row gives the call [c] and no row after it gives
    a call with the same labels, the entry with the labels of [c] has the
    value of [c] after the tick, whatever the rows before it set. *)
Theorem gpu_memory_of_last_row (fsys : FileSystem) (gpuInfoOutput computeAppsOutput : string)
        (before after : list string) (line : string) (c : SetCall) (r : Registry) :
  let h := {| fs := fsys;
              gpuInfoCmd := Some gpuInfoOutput;
              computeAppsCmd := Some computeAppsOutput |} in
  let m := gpuUUIDToIndex (outputLines gpuInfoOutput) in
  outputLines computeAppsOutput = before ++ line :: after ->
  computeAppsLine fsys m line = [c] ->
  Forall (fun row => Forall (fun c' => labels c' <> labels c) (computeAppsLine fsys m row))
         after ->
  gpuMemoryUsageMetric (cycle h r) !! labels c = Some (value c).
Proof.
  intros h m Hlines Hline Hafter.
  rewrite cycle_gpu_memory.
  change (gauge gpu_memory_usage_bytes (publish (collectGPUMetrics h) r) !! labels c
          = Some (value c)).
  rewrite publish_lookup. unfold h.
  rewrite collectGPUMetrics_rowCalls, Hlines.
  change (before ++ line :: after) with (before ++ [line] ++ after).
  rewrite !rowCalls_app, !lastSet_app.
  assert (Hnone : lastSet gpu_memory_usage_bytes (labels c)
                    (rowCalls fsys (outputLines gpuInfoOutput) after) = None).
  { apply lastSet_None. unfold rowCalls. fold m. clear Hlines.
    induction Hafter as [|row after Hrow _ IH]; [apply List.Forall_nil|].
    cbn [flat_map]. apply Forall_app. split; [|exact IH].
    eapply Forall_impl; [exact Hrow|]. intros c' Hc' [_ Hk]. now apply Hc'. }
  rewrite Hnone. unfold rowCalls at 1. fold m. cbn [flat_map]. rewrite Hline.
  cbn [app lastSet].
  pose proof (computeAppsLine_metric fsys m line) as Hm. rewrite Hline in Hm.
  apply Forall_inv in Hm.
  destruct (decide (metric c = gpu_memory_usage_bytes /\ labels c = labels c)) as [_|Hno];
    [reflexivity|].
  exfalso. apply Hno. now split.
Qed.

Lemma gpu_memory_of_last_row_witness :
  collectGPUMetrics Example.shared
  = [ mkCall gpu_memory_usage_bytes ["0"; "42"] (float64_of_Z 536870912);
      mkCall gpu_memory_usage_bytes ["0"; "42"] (float64_of_Z 104857600) ]
  /\ gpuMemoryUsageMetric (cycle Example.shared init) !! ["0"; "42"]
     = Some (float64_of_Z 104857600).
Proof.
  split; [vm_compute; reflexivity|].
  apply (gpu_memory_of_last_row Example.twoProcs (Example.gpuRow +:+ nl)
           (Example.appRow +:+ nl +:+ "1235, 100 MiB, gpu-uuid-1" +:+ nl)
           [Example.appRow] [] "1235, 100 MiB, gpu-uuid-1"
           (mkCall gpu_memory_usage_bytes ["0"; "42"] (float64_of_Z 104857600)) init).
  - vm_compute. reflexivity.
  - vm_compute. reflexivity.
  - apply List.Forall_nil.
Defined.

(** ** Entries that a tick does not write *)

Lemma cycle_lookup (h : Host) (r : Registry) (g : Gauge) (k : list string) :
  gauge g (cycle h r) !! k = from_option Some (gauge g r !! k) (lastSet g k (tick h)).
Proof. unfold cycle. apply publish_lookup. Qed.

Lemma cycles_keep (hs : list Host) (r : Registry) (g : Gauge) (k : list string) :
  is_Some (gauge g r !! k) -> is_Some (gauge g (cycles hs r) !! k).
Proof.
  revert r. induction hs as [|h hs IH]; intros r Hr; [exact Hr|].
  change (cycles (h :: hs) r) with (cycles hs (cycle h r)).
  apply IH. rewrite cycle_lookup.
  destruct (lastSet g k (tick h)); [now eexists | exact Hr].
Qed.

(** X5.  No tick removes an entry: an entry that exists is there after any
    number of later ticks.  And a tick that performs no call for an entry
    leaves its value as it was, so the samples of a process or a job that
    has gone stay in the registry with their last values. *)
Theorem entries_stay (h : Host) (hs : list Host) (r : Registry) (g : Gauge) (k : list string) :
  (is_Some (gauge g r !! k) -> is_Some (gauge g (cycles hs r) !! k))
  /\ (Forall (fun c => ~ (metric c = g /\ labels c = k)) (tick h) ->
      gauge g (cycle h r) !! k = gauge g r !! k).
Proof.
  split; [apply cycles_keep|].
  intros Hno. now rewrite cycle_lookup, (lastSet_None _ _ _ Hno).
Qed.

Lemma entries_stay_witness :
  ioReadBytesMetric (cycle Example.busy init) !! ["1234"; "job_42"] = Some (float64_of_Z 4096)
  /\ ioReadBytesMetric (cycle Example.afterJob42 (cycle Example.busy init))
       !! ["1234"; "job_42"] = Some (float64_of_Z 4096).
Proof.
  assert (H : ioReadBytesMetric (cycle Example.busy init) !! ["1234"; "job_42"]
              = Some (float64_of_Z 4096)).
  { change (gauge io_read_bytes (cycle Example.busy init) !! ["1234"; "job_42"]
            = Some (float64_of_Z 4096)).
    rewrite cycle_lookup. vm_compute. reflexivity. }
  split; [exact H|]. rewrite <- H.
  apply (entries_stay Example.afterJob42 [] (cycle Example.busy init) io_read_bytes
           ["1234"; "job_42"]).
  assert (Htick : tick Example.afterJob42
                  = [ mkCall io_read_bytes ["none"; "job_43"] (float64_of_Z 0);
                      mkCall io_write_bytes ["none"; "job_43"] (float64_of_Z 0) ]).
  { vm_compute. reflexivity. }
  rewrite Htick.
  repeat apply List.Forall_cons; try apply List.Forall_nil;
    intros [_ Hk]; discriminate.
Defined.

(** ** Sampling twice *)

Lemma publish_twice (calls : list SetCall) (r : Registry) :
  publish calls (publish calls r) = publish calls r.
Proof.
  apply Registry_ext. intros g. apply map_eq. intros k.
  rewrite !publish_lookup. now destruct (lastSet g k calls).
Qed.

(** X6.  A tick is idempotent: sampling again a host that has not changed
    leaves the registry exactly as the first tick left it. *)
Theorem cycle_idempotent (h : Host) (r : Registry) :
  cycle h (cycle h r) = cycle h r.
Proof. unfold cycle. apply publish_twice. Qed.

(** X7.  The two passes of a tick write different gauges: the tick gives the
    same registry whichever of them runs first, the accelerator entries are
    those of the accelerator pass alone and the I/O entries those of the I/O
    pass alone. *)
Theorem passes_commute (h : Host) (r : Registry) :
  publish (collectIOMetrics (fs h) ++ collectGPUMetrics h) r = cycle h r
  /\ gpuMemoryUsageMetric (cycle h r) = gpuMemoryUsageMetric (publish (collectGPUMetrics h) r)
  /\ ioReadBytesMetric (cycle h r) = ioReadBytesMetric (publish (collectIOMetrics (fs h)) r)
  /\ ioWriteBytesMetric (cycle h r) = ioWriteBytesMetric (publish (collectIOMetrics (fs h)) r).
Proof.
  assert (Hgpu : forall g, g <> gpu_memory_usage_bytes ->
                           Forall (fun c => metric c <> g) (collectGPUMetrics h)).
  { intros g Hg. eapply Forall_impl; [apply collectGPUMetrics_metric|].
    intros c Hc. cbn in Hc. congruence. }
  assert (Hio : forall g, g <> io_read_bytes -> g <> io_write_bytes ->
                          Forall (fun c => metric c <> g) (collectIOMetrics (fs h))).
  { intros g H1 H2. eapply Forall_impl; [apply collectIOMetrics_metric|].
    intros c [Hc|Hc]; cbn in Hc; congruence. }
  assert (Hread : gauge io_read_bytes (cycle h r)
                  = gauge io_read_bytes (publish (collectIOMetrics (fs h)) r)).
  { apply map_eq. intros k. unfold cycle, tick.
    rewrite !publish_lookup, lastSet_app.
    destruct (lastSet io_read_bytes k (collectIOMetrics (fs h))); [reflexivity|].
    rewrite lastSet_None; [reflexivity|].
    eapply Forall_impl; [apply (Hgpu io_read_bytes); discriminate|].
    intros c Hc [Hm _]. now apply Hc. }
  assert (Hwrite : gauge io_write_bytes (cycle h r)
                   = gauge io_write_bytes (publish (collectIOMetrics (fs h)) r)).
  { apply map_eq. intros k. unfold cycle, tick.
    rewrite !publish_lookup, lastSet_app.
    destruct (lastSet io_write_bytes k (collectIOMetrics (fs h))); [reflexivity|].
    rewrite lastSet_None; [reflexivity|].
    eapply Forall_impl; [apply (Hgpu io_write_bytes); discriminate|].
    intros c Hc [Hm _]. now apply Hc. }
  split; [|split; [apply cycle_gpu_memory | split; [exact Hread | exact Hwrite]]].
  assert (Hgpu_none : forall g k, g <> gpu_memory_usage_bytes ->
                                  lastSet g k (collectGPUMetrics h) = None).
  { intros g k Hg. apply lastSet_None.
    eapply Forall_impl; [apply (Hgpu g Hg)|]. intros c Hc [Hm _]. now apply Hc. }
  assert (Hio_none : forall k, lastSet gpu_memory_usage_bytes k (collectIOMetrics (fs h)) = None).
  { intros k. apply lastSet_None.
    eapply Forall_impl; [apply (Hio gpu_memory_usage_bytes); discriminate|].
    intros c Hc [Hm _]. now apply Hc. }
  apply Registry_ext. intros g. rewrite publish_app. apply map_eq. intros k.
  rewrite !publish_lookup, cycle_lookup. unfold tick. rewrite lastSet_app.
  destruct g.
  - rewrite Hgpu_none by discriminate.
    now destruct (lastSet gpu_utilization k (collectIOMetrics (fs h))).
  - rewrite Hio_none. reflexivity.
  - rewrite Hgpu_none by discriminate.
    now destruct (lastSet io_read_bytes k (collectIOMetrics (fs h))).
  - rewrite Hgpu_none by discriminate.
    now destruct (lastSet io_write_bytes k (collectIOMetrics (fs h))).
Qed.

(** ** The labels of the entries *)

Lemma lastSet_Some (g : Gauge) (k : list string) (calls : list SetCall) (v : float64) :
  lastSet g k calls = Some v ->
  exists c, In c calls /\ metric c = g /\ labels c = k /\ value c = v.
Proof.
  induction calls as [|c calls IH]; [discriminate|].
  cbn [lastSet]. destruct (lastSet g k calls) as [v'|].
  - intros H. destruct (IH H) as (c' & Hin & Hc'). exists c'. split; [right; exact Hin | exact Hc'].
  - destruct (decide (metric c = g /\ labels c = k)) as [[Hg Hk]|]; [|discriminate].
    intros H. inversion H. exists c. split; [left; reflexivity | auto].
Qed.

Lemma publish_twoLabels (calls : list SetCall) (r : Registry) :
  Forall (fun c => length (labels c) = 2%nat) calls ->
  twoLabels r -> twoLabels (publish calls r).
Proof.
  intros Hcalls Hr g k v. rewrite publish_lookup.
  destruct (lastSet g k calls) as [v'|] eqn:Hlast.
  - intros _. apply lastSet_Some in Hlast. destruct Hlast as (c & Hin & _ & Hk & _).
    rewrite List.Forall_forall in Hcalls. rewrite <- Hk. now apply Hcalls.
  - apply Hr.
Qed.

Lemma collectGPUMetrics_two_labels (h : Host) :
  Forall (fun c => length (labels c) = 2%nat) (collectGPUMetrics h).
Proof.
  unfold collectGPUMetrics.
  destruct (gpuInfoCmd h); [|apply List.Forall_nil].
  destruct (computeAppsCmd h); [|apply List.Forall_nil].
  apply Forall_flat_map_intro. intros line. unfold computeAppsLine.
  repeat (case_match; try apply List.Forall_nil).
  apply List.Forall_cons; [reflexivity | apply List.Forall_nil].
Qed.

Lemma ioJob_two_labels (fsys : FileSystem) (uidPath jobEntry : string) :
  Forall (fun c => length (labels c) = 2%nat) (ioJob fsys uidPath jobEntry).
Proof.
  unfold ioJob.
  repeat (case_match; try apply List.Forall_nil).
  - repeat (apply List.Forall_cons; [reflexivity|]). apply List.Forall_nil.
  - apply Forall_flat_map_intro. intros pid. unfold ioPID.
    case_match; [|apply List.Forall_nil].
    apply Forall_flat_map_intro. intros line. unfold ioLine.
    repeat (case_match; try apply List.Forall_nil);
      (apply List.Forall_cons; [reflexivity | apply List.Forall_nil]).
Qed.

Lemma tick_two_labels (h : Host) : Forall (fun c => length (labels c) = 2%nat) (tick h).
Proof.
  unfold tick. apply Forall_app. split; [apply collectGPUMetrics_two_labels|].
  rewrite collectIOMetrics_jobDirs. apply Forall_flat_map_intro.
  intros d. apply ioJob_two_labels.
Qed.

(** X8.  From start-up on, every entry of every gauge has exactly two label
    values, as the declaration of the gauge asks. *)
Theorem entries_have_two_labels (hs : list Host) : twoLabels (cycles hs init).
Proof.
  assert (Hinit : twoLabels init).
  { unfold init. apply publish_twoLabels.
    - repeat (apply List.Forall_cons; [reflexivity|]). apply List.Forall_nil.
    - intros g k v. destruct g; cbn; rewrite lookup_empty; discriminate. }
  revert Hinit. generalize init. induction hs as [|h hs IH]; intros r Hr; [exact Hr|].
  change (cycles (h :: hs) r) with (cycles hs (cycle h r)).
  apply IH. unfold cycle. apply publish_twoLabels; [apply tick_two_labels | exact Hr].
Qed.

(** ** The job label of the I/O samples *)

Lemma ioJob_prefix (fsys : FileSystem) (uidPath jobEntry : string) :
  Forall (fun c => strings.HasPrefix (job_id c) "job_" = true) (ioJob fsys uidPath jobEntry).
Proof.
  pose proof (ioJob_ioCall fsys uidPath jobEntry) as H.
  destruct (strings.HasPrefix jobEntry "job_") eqn:Hp.
  - eapply Forall_impl; [exact H|]. intros c [_ Hc]. now rewrite Hc.
  - unfold ioJob. rewrite Hp. apply List.Forall_nil.
Qed.

Lemma collectIOMetrics_prefix (fsys : FileSystem) :
  Forall (fun c => strings.HasPrefix (job_id c) "job_" = true) (collectIOMetrics fsys).
Proof.
  rewrite collectIOMetrics_jobDirs. apply Forall_flat_map_intro.
  intros d. apply ioJob_prefix.
Qed.

Lemma cycle_io_placeholder (h : Host) (r : Registry) (g : Gauge) :
  g = io_read_bytes \/ g = io_write_bytes ->
  gauge g (cycle h r) !! ["none"; "none"] = gauge g r !! ["none"; "none"].
Proof.
  intros Hg. rewrite cycle_lookup, lastSet_None; [reflexivity|].
  unfold tick. apply Forall_app. split.
  - eapply Forall_impl; [apply collectGPUMetrics_metric|].
    cbn. intros c Hc [Hm _]. destruct Hg; congruence.
  - eapply Forall_impl; [apply collectIOMetrics_prefix|].
    cbn. intros c Hc [_ Hk]. unfold job_id in Hc. rewrite Hk in Hc. discriminate.
Qed.

(** X9.  Every I/O sample carries as its job label the name of a job
    directory with its prefix [job_]; so no tick ever writes the entries
    [none, none] of the two I/O gauges, which keep the value 0 of start-up
    for ever. *)
Theorem io_placeholders_stay_zero (fsys : FileSystem) (hs : list Host) :
  Forall (fun c => strings.HasPrefix (job_id c) "job_" = true) (collectIOMetrics fsys)
  /\ ioReadBytesMetric (cycles hs init) !! ["none"; "none"] = Some (float64_of_Z 0)
  /\ ioWriteBytesMetric (cycles hs init) !! ["none"; "none"] = Some (float64_of_Z 0).
Proof.
  split; [apply collectIOMetrics_prefix|].
  assert (H : forall g, g = io_read_bytes \/ g = io_write_bytes ->
                        forall r, gauge g r !! ["none"; "none"] = Some (float64_of_Z 0) ->
                                  gauge g (cycles hs r) !! ["none"; "none"]
                                  = Some (float64_of_Z 0)).
  { intros g Hg. induction hs as [|h hs IH]; intros r Hr; [exact Hr|].
    change (cycles (h :: hs) r) with (cycles hs (cycle h r)).
    apply IH. now rewrite cycle_io_placeholder. }
  split.
  - apply (H io_read_bytes); [now left|]. vm_compute. reflexivity.
  - apply (H io_write_bytes); [now right|]. vm_compute. reflexivity.
Qed.

(** ** [collectIOMetrics]: processes that cannot be read *)

Lemma flat_map_ioPID_readable (fsys : FileSystem) (jobEntry : string) (pids : list string) :
  flat_map (ioPID fsys jobEntry) pids
  = flat_map (ioPID fsys jobEntry)
             (List.filter (fun pid => isSome (ReadFile fsys (ioPath pid))) pids).
Proof.
  induction pids as [|pid pids IH]; [reflexivity|].
  cbn [flat_map List.filter]. unfold ioPID at 1, ioPath at 1.
  destruct (ReadFile fsys ("/proc/" +:+ pid +:+ "/io")) as [content|] eqn:Hread.
  - cbn [isSome flat_map]. unfold ioPID at 2. rewrite Hread. now rewrite IH.
  - cbn [isSome app]. exact IH.
Qed.

(** X10.  In a job directory that lists processes, a process whose I/O
    record cannot be read gives no call and the others give theirs; when no
    record can be read the job gives no call at all, not even the two zero
    entries of a job without processes. *)
Theorem io_unreadable_processes (fsys : FileSystem) (uidPath jobEntry pids : string) :
  let cgroupProcsPath := filepath.Join (filepath.slash uidPath jobEntry) "cgroup.procs" in
  strings.HasPrefix jobEntry "job_" = true ->
  IsNotExist fsys cgroupProcsPath = false ->
  ReadFile fsys cgroupProcsPath = Some pids ->
  strings.Fields pids <> [] ->
  ioJob fsys uidPath jobEntry
  = flat_map (ioPID fsys jobEntry)
             (List.filter (fun pid => isSome (ReadFile fsys (ioPath pid)))
                          (strings.Fields pids))
  /\ (Forall (fun pid => ReadFile fsys (ioPath pid) = None) (strings.Fields pids) ->
      ioJob fsys uidPath jobEntry = []).
Proof.
  intros path Hp Hstat Hread Hfields.
  assert (H : ioJob fsys uidPath jobEntry
              = flat_map (ioPID fsys jobEntry) (strings.Fields pids)).
  { unfold ioJob. rewrite Hp. fold path. rewrite Hstat, Hread.
    destruct (strings.Fields pids); [contradiction | reflexivity]. }
  split.
  - rewrite H. apply flat_map_ioPID_readable.
  - intros Hall. rewrite H. clear H Hfields.
    induction Hall as [|pid rest Hpid _ IH]; [reflexivity|].
    cbn [flat_map]. rewrite IH. unfold ioPID. unfold ioPath in Hpid. now rewrite Hpid.
Qed.

Lemma io_unreadable_processes_witness :
  strings.Fields ("1234" +:+ nl) = ["1234"]
  /\ ioJob Example.exited Example.uid1000 "job_42" = [].
Proof.
  split; [vm_compute; reflexivity|].
  apply (io_unreadable_processes Example.exited Example.uid1000 "job_42" ("1234" +:+ nl)).
  - reflexivity.
  - reflexivity.
  - reflexivity.
  - vm_compute. discriminate.
  - assert (H : strings.Fields ("1234" +:+ nl) = ["1234"]) by (vm_compute; reflexivity).
    rewrite H. apply List.Forall_cons; [reflexivity | apply List.Forall_nil].
Defined.

(** ** A line of an I/O record with more than one colon *)

Lemma split_from_nonempty (sep s : string) (skip : nat) : strings.split_from sep s skip <> [].
Proof.
  revert skip. induction s as [|c s IH]; intros skip; [discriminate|].
  cbn [strings.split_from]. destruct skip as [|k]; [|apply IH].
  destruct (strings.HasPrefix (String c s) sep); [discriminate|].
  destruct (strings.split_from sep s 0); discriminate.
Qed.

Lemma HasPrefix_empty (s : string) : strings.HasPrefix s EmptyString = true.
Proof. now destruct s. Qed.

Lemma Split_char_app (c : ascii) (a b : string) :
  strings.Split (a +:+ String c b) (String c EmptyString)
  = strings.Split a (String c EmptyString) ++ strings.Split b (String c EmptyString).
Proof.
  unfold strings.Split. induction a as [|d a IH].
  - change (EmptyString +:+ String c b) with (String c b).
    cbn [strings.split_from strings.HasPrefix String.length Nat.sub app].
    now rewrite Ascii.eqb_refl, HasPrefix_empty.
  - change (String d a +:+ String c b) with (String d (a +:+ String c b)).
    cbn [strings.split_from strings.HasPrefix String.length Nat.sub].
    rewrite !HasPrefix_empty.
    destruct (Ascii.eqb d c).
    + rewrite IH. reflexivity.
    + rewrite IH.
      pose proof (split_from_nonempty (String c EmptyString) a 0) as Hne.
      destruct (strings.split_from (String c EmptyString) a 0); [contradiction | reflexivity].
Qed.

(** X11.  A line of an I/O record with two colons or more gives no call,
    whatever its key. *)
Theorem ioLine_two_colons (pid jobEntry k v w : string) :
  ioLine pid jobEntry (k +:+ ":" +:+ v +:+ ":" +:+ w) = [].
Proof.
  unfold ioLine.
  change (k +:+ ":" +:+ v +:+ ":" +:+ w)
    with (k +:+ String ":" (v +:+ String ":" w)).
  rewrite !Split_char_app.
  pose proof (split_from_nonempty ":" k 0) as Hk.
  pose proof (split_from_nonempty ":" v 0) as Hv.
  pose proof (split_from_nonempty ":" w 0) as Hw.
  unfold strings.Split.
  destruct (strings.split_from ":" k 0) as [|x xs]; [contradiction|].
  destruct (strings.split_from ":" v 0) as [|y ys]; [contradiction|].
  destruct (strings.split_from ":" w 0) as [|z zs]; [contradiction|].
  destruct xs as [|x' xs]; cbn [app].
  - destruct ys; reflexivity.
  - destruct xs; reflexivity.
Qed.

(** ** Where the calls of a tick come from *)

Lemma fold_insertRow_Some (rows : list (string * string)) (m : gmap string string)
      (uuid index : string) :
  fold_left insertRow rows m !! uuid = Some index ->
  In (uuid, index) rows \/ m !! uuid = Some index.
Proof.
  revert m. induction rows as [|[u i] rows IH]; intros m H; [right; exact H|].
  cbn [fold_left] in H. destruct (IH _ H) as [Hin|Hm].
  - left. right. exact Hin.
  - unfold insertRow in Hm. cbn [fst snd] in Hm.
    rewrite lookup_insert in Hm. case_decide.
    + inversion Hm. subst. left. left. reflexivity.
    + right. exact Hm.
Qed.

Lemma gpuUUIDToIndex_Some (lines : list string) (uuid index : string) :
  gpuUUIDToIndex lines !! uuid = Some index -> In (uuid, index) (deviceRows lines).
Proof.
  unfold gpuUUIDToIndex. rewrite fold_gpuInfoLine. intros H.
  apply fold_insertRow_Some in H. destruct H as [H|H]; [exact H|].
  rewrite lookup_empty in H. discriminate.
Qed.

(** X12.  Every call of the accelerator pass comes from a compute-apps row of
    three fields whose UUID is that of a per-device row, whose memory field
    is a number and whose PID resolves to a job: its labels are the index of
    that device row and that job, its value the number times 1024 times
    1024.  The pass never sets an entry for a device that the per-device
    query does not list, nor for a process without a job. *)
Theorem gpu_calls_come_from_rows (h : Host) (c : SetCall) :
  In c (collectGPUMetrics h) ->
  exists gpuInfoOutput computeAppsOutput line pid used uuid index usedMemory jobID,
    gpuInfoCmd h = Some gpuInfoOutput
    /\ computeAppsCmd h = Some computeAppsOutput
    /\ In line (outputLines computeAppsOutput)
    /\ strings.Split line ", " = [pid; used; uuid]
    /\ In (uuid, index) (deviceRows (outputLines gpuInfoOutput))
    /\ strconv.ParseFloat (strings.Trim used " MiB") = Some usedMemory
    /\ getJobIDFromPID (fs h) pid = Some jobID
    /\ c = mkCall gpu_memory_usage_bytes [index; jobID] (MiB_to_bytes usedMemory).
Proof.
  unfold collectGPUMetrics.
  destruct (gpuInfoCmd h) as [gpuInfoOutput|]; [|intros []].
  destruct (computeAppsCmd h) as [computeAppsOutput|]; [|intros []].
  intros Hc. apply in_flat_map in Hc. destruct Hc as (line & Hline & Hc).
  unfold computeAppsLine in Hc.
  destruct (strings.Split line ", ") as [|pid [|used [|uuid [|? ?]]]] eqn:Hsplit;
    try destruct Hc.
  destruct (strconv.ParseFloat (strings.Trim used " MiB")) as [usedMemory|] eqn:Hparse;
    [|destruct Hc].
  destruct (gpuUUIDToIndex (outputLines gpuInfoOutput) !! uuid) as [index|] eqn:Hindex;
    [|destruct Hc].
  destruct (getJobIDFromPID (fs h) pid) as [jobID|] eqn:Hjob; [|destruct Hc].
  destruct Hc as [Hc|[]].
  exists gpuInfoOutput, computeAppsOutput, line, pid, used, uuid, index, usedMemory, jobID.
  apply gpuUUIDToIndex_Some in Hindex. repeat split; try assumption; try reflexivity.
  now symmetry.
Qed.

Lemma gpu_calls_come_from_rows_witness :
  exists gpuInfoOutput computeAppsOutput line pid used uuid index usedMemory jobID,
    gpuInfoCmd Example.busy = Some gpuInfoOutput
    /\ computeAppsCmd Example.busy = Some computeAppsOutput
    /\ In line (outputLines computeAppsOutput)
    /\ strings.Split line ", " = [pid; used; uuid]
    /\ In (uuid, index) (deviceRows (outputLines gpuInfoOutput))
    /\ strconv.ParseFloat (strings.Trim used " MiB") = Some usedMemory
    /\ getJobIDFromPID (fs Example.busy) pid = Some jobID
    /\ mkCall gpu_memory_usage_bytes ["0"; "42"] (float64_of_Z 536870912)
       = mkCall gpu_memory_usage_bytes [index; jobID] (MiB_to_bytes usedMemory).
Proof.
  apply (gpu_calls_come_from_rows Example.busy
           (mkCall gpu_memory_usage_bytes ["0"; "42"] (float64_of_Z 536870912))).
  vm_compute. left. reflexivity.
Defined.

(** X13.  Every call of the I/O pass belongs to a visited job directory whose
    [cgroup.procs] was read, and carries its name as job label.  It is
    either one of the two zero entries with [pid = none], and then the file
    holds no field, or it comes from a line of the I/O record of a process
    that the file lists.  The pass never publishes a sample for a process
    that no visited [cgroup.procs] lists. *)
Theorem io_calls_come_from_listed_processes (fsys : FileSystem) (c : SetCall) :
  In c (collectIOMetrics fsys) ->
  exists d pids,
    In d (jobDirs fsys)
    /\ strings.HasPrefix (snd d) "job_" = true
    /\ ReadFile fsys (filepath.Join (filepath.slash (fst d) (snd d)) "cgroup.procs")
       = Some pids
    /\ job_id c = snd d
    /\ ((strings.Fields pids = [] /\ first_label c = "none" /\ value c = float64_of_Z 0)
        \/ exists pid content line,
             In pid (strings.Fields pids)
             /\ ReadFile fsys (ioPath pid) = Some content
             /\ In line (strings.Split content nl)
             /\ fromIOLine pid (snd d) line c).
Proof.
  rewrite collectIOMetrics_jobDirs. intros Hc.
  apply in_flat_map in Hc. destruct Hc as ([uidPath jobEntry] & Hd & Hc).
  cbn [fst snd] in Hc.
  pose proof (ioJob_ioCall fsys uidPath jobEntry) as Hlabel.
  rewrite List.Forall_forall in Hlabel. destruct (Hlabel c Hc) as [_ Hjob].
  unfold ioJob in Hc.
  destruct (strings.HasPrefix jobEntry "job_") eqn:Hp; [|destruct Hc].
  destruct (IsNotExist fsys _); [destruct Hc|].
  destruct (ReadFile fsys (filepath.Join (filepath.slash uidPath jobEntry) "cgroup.procs"))
    as [pids|] eqn:Hread; [|destruct Hc].
  exists (uidPath, jobEntry), pids. cbn [fst snd].
  split; [exact Hd|]. split; [exact Hp|]. split; [exact Hread|]. split; [exact Hjob|].
  destruct (strings.Fields pids) as [|pid0 rest] eqn:Hfields.
  - left. split; [reflexivity|].
    destruct Hc as [Hc|[Hc|[]]]; subst c; split; reflexivity.
  - right. apply in_flat_map in Hc. destruct Hc as (pid & Hpid & Hc).
    unfold ioPID in Hc.
    destruct (ReadFile fsys ("/proc/" +:+ pid +:+ "/io")) as [content|] eqn:Hio; [|destruct Hc].
    apply in_flat_map in Hc. destruct Hc as (line & Hline & Hc).
    exists pid, content, line. split; [exact Hpid|]. split; [exact Hio|].
    split; [exact Hline|].
    pose proof (ioLine_fromIOLine pid jobEntry line) as Hfrom.
    rewrite List.Forall_forall in Hfrom. now apply Hfrom.
Qed.

Lemma io_calls_come_from_listed_processes_witness :
  exists d pids,
    In d (jobDirs Example.cgroups)
    /\ strings.HasPrefix (snd d) "job_" = true
    /\ ReadFile Example.cgroups
         (filepath.Join (filepath.slash (fst d) (snd d)) "cgroup.procs") = Some pids
    /\ job_id (mkCall io_read_bytes ["1234"; "job_42"] (float64_of_Z 4096)) = snd d
    /\ ((strings.Fields pids = []
         /\ first_label (mkCall io_read_bytes ["1234"; "job_42"] (float64_of_Z 4096)) = "none"
         /\ value (mkCall io_read_bytes ["1234"; "job_42"] (float64_of_Z 4096))
            = float64_of_Z 0)
        \/ exists pid content line,
             In pid (strings.Fields pids)
             /\ ReadFile Example.cgroups (ioPath pid) = Some content
             /\ In line (strings.Split content nl)
             /\ fromIOLine pid (snd d) line
                  (mkCall io_read_bytes ["1234"; "job_42"] (float64_of_Z 4096))).
Proof.
  apply (io_calls_come_from_listed_processes Example.cgroups
           (mkCall io_read_bytes ["1234"; "job_42"] (float64_of_Z 4096))).
  vm_compute. left. reflexivity.
Defined.

(** ** The earlier version: one resolver for both passes *)

Lemma Earlier_computeAppsLine_job (fsys : FileSystem) (m : gmap string string)
      (line pid used uuid : string) (c : SetCall) :
  strings.Split line ", " = [pid; used; uuid] ->
  In c (Earlier.computeAppsLine fsys m line) ->
  Earlier.getJobIDFromPID fsys pid = Some (job_id c).
Proof.
  intros Hsplit. unfold Earlier.computeAppsLine. rewrite Hsplit.
  destruct (strconv.ParseFloat (strings.Trim used " MiB")); [|intros []].
  destruct (m !! uuid); [|intros []].
  destruct (Earlier.getJobIDFromPID fsys pid) as [jobID|]; [|intros []].
  intros [Hc|[]]. subst c. reflexivity.
Qed.

Lemma Earlier_ioEntry_labels (fsys : FileSystem) (pid : string) (c : SetCall) :
  In c (Earlier.ioEntry fsys pid) ->
  first_label c = pid
  /\ Earlier.getJobIDFromPID fsys pid = Some (job_id c)
  /\ exists z, Earlier.Atoi pid = Some z.
Proof.
  unfold Earlier.ioEntry.
  destruct (Earlier.Atoi pid) as [z|]; [|intros []].
  destruct (Earlier.getJobIDFromPID fsys pid) as [jobID|]; [|intros []].
  destruct (ReadFile fsys _) as [content|]; [|intros []].
  intros Hc. apply in_flat_map in Hc. destruct Hc as (line & _ & Hc).
  pose proof (ioLine_fromIOLine pid jobID line) as Hfrom.
  rewrite List.Forall_forall in Hfrom.
  destruct (Hfrom c Hc) as (k & v & _ & _ & Hlabels & _).
  unfold first_label, job_id. rewrite Hlabels. cbn [nth].
  split; [reflexivity|]. split; [reflexivity|]. now exists z.
Qed.

(** X14.  In the earlier version the two passes ask the same resolver: the
    accelerator sample of a row and every I/O sample published for the PID of
    that row carry the same job label. *)
Theorem earlier_job_labels_agree (fsys : FileSystem) (m : gmap string string)
        (line pid used uuid : string) (g i : SetCall) :
  strings.Split line ", " = [pid; used; uuid] ->
  In g (Earlier.computeAppsLine fsys m line) ->
  In i (Earlier.collectIOMetrics fsys) ->
  first_label i = pid ->
  job_id g = job_id i.
Proof.
  intros Hsplit Hg Hi Hpid.
  pose proof (Earlier_computeAppsLine_job _ _ _ _ _ _ _ Hsplit Hg) as Hjob.
  unfold Earlier.collectIOMetrics in Hi.
  destruct (Readdirnames fsys "/proc") as [pids|]; [|destruct Hi].
  apply in_flat_map in Hi. destruct Hi as (pid' & _ & Hi).
  apply Earlier_ioEntry_labels in Hi. destruct Hi as (Hfirst & Hjob' & _).
  rewrite Hfirst in Hpid. rewrite Hpid in Hjob'.
  rewrite Hjob in Hjob'. now inversion Hjob'.
Qed.

Lemma earlier_job_labels_agree_witness :
  job_id (mkCall gpu_memory_usage_bytes ["0"; "42"] (float64_of_Z 536870912))
  = job_id (mkCall io_read_bytes ["1234"; "42"] (float64_of_Z 4096)).
Proof.
  apply (earlier_job_labels_agree Example.procfs (gpuUUIDToIndex [Example.gpuRow])
           Example.appRow "1234" "512 MiB" "gpu-uuid-1").
  - exact appRow_fields.
  - vm_compute. left. reflexivity.
  - vm_compute. left. reflexivity.
  - reflexivity.
Defined.

(** X15.  The I/O pass of the earlier version only samples the entries of
    [/proc] whose name is a decimal integer within the range of [int]: the
    [pid] label of every call is such a name, and its job label is the job
    that the resolver gives for that process. *)
Theorem earlier_io_samples_numeric_entries (fsys : FileSystem) (c : SetCall) :
  In c (Earlier.collectIOMetrics fsys) ->
  (exists z, Earlier.Atoi (first_label c) = Some z)
  /\ Earlier.getJobIDFromPID fsys (first_label c) = Some (job_id c).
Proof.
  unfold Earlier.collectIOMetrics.
  destruct (Readdirnames fsys "/proc") as [pids|]; [|intros []].
  intros Hc. apply in_flat_map in Hc. destruct Hc as (pid & _ & Hc).
  apply Earlier_ioEntry_labels in Hc. destruct Hc as (Hfirst & Hjob & Hz).
  rewrite Hfirst. split; assumption.
Qed.

Lemma earlier_io_samples_numeric_entries_witness :
  Earlier.collectIOMetrics Example.procfs
  = [ mkCall io_read_bytes ["1234"; "42"] (float64_of_Z 4096);
      mkCall io_write_bytes ["1234"; "42"] (float64_of_Z 0) ]
  /\ ((exists z, Earlier.Atoi "1234" = Some z)
      /\ Earlier.getJobIDFromPID Example.procfs "1234" = Some "42").
Proof.
  split; [vm_compute; reflexivity|].
  apply (earlier_io_samples_numeric_entries Example.procfs
           (mkCall io_read_bytes ["1234"; "42"] (float64_of_Z 4096))).
  vm_compute. left. reflexivity.
Defined.

(** ** The earlier version: the job read from a cgroup line *)

Lemma Split_char_head (c : ascii) (s : string) :
  match strings.Split s (String c EmptyString) with
  | head :: _ => ~ In c (list_ascii_of_string head)
  | [] => True
  end.
Proof.
  unfold strings.Split. induction s as [|d s IH]; [intros []|].
  cbn [strings.split_from strings.HasPrefix String.length Nat.sub].
  rewrite HasPrefix_empty.
  destruct (Ascii.eqb d c) eqn:Hd; [intros []|].
  destruct (strings.split_from (String c EmptyString) s 0) as [|head pieces].
  - cbn. intros [H|[]]. subst d. rewrite Ascii.eqb_refl in Hd. discriminate.
  - cbn [list_ascii_of_string]. intros [H|H]; [|now apply IH].
    subst d. rewrite Ascii.eqb_refl in Hd. discriminate.
Qed.

Lemma firstJob_Some (lines : list string) (jobID : string) :
  Earlier.firstJob lines = Some jobID ->
  exists line part,
    In line lines
    /\ Earlier.Contains line "slurm" = true
    /\ Earlier.Contains line "job_" = true
    /\ nth_error (strings.Split line "job_") 1 = Some part
    /\ nth_error (strings.Split part "/") 0 = Some jobID.
Proof.
  induction lines as [|line more IH]; [discriminate|].
  cbn [Earlier.firstJob]. intros H.
  assert (Hmore : Earlier.firstJob more = Some jobID ->
                  exists l part,
                    In l (line :: more)
                    /\ Earlier.Contains l "slurm" = true
                    /\ Earlier.Contains l "job_" = true
                    /\ nth_error (strings.Split l "job_") 1 = Some part
                    /\ nth_error (strings.Split part "/") 0 = Some jobID).
  { intros Hm. destruct (IH Hm) as (l & part & Hin & Hrest).
    exists l, part. split; [right; exact Hin | exact Hrest]. }
  destruct (Earlier.Contains line "slurm") eqn:Hs; [|now apply Hmore].
  destruct (Earlier.Contains line "job_") eqn:Hj; [|now apply Hmore].
  cbn [andb] in H.
  destruct (strings.Split line "job_") as [|p0 [|part ps]] eqn:Hsplit;
    [now apply Hmore | now apply Hmore |].
  destruct (strings.Split part "/") as [|j js] eqn:Hpart; [now apply Hmore|].
  inversion H; subst j. exists line, part.
  split; [left; reflexivity|]. split; [exact Hs|]. split; [exact Hj|].
  rewrite Hsplit, Hpart. split; reflexivity.
Qed.

Lemma HasPrefix_trans (a b c : string) :
  strings.HasPrefix a b = true -> strings.HasPrefix b c = true -> strings.HasPrefix a c = true.
Proof.
  revert a b. induction c as [|x c IH]; intros a b Hab Hbc; [apply HasPrefix_empty|].
  destruct b as [|y b]; [discriminate|]. cbn in Hbc.
  destruct (Ascii.eqb y x) eqn:Hyx; [|discriminate].
  apply Ascii.eqb_eq in Hyx. subst y.
  destruct a as [|z a]; [discriminate|]. cbn in Hab. cbn.
  destruct (Ascii.eqb z x); [|discriminate]. now apply (IH a b).
Qed.

Lemma Contains_prefix (s p sub : string) :
  strings.HasPrefix s p = true ->
  Earlier.Contains s sub = false -> Earlier.Contains p sub = false.
Proof.
  revert s. induction p as [|c p IH]; intros s Hp Hs.
  - destruct sub as [|x sub]; [|reflexivity].
    destruct s; discriminate.
  - destruct s as [|d s]; [discriminate|]. cbn in Hp.
    destruct (Ascii.eqb d c) eqn:Hdc; [|discriminate].
    apply Ascii.eqb_eq in Hdc. subst d.
    cbn [Earlier.Contains] in *.
    destruct (strings.HasPrefix (String c s) sub) eqn:Hssub; [discriminate|].
    destruct (strings.HasPrefix (String c p) sub) eqn:Hpsub.
    + rewrite (HasPrefix_trans (String c s) (String c p) sub) in Hssub;
        [discriminate| |exact Hpsub].
      cbn. rewrite Ascii.eqb_refl. exact Hp.
    + now apply (IH s).
Qed.

(** The pieces of [Split] hold no separator, and the first piece starts the
    string. *)
Lemma split_from_pieces (a : ascii) (sep' : string) (s : string) :
  let sep := String a sep' in
  (forall skip, Forall (fun piece => Earlier.Contains piece sep = false)
                       (strings.split_from sep s skip))
  /\ match strings.split_from sep s 0 with
     | head :: _ => strings.HasPrefix s head = true
     | [] => True
     end.
Proof.
  intros sep. induction s as [|c s [IHall IHhead]].
  - split; [|reflexivity]. intros skip.
    destruct skip; cbn; (apply List.Forall_cons; [reflexivity|apply List.Forall_nil]).
  - assert (H0 : Forall (fun piece => Earlier.Contains piece sep = false)
                        (strings.split_from sep (String c s) 0)
                 /\ match strings.split_from sep (String c s) 0 with
                    | head :: _ => strings.HasPrefix (String c s) head = true
                    | [] => True
                    end).
    { cbn [strings.split_from].
      destruct (strings.HasPrefix (String c s) sep) eqn:Hsep.
      - split; [|reflexivity]. apply List.Forall_cons; [reflexivity|apply IHall].
      - pose proof (IHall 0%nat) as Hall.
        destruct (strings.split_from sep s 0) as [|piece pieces] eqn:Hsplit.
        + exfalso. revert Hsplit. apply split_from_nonempty.
        + inversion Hall as [|? ? Hpiece Hpieces]; subst.
          assert (Hhead : strings.HasPrefix (String c s) (String c piece) = true).
          { cbn. rewrite Ascii.eqb_refl. exact IHhead. }
          split; [|exact Hhead].
          apply List.Forall_cons; [|exact Hpieces].
          cbn [Earlier.Contains].
          destruct (strings.HasPrefix (String c piece) sep) eqn:Hp; [|exact Hpiece].
          rewrite (HasPrefix_trans _ _ _ Hhead Hp) in Hsep. discriminate. }
    split; [|exact (proj2 H0)].
    intros [|k]; [exact (proj1 H0)|]. cbn [strings.split_from]. apply IHall.
Qed.

(** X16.  The job that the earlier resolver returns is read from a line of
    [/proc/<pid>/cgroup] that contains [slurm] and [job_]: it is what
    follows the first [job_] of the line, cut at the next [job_] or at the
    next slash, whichever comes first, or at the end of the line.  So it
    holds neither a slash nor [job_]. *)
Theorem earlier_job_is_a_path_segment (fsys : FileSystem) (pid jobID : string) :
  Earlier.getJobIDFromPID fsys pid = Some jobID ->
  (exists content line part,
      ReadFile fsys (Earlier.cgroupPath pid) = Some content
      /\ In line (fst (bufio.ScanLines content))
      /\ Earlier.Contains line "slurm" = true
      /\ Earlier.Contains line "job_" = true
      /\ nth_error (strings.Split line "job_") 1 = Some part
      /\ nth_error (strings.Split part "/") 0 = Some jobID)
  /\ ~ In "/"%char (list_ascii_of_string jobID)
  /\ Earlier.Contains jobID "job_" = false.
Proof.
  unfold Earlier.getJobIDFromPID.
  destruct (ReadFile fsys (Earlier.cgroupPath pid)) as [content|]; [|discriminate].
  intros H. apply firstJob_Some in H.
  destruct H as (line & part & Hin & Hs & Hj & Hpart & Hjob).
  split; [|split].
  - exists content, line, part. repeat split; assumption.
  - pose proof (Split_char_head "/" part) as Hhead.
    destruct (strings.Split part "/") as [|head pieces]; [discriminate|].
    cbn in Hjob. inversion Hjob; subst head. exact Hhead.
  - apply (Contains_prefix part).
    + pose proof (proj2 (split_from_pieces "/" EmptyString part)) as Hhead.
      unfold strings.Split in Hjob.
      destruct (strings.split_from "/" part 0) as [|head pieces]; [discriminate|].
      cbn in Hjob. inversion Hjob; subst head. exact Hhead.
    + pose proof (proj1 (split_from_pieces "j" "ob_" line) 0%nat) as Hall.
      rewrite List.Forall_forall in Hall. apply Hall.
      apply (nth_error_In _ 1). exact Hpart.
Qed.

(** On the line [4:cpu,cpuacct:/slurm/uid_1000/job_42job_7/step_0] the job
    is [42]: the second [job_] comes before the slash. *)
Lemma earlier_job_is_a_path_segment_witness :
  (exists content line part,
      ReadFile Example.nestedJob (Earlier.cgroupPath "7") = Some content
      /\ In line (fst (bufio.ScanLines content))
      /\ Earlier.Contains line "slurm" = true
      /\ Earlier.Contains line "job_" = true
      /\ nth_error (strings.Split line "job_") 1 = Some part
      /\ nth_error (strings.Split part "/") 0 = Some "42")
  /\ ~ In "/"%char (list_ascii_of_string "42")
  /\ Earlier.Contains "42" "job_" = false.
Proof.
  apply (earlier_job_is_a_path_segment Example.nestedJob "7" "42").
  vm_compute. reflexivity.
Defined.

(** ** The one-shot program: [readProcIO] *)

Lemma ioDataLine_other (ioData : gmap string string) (line key : string) :
  ioKey line <> Some key -> Script.ioDataLine ioData line !! key = ioData !! key.
Proof.
  unfold ioKey, Script.ioDataLine, Script.SplitN2.
  destruct (Script.cut ":" line) as [[k v]|]; [|reflexivity].
  intros Hkey. apply lookup_insert_ne. intros H. apply Hkey. now rewrite H.
Qed.

Lemma fold_ioDataLine_absent (lines : list string) (ioData : gmap string string) (key : string) :
  Forall (fun line => ioKey line <> Some key) lines ->
  fold_left Script.ioDataLine lines ioData !! key = ioData !! key.
Proof.
  intros H. revert ioData. induction H as [|line lines Hline _ IH]; intros ioData.
  - reflexivity.
  - cbn [fold_left]. rewrite IH. now apply ioDataLine_other.
Qed.

Lemma fold_ioDataLine_Some (lines : list string) (ioData : gmap string string)
      (key val : string) :
  fold_left Script.ioDataLine lines ioData !! key = Some val ->
  (exists line k v,
      In line lines /\ Script.cut ":" line = Some (k, v)
      /\ key = strings.TrimSpace k /\ val = strings.TrimSpace v)
  \/ ioData !! key = Some val.
Proof.
  revert ioData. induction lines as [|line lines IH]; intros ioData H; [right; exact H|].
  cbn [fold_left] in H. destruct (IH _ H) as [(l & k & v & Hin & Hrest)|Hm].
  - left. exists l, k, v. split; [right; exact Hin | exact Hrest].
  - unfold Script.ioDataLine, Script.SplitN2 in Hm.
    destruct (Script.cut ":" line) as [[k v]|] eqn:Hcut; [|right; exact Hm].
    rewrite lookup_insert in Hm. case_decide; [|right; exact Hm].
    inversion Hm. left. exists line, k, v.
    split; [left; reflexivity|]. split; [exact Hcut|]. split; [now symmetry | reflexivity].
Qed.

(** X17.  [readProcIO] cuts a line at its first colon and trims both sides;
    a key given on several lines keeps the value of the last of them, and
    the value keeps any further colon of its line. *)
Theorem readProcIO_last_line (fsys : FileSystem) (pid content : string)
        (before after : list string) (line k v : string) :
  ReadFile fsys (ioPath pid) = Some content ->
  bufio.ScanLines content = (before ++ line :: after, false) ->
  Script.cut ":" line = Some (k, v) ->
  Forall (fun later => ioKey later <> Some (strings.TrimSpace k)) after ->
  exists ioData,
    Script.readProcIO fsys pid = Some ioData
    /\ ioData !! strings.TrimSpace k = Some (strings.TrimSpace v).
Proof.
  intros Hread Hscan Hcut Hafter.
  unfold Script.readProcIO. unfold ioPath in Hread. rewrite Hread, Hscan.
  eexists. split; [reflexivity|].
  rewrite fold_left_app. cbn [fold_left].
  rewrite fold_ioDataLine_absent by exact Hafter.
  unfold Script.ioDataLine, Script.SplitN2. rewrite Hcut. apply lookup_insert_eq.
Qed.

Lemma readProcIO_last_line_witness :
  exists ioData,
    Script.readProcIO Example.scriptFS "1234" = Some ioData
    /\ ioData !! strings.TrimSpace "read_bytes" = Some (strings.TrimSpace " 2:3").
Proof.
  apply (readProcIO_last_line Example.scriptFS "1234" Example.twiceRecord
           [ "read_bytes: 1"; "no colon here" ] [] "read_bytes: 2:3" "read_bytes" " 2:3").
  - reflexivity.
  - vm_compute. reflexivity.
  - vm_compute. reflexivity.
  - apply List.Forall_nil.
Defined.

(** X18.  Every binding of the map that [readProcIO] returns comes from a
    line of the record that holds a colon: its key is what stands before the
    first colon and its value what stands after it, both trimmed. *)
Theorem readProcIO_bindings (fsys : FileSystem) (pid : string)
        (ioData : gmap string string) (key val : string) :
  Script.readProcIO fsys pid = Some ioData ->
  ioData !! key = Some val ->
  exists content line k v,
    ReadFile fsys (ioPath pid) = Some content
    /\ bufio.ScanLines content = (fst (bufio.ScanLines content), false)
    /\ In line (fst (bufio.ScanLines content))
    /\ Script.cut ":" line = Some (k, v)
    /\ key = strings.TrimSpace k /\ val = strings.TrimSpace v.
Proof.
  unfold Script.readProcIO, ioPath.
  destruct (ReadFile fsys ("/proc/" +:+ pid +:+ "/io")) as [content|] eqn:Hread;
    [|discriminate].
  destruct (bufio.ScanLines content) as [lines err] eqn:Hscan.
  destruct err; [discriminate|].
  intros H Hkey. inversion H; subst ioData.
  apply fold_ioDataLine_Some in Hkey.
  destruct Hkey as [(line & k & v & Hin & Hcut & Hk & Hv)|Hempty].
  - exists content, line, k, v. rewrite Hscan. cbn [fst].
    repeat split; try assumption; reflexivity.
  - rewrite lookup_empty in Hempty. discriminate.
Qed.

Lemma readProcIO_bindings_witness :
  exists content line k v,
    ReadFile Example.scriptFS (ioPath "1235") = Some content
    /\ bufio.ScanLines content = (fst (bufio.ScanLines content), false)
    /\ In line (fst (bufio.ScanLines content))
    /\ Script.cut ":" line = Some (k, v)
    /\ "rchar" = strings.TrimSpace k /\ "100" = strings.TrimSpace v.
Proof.
  apply (readProcIO_bindings Example.scriptFS "1235"
           (<["write_bytes" := "0"]> (<["read_bytes" := "4096"]> (<["rchar" := "100"]> ∅)))).
  - vm_compute. reflexivity.
  - vm_compute. reflexivity.
Defined.

(** ** The one-shot program: [getIOMetrics] *)

Lemma fold_ioMetricsStep_lookup (fsys : FileSystem) (order : list string)
      (ioMetrics : gmap string (gmap string string)) (pid : string) :
  fold_left (Script.ioMetricsStep fsys) order ioMetrics !! pid
  = match Script.readProcIO fsys pid with
    | Some ioData => if in_dec string_dec pid order then Some ioData else ioMetrics !! pid
    | None => ioMetrics !! pid
    end.
Proof.
  revert ioMetrics. induction order as [|p order IH]; intros ioMetrics.
  - cbn [fold_left]. destruct (Script.readProcIO fsys pid); [|reflexivity].
    now destruct (in_dec string_dec pid []) as [[]|].
  - cbn [fold_left]. rewrite IH. unfold Script.ioMetricsStep.
    destruct (decide (p = pid)) as [->|Hne].
    + destruct (Script.readProcIO fsys pid) as [ioData|] eqn:Hio; [|reflexivity].
      destruct (in_dec string_dec pid order) as [Hin|Hnot].
      * destruct (in_dec string_dec pid (pid :: order)) as [_|Hno]; [reflexivity|].
        exfalso. apply Hno. now left.
      * rewrite lookup_insert_eq.
        destruct (in_dec string_dec pid (pid :: order)) as [_|Hno]; [reflexivity|].
        exfalso. apply Hno. now left.
    + assert (Hother : (match Script.readProcIO fsys p with
                        | Some ioData => <[p := ioData]> ioMetrics
                        | None => ioMetrics
                        end) !! pid = ioMetrics !! pid).
      { destruct (Script.readProcIO fsys p); [now apply lookup_insert_ne | reflexivity]. }
      rewrite Hother.
      destruct (Script.readProcIO fsys pid) as [ioData|]; [|reflexivity].
      destruct (in_dec string_dec pid order) as [Hin|Hnot];
        destruct (in_dec string_dec pid (p :: order)) as [Hin'|Hnot']; try reflexivity.
      * exfalso. apply Hnot'. now right.
      * exfalso. destruct Hin' as [H|H]; [now apply Hne | now apply Hnot].
Qed.

Lemma In_map_to_list_keys (pidToJob : gmap string string) (pid : string) :
  In pid (map fst (map_to_list pidToJob)) <-> is_Some (pidToJob !! pid).
Proof.
  rewrite in_map_iff. split.
  - intros ([p job] & Hp & Hin). cbn in Hp. subst p.
    apply list_elem_of_In, elem_of_map_to_list in Hin. now exists job.
  - intros [job Hjob]. exists (pid, job). split; [reflexivity|].
    apply list_elem_of_In, elem_of_map_to_list. exact Hjob.
Qed.

(** X19.  [getIOMetrics] returns the records of exactly those PIDs of the
    mapping whose I/O record could be read, each with what [readProcIO]
    gives for it, and the result is the same in whatever order the mapping
    is ranged over. *)
Theorem getIOMetrics_any_order (fsys : FileSystem) (pidToJob : gmap string string)
        (order : list string) (pid : string) :
  (forall p, In p order <-> is_Some (pidToJob !! p)) ->
  Script.getIOMetricsIn fsys order = Script.getIOMetrics fsys pidToJob
  /\ Script.getIOMetrics fsys pidToJob !! pid
     = match pidToJob !! pid with
       | Some _ => Script.readProcIO fsys pid
       | None => None
       end.
Proof.
  intros Horder.
  assert (Hlookup : forall ord, (forall p, In p ord <-> is_Some (pidToJob !! p)) ->
                    forall p, Script.getIOMetricsIn fsys ord !! p
                              = match pidToJob !! p with
                                | Some _ => Script.readProcIO fsys p
                                | None => None
                                end).
  { intros ord Hord p. unfold Script.getIOMetricsIn.
    rewrite fold_ioMetricsStep_lookup, lookup_empty.
    destruct (pidToJob !! p) as [job|] eqn:Hp.
    - destruct (Script.readProcIO fsys p); [|reflexivity].
      destruct (in_dec string_dec p ord) as [_|Hno]; [reflexivity|].
      exfalso. apply Hno, Hord. rewrite Hp. now eexists.
    - destruct (Script.readProcIO fsys p); [|reflexivity].
      destruct (in_dec string_dec p ord) as [Hin|_]; [|reflexivity].
      apply Hord in Hin. rewrite Hp in Hin. destruct Hin as [? Hin]. discriminate. }
  split.
  - apply map_eq. intros p. unfold Script.getIOMetrics.
    rewrite (Hlookup order Horder), (Hlookup _ (In_map_to_list_keys pidToJob)). reflexivity.
  - unfold Script.getIOMetrics. apply Hlookup. apply In_map_to_list_keys.
Qed.

Lemma getIOMetrics_any_order_witness :
  let pidToJob : gmap string string :=
    <["1234" := "job_42"]> (<["1235" := "job_42"]> (<["9999" := "job_43"]> ∅)) in
  Script.getIOMetricsIn Example.scriptFS ["9999"; "1235"; "1234"; "1235"]
  = Script.getIOMetrics Example.scriptFS pidToJob
  /\ Script.getIOMetrics Example.scriptFS pidToJob !! "9999"
     = match pidToJob !! "9999" with
       | Some _ => Script.readProcIO Example.scriptFS "9999"
       | None => None
       end.
Proof.
  intros pidToJob.
  apply (getIOMetrics_any_order Example.scriptFS pidToJob ["9999"; "1235"; "1234"; "1235"] "9999").
  intros p. unfold pidToJob. split.
  - intros [H|[H|[H|[H|[]]]]]; subst p; vm_compute; eexists; reflexivity.
  - intros [job Hjob].
    destruct (decide (p = "1234")) as [->|H1]; [cbn; tauto|].
    destruct (decide (p = "1235")) as [->|H2]; [cbn; tauto|].
    destruct (decide (p = "9999")) as [->|H3]; [cbn; tauto|].
    rewrite !lookup_insert_ne, lookup_empty in Hjob by congruence. discriminate.
Defined.

(** ** The one-shot program: [getNvidiaMetrics] *)

Lemma appEntries_short (records : list (list string))
      (metrics : gmap string (gmap string string)) :
  Exists (fun record => (length record < 4)%nat) records ->
  Script.appEntries records metrics = None.
Proof.
  intros H. revert metrics. induction H as [record more Hshort|record more _ IH]; intros metrics.
  - cbn [Script.appEntries]. unfold Script.appEntry.
    destruct record as [|a [|b [|c [|d rest]]]]; try reflexivity. cbn in Hshort. lia.
  - cbn [Script.appEntries]. destruct (Script.appEntry record) as [[pid entry]|]; [apply IH | reflexivity].
Qed.

Lemma appEntries_wide (records : list (list string))
      (metrics : gmap string (gmap string string)) :
  Forall (fun record => (4 <= length record)%nat) records ->
  exists metrics', Script.appEntries records metrics = Some metrics'.
Proof.
  intros H. revert metrics. induction H as [|record more Hwide _ IH]; intros metrics.
  - now exists metrics.
  - cbn [Script.appEntries]. unfold Script.appEntry.
    destruct record as [|a [|b [|c [|d rest]]]]; cbn in Hwide; try lia. apply IH.
Qed.

Lemma appEntries_absent (records : list (list string))
      (metrics metrics' : gmap string (gmap string string)) (pid : string) :
  Script.appEntries records metrics = Some metrics' ->
  Forall (fun record => head record <> Some pid) records ->
  metrics' !! pid = metrics !! pid.
Proof.
  revert metrics. induction records as [|record more IH]; intros metrics H Hno.
  - inversion H. reflexivity.
  - cbn [Script.appEntries] in H. apply Forall_cons in Hno. destruct Hno as [Hrecord Hno].
    destruct (Script.appEntry record) as [[p entry]|] eqn:Hentry; [|discriminate].
    rewrite (IH _ H Hno). apply lookup_insert_ne.
    unfold Script.appEntry in Hentry.
    destruct record as [|a [|b [|c [|d rest]]]]; try discriminate.
    inversion Hentry; subst. cbn in Hrecord. congruence.
Qed.

Lemma appEntries_last (before after : list (list string)) (record : list string)
      (metrics metrics' : gmap string (gmap string string))
      (pid : string) (entry : gmap string string) :
  Script.appEntries (before ++ record :: after) metrics = Some metrics' ->
  Script.appEntry record = Some (pid, entry) ->
  Forall (fun later => head later <> Some pid) after ->
  metrics' !! pid = Some entry.
Proof.
  revert metrics. induction before as [|r before IH]; intros metrics H Hentry Hafter.
  - cbn [app Script.appEntries] in H. rewrite Hentry in H.
    rewrite (appEntries_absent _ _ _ _ H Hafter). apply lookup_insert_eq.
  - cbn [app Script.appEntries] in H.
    destruct (Script.appEntry r) as [[p e]|]; [|discriminate].
    now apply (IH _ H).
Qed.

Lemma usageRecords_short (records : list (list string))
      (metrics : gmap string (gmap string string)) :
  Exists (fun record => (length record < 3)%nat) records ->
  Script.usageRecords records metrics = None.
Proof.
  intros H. revert metrics. induction H as [record more Hshort|record more _ IH]; intros metrics.
  - cbn [Script.usageRecords].
    destruct record as [|a [|b [|c rest]]]; try reflexivity. cbn in Hshort. lia.
  - cbn [Script.usageRecords].
    destruct record as [|a [|b [|c rest]]]; try reflexivity. apply IH.
Qed.

Lemma usageRecords_wide (records : list (list string))
      (metrics : gmap string (gmap string string)) :
  Forall (fun record => (3 <= length record)%nat) records ->
  exists metrics',
    Script.usageRecords records metrics = Some metrics'
    /\ forall pid, metrics' !! pid = applyUsage records <$> (metrics !! pid).
Proof.
  intros H. revert metrics. induction H as [|record more Hwide _ IH]; intros metrics.
  - exists metrics. split; [reflexivity|]. intros pid. unfold applyUsage. cbn [fold_left].
    now destruct (metrics !! pid).
  - cbn [Script.usageRecords].
    destruct record as [|a [|b [|c rest]]]; cbn in Hwide; try lia.
    destruct (IH (Script.setUtilization a c <$> metrics)) as (metrics' & Hrun & Hlookup).
    exists metrics'. split; [exact Hrun|]. intros pid.
    rewrite Hlookup, lookup_fmap. unfold applyUsage. cbn [fold_left usageStep].
    now destruct (metrics !! pid).
Qed.

Lemma setUtilization_keeps (gpuUuid gpuUtilization key : string) (metric : gmap string string) :
  key <> "gpu_utilization" ->
  Script.setUtilization gpuUuid gpuUtilization metric !! key = metric !! key.
Proof.
  intros Hkey. unfold Script.setUtilization.
  destruct (String.eqb _ gpuUuid); [|reflexivity].
  apply lookup_insert_ne. congruence.
Qed.

Lemma applyUsage_keeps (records : list (list string)) (key : string)
      (metric : gmap string string) :
  key <> "gpu_utilization" -> applyUsage records metric !! key = metric !! key.
Proof.
  intros Hkey. revert metric. induction records as [|record more IH]; intros metric.
  - reflexivity.
  - unfold applyUsage. cbn [fold_left]. fold (applyUsage more (usageStep metric record)).
    rewrite IH. unfold usageStep.
    destruct record as [|a [|b [|c rest]]]; try reflexivity.
    now apply setUtilization_keeps.
Qed.

Lemma applyUsage_utilization (records : list (list string)) (uuid current : string)
      (metric : gmap string string) :
  metric !! "gpu_uuid" = Some uuid ->
  metric !! "gpu_utilization" = Some current ->
  applyUsage records metric !! "gpu_utilization" = Some (lastUtilization uuid records current).
Proof.
  revert current metric. induction records as [|record more IH]; intros current metric Hu Hc.
  - exact Hc.
  - unfold applyUsage. cbn [fold_left]. fold (applyUsage more (usageStep metric record)).
    destruct record as [|a [|b [|c rest]]]; cbn [usageStep lastUtilization];
      try (now apply IH).
    apply IH.
    + rewrite setUtilization_keeps by discriminate. exact Hu.
    + unfold Script.setUtilization. rewrite Hu. unfold default. cbn [from_option id].
      destruct (String.eqb uuid a); [apply lookup_insert_eq | exact Hc].
Qed.

(** X20.  [getNvidiaMetrics] does not return an error for a table that is
    too small: it panics.  That is so when the compute-apps table has no
    record at all, or a record after the header with fewer than four
    fields. *)
Theorem getNvidiaMetrics_panics (ReadAll : string -> option (list (list string)))
        (computeAppsOutput : string) (gpuUsageCmd : option string)
        (records : list (list string)) :
  ReadAll computeAppsOutput = Some records ->
  records = [] \/ Exists (fun record => (length record < 4)%nat) (tail records) ->
  Script.getNvidiaMetrics ReadAll (Some computeAppsOutput) gpuUsageCmd = Script.Panics.
Proof.
  intros Hread Hsmall. unfold Script.getNvidiaMetrics. rewrite Hread.
  destruct records as [|header rows]; [reflexivity|].
  destruct Hsmall as [H|H]; [discriminate|].
  cbn [tail] in H. now rewrite (appEntries_short _ _ H).
Qed.

Lemma getNvidiaMetrics_panics_witness :
  Script.getNvidiaMetrics plainCSV (Some EmptyString) (Some Example.usageTable) = Script.Panics
  /\ Script.getNvidiaMetrics plainCSV (Some Example.usageTable) (Some Example.usageTable)
     = Script.Panics.
Proof.
  split.
  - apply (getNvidiaMetrics_panics plainCSV EmptyString (Some Example.usageTable) []).
    + reflexivity.
    + left. reflexivity.
  - apply (getNvidiaMetrics_panics plainCSV Example.usageTable (Some Example.usageTable)
             [ ["uuid"; "name"; "utilization.gpu [%]"];
               ["gpu-uuid-1"; "GPUX"; "37 %"];
               ["gpu-uuid-2"; "GPUX"; "5 %"] ]).
    + vm_compute. reflexivity.
    + right. apply Exists_cons_hd. cbn. lia.
Defined.

(** X21.  When every record is wide enough, [getNvidiaMetrics] returns a map
    in which a PID has the memory, the device name and the UUID of the last
    record of the compute-apps table that names it (the records before it
    for the same PID are lost), and as utilization that of the last record
    of the per-device table with that UUID, or [N/A] when there is none. *)
Theorem getNvidiaMetrics_entry (ReadAll : string -> option (list (list string)))
        (computeAppsOutput gpuUsageOutput : string)
        (header gpuHeader : list string) (before after gpuRecords : list (list string))
        (pid used name uuid : string) (more : list string) :
  ReadAll computeAppsOutput
  = Some (header :: before ++ (pid :: used :: name :: uuid :: more) :: after) ->
  Forall (fun record => (4 <= length record)%nat) (before ++ after) ->
  Forall (fun later => head later <> Some pid) after ->
  ReadAll gpuUsageOutput = Some (gpuHeader :: gpuRecords) ->
  Forall (fun record => (3 <= length record)%nat) gpuRecords ->
  exists metrics entry,
    Script.getNvidiaMetrics ReadAll (Some computeAppsOutput) (Some gpuUsageOutput)
    = Script.Done metrics
    /\ metrics !! pid = Some entry
    /\ entry !! "gpu_memory_usage" = Some used
    /\ entry !! "gpu_name" = Some name
    /\ entry !! "gpu_uuid" = Some uuid
    /\ entry !! "gpu_utilization" = Some (lastUtilization uuid gpuRecords "N/A").
Proof.
  intros Hread Hwide Hafter Hgpu Hgpuwide.
  unfold Script.getNvidiaMetrics. rewrite Hread.
  assert (Hall : Forall (fun record => (4 <= length record)%nat)
                        (before ++ (pid :: used :: name :: uuid :: more) :: after)).
  { apply Forall_app in Hwide. destruct Hwide as [Hb Ha].
    apply Forall_app. split; [exact Hb|]. apply List.Forall_cons; [cbn; lia | exact Ha]. }
  destruct (appEntries_wide _ ∅ Hall) as (metrics0 & Hentries). rewrite Hentries, Hgpu.
  destruct (usageRecords_wide gpuRecords metrics0 Hgpuwide) as (metrics & Hrun & Hlookup).
  rewrite Hrun.
  set (entry0 := <["gpu_utilization" := "N/A"]>
                   (<["gpu_uuid" := uuid]>
                      (<["gpu_name" := name]>
                         (<["gpu_memory_usage" := used]> (∅ : gmap string string))))).
  assert (H0 : metrics0 !! pid = Some entry0).
  { apply (appEntries_last before after _ ∅ metrics0 pid entry0 Hentries);
      [reflexivity | exact Hafter]. }
  exists metrics, (applyUsage gpuRecords entry0).
  split; [reflexivity|]. split; [now rewrite Hlookup, H0|].
  split; [rewrite applyUsage_keeps by discriminate; reflexivity|].
  split; [rewrite applyUsage_keeps by discriminate; reflexivity|].
  split; [rewrite applyUsage_keeps by discriminate; reflexivity|].
  apply applyUsage_utilization; reflexivity.
Qed.

Lemma getNvidiaMetrics_entry_witness :
  exists metrics entry,
    Script.getNvidiaMetrics plainCSV (Some Example.appsTable) (Some Example.usageTable)
    = Script.Done metrics
    /\ metrics !! "1234" = Some entry
    /\ entry !! "gpu_memory_usage" = Some "64 MiB"
    /\ entry !! "gpu_name" = Some "GPUX"
    /\ entry !! "gpu_uuid" = Some "gpu-uuid-3"
    /\ entry !! "gpu_utilization"
       = Some (lastUtilization "gpu-uuid-3"
                 [ ["gpu-uuid-1"; "GPUX"; "37 %"]; ["gpu-uuid-2"; "GPUX"; "5 %"] ] "N/A").
Proof.
  apply (getNvidiaMetrics_entry plainCSV Example.appsTable Example.usageTable
           ["pid"; "used_gpu_memory [MiB]"; "gpu_name"; "gpu_uuid"]
           ["uuid"; "name"; "utilization.gpu [%]"]
           [ ["1234"; "512 MiB"; "GPUX"; "gpu-uuid-1"];
             ["1235"; "100 MiB"; "GPUX"; "gpu-uuid-2"] ]
           []
           [ ["gpu-uuid-1"; "GPUX"; "37 %"]; ["gpu-uuid-2"; "GPUX"; "5 %"] ]
           "1234" "64 MiB" "GPUX" "gpu-uuid-3" []).
  - vm_compute. reflexivity.
  - repeat (apply List.Forall_cons; [cbn; lia|]). apply List.Forall_nil.
  - apply List.Forall_nil.
  - vm_compute. reflexivity.
  - repeat (apply List.Forall_cons; [cbn; lia|]). apply List.Forall_nil.
Defined.

(** ** The walk of the cgroup tree in the one-shot program *)

Lemma In_insertByName {A : Type} (e x : string * A) (l : list (string * A)) :
  In x (Script.insertByName e l) <-> x = e \/ In x l.
Proof.
  induction l as [|e' l IH]; cbn.
  - split; intros [H|H]; auto; contradiction.
  - destruct (String.leb (fst e) (fst e')); cbn.
    + split; intros [H|H]; auto.
    + rewrite IH. split; intros H; intuition auto.
Qed.

Lemma In_sortByName {A : Type} (x : string * A) (l : list (string * A)) :
  In x (Script.sortByName l) <-> In x l.
Proof.
  induction l as [|e l IH]; cbn; [reflexivity|].
  rewrite In_insertByName, IH. split; intros [H|H]; auto.
Qed.

Lemma bindAll_lookup (jobID : string) (pids : list string) (m : gmap string string)
      (pid j : string) :
  Script.bindAll jobID pids m !! pid = Some j ->
  (In pid pids /\ j = jobID) \/ m !! pid = Some j.
Proof.
  unfold Script.bindAll. revert m.
  induction pids as [|p pids IH]; intros m H; cbn in H; [now right|].
  apply IH in H as [[Hin ->]|H].
  - left. split; [now right|reflexivity].
  - destruct (decide (p = pid)) as [->|Hne].
    + rewrite lookup_insert_eq in H. injection H as <-. left. split; [now left|reflexivity].
    + rewrite lookup_insert_ne in H by assumption. now right.
Qed.

Lemma bindAll_bound (jobID : string) (pids : list string) (m : gmap string string)
      (pid : string) :
  In pid pids \/ is_Some (m !! pid) ->
  is_Some (Script.bindAll jobID pids m !! pid).
Proof.
  unfold Script.bindAll. revert m.
  induction pids as [|p pids IH]; intros m H; cbn.
  - destruct H as [[]|H]; assumption.
  - apply IH. destruct H as [[->|Hin]|H].
    + right. rewrite lookup_insert_eq. eauto.
    + now left.
    + right. destruct (decide (p = pid)) as [->|Hne].
      * rewrite lookup_insert_eq. eauto.
      * rewrite lookup_insert_ne by assumption. assumption.
Qed.

Lemma runAll_addsOnly (R : string -> string -> Prop) (ws : list (string * Script.walker)) :
  Forall (fun e => addsOnly R (snd e)) ws ->
  addsOnly R (Script.runAll ws).
Proof.
  induction 1 as [|[nm w] ws Hw _ IH]; intros acc pid j H; cbn in *.
  - now left.
  - specialize (Hw acc pid j). destruct (w acc) as [acc' err]. cbn in Hw.
    destruct err; cbn in H.
    + auto.
    + apply IH in H as [H|H]; auto.
Qed.

Lemma walk_addsOnly (n : Script.node) :
  forall parent name, addsOnly (listsIn parent name n) (Script.walk parent name n).
Proof.
  induction n as [|content| |entries IH] using node_induction; intros parent name acc pid j H;
    cbn in H.
  - now left.
  - destruct (String.eqb_spec name "cgroup.procs") as [->|Hne]; [|now left].
    destruct content as [text|]; [|now left].
    destruct (bufio.ScanLines text) as [pids err] eqn:Hscan. cbn in H.
    apply bindAll_lookup in H as [[Hin ->]|H]; [|now left].
    right. constructor. now rewrite Hscan.
  - now left.
  - revert acc pid j H. apply runAll_addsOnly.
    apply List.Forall_forall. intros [nm w] Hin.
    apply (proj1 (In_sortByName _ _)) in Hin. apply (proj1 (in_map_iff _ _ _)) in Hin as [[childName child] [Heq Hin]].
    injection Heq as <- <-. cbn.
    rewrite List.Forall_forall in IH. specialize (IH _ Hin name childName). cbn in IH.
    intros acc pid j H. apply IH in H as [H|H]; [now left|].
    right. econstructor; eassumption.
Qed.

(** X22. Every binding of the map that [getCgroupPidToJob] returns, with or
    without an error, comes from a [cgroup.procs] file below [/sys/fs/cgroup]
    that opens and has the process identifier as one of its lines; the job
    is the name of the directory that holds that file. *)
Theorem getCgroupPidToJob_bindings (root : Script.node) (pid jobID : string) :
  fst (Script.getCgroupPidToJob root) !! pid = Some jobID ->
  listsIn "fs" "cgroup" root pid jobID.
Proof.
  intros H. apply walk_addsOnly in H as [H|H]; [|assumption].
  rewrite lookup_empty in H. discriminate.
Qed.

Lemma runAll_errs (B : string -> Script.walker -> Prop) (ws : list (string * Script.walker)) :
  Forall (fun e => errsIff (B (fst e) (snd e)) (snd e)) ws ->
  errsIff (Exists (fun e => B (fst e) (snd e)) ws) (Script.runAll ws).
Proof.
  induction 1 as [|[nm w] ws Hw _ IH]; intros acc; cbn in *.
  - split; [discriminate|]. intros H. inversion H.
  - specialize (Hw acc). destruct (w acc) as [acc' err]. cbn in Hw.
    destruct err; cbn.
    + split; [|reflexivity]. intros _. apply List.Exists_cons_hd. now apply Hw.
    + rewrite (IH acc'). split.
      * intros H. now apply List.Exists_cons_tl.
      * intros H. inversion H as [? ? Hb|]; subst; [|assumption].
        apply Hw in Hb. discriminate.
Qed.

Lemma walk_errs (n : Script.node) :
  forall parent name, errsIff (stops name n) (Script.walk parent name n).
Proof.
  induction n as [|content| |entries IH] using node_induction; intros parent name acc; cbn.
  - split; [constructor|reflexivity].
  - destruct (String.eqb_spec name "cgroup.procs") as [->|Hne].
    + destruct content as [text|]; cbn.
      * destruct (bufio.ScanLines text) as [pids err] eqn:Hscan. cbn.
        split.
        -- intros ->. constructor. now rewrite Hscan.
        -- intros H. inversion H; subst. now rewrite Hscan in *.
      * split; [constructor|reflexivity].
    + cbn. split; [discriminate|]. intros H. inversion H; subst; contradiction.
  - split; [constructor|reflexivity].
  - pose proof (runAll_errs
                  (fun nm w => exists child, In (nm, child) entries /\ stops nm child
                                             /\ w = Script.walk name nm child)) as Hrun.
    match goal with |- snd (Script.runAll ?ws acc) = true <-> _ => specialize (Hrun ws) end.
    assert (Hall : Forall (fun e : string * Script.walker =>
                             errsIff (exists child, In (fst e, child) entries
                                                    /\ stops (fst e) child
                                                    /\ snd e = Script.walk name (fst e) child)
                                     (snd e))
                          (Script.sortByName
                             (map (fun e : string * Script.node =>
                                     let (childName, child) := e in
                                     (childName, Script.walk name childName child)) entries))).
    { apply List.Forall_forall. intros [nm w] Hin.
      apply (proj1 (In_sortByName _ _)) in Hin.
      apply (proj1 (in_map_iff _ _ _)) in Hin as [[childName child] [Heq Hin]].
      injection Heq as <- <-. cbn.
      rewrite List.Forall_forall in IH. pose proof (IH _ Hin name childName) as IHc. cbn in IHc.
      intros acc'. rewrite (IHc acc'). split.
      * intros Hst. exists child. now repeat split.
      * intros [child' [Hin' [Hst' Hw]]].
        specialize (IH _ Hin' name childName). cbn in IH.
        apply (IHc acc'). rewrite Hw. now apply (IH acc'). }
    etransitivity; [apply (Hrun Hall acc)|].
    rewrite List.Exists_exists. split.
    + intros [[nm w] [_ [child [Hin [Hst _]]]]]. econstructor; eassumption.
    + intros H. inversion H as [| | | |? ? childName child Hin Hst]; subst.
      exists (childName, Script.walk name childName child). split.
      * apply (proj2 (In_sortByName _ _)). apply (proj2 (in_map_iff _ _ _)).
        exists (childName, child). now split.
      * cbn. exists child. now repeat split.
Qed.

(** X23. [getCgroupPidToJob] returns an error exactly when the tree holds
    a path that cannot be described, a directory that cannot be read, or a
    [cgroup.procs] file that does not open or whose scan fails; files of
    other names are never opened. *)
Theorem getCgroupPidToJob_error (root : Script.node) :
  snd (Script.getCgroupPidToJob root) = true <-> stops "cgroup" root.
Proof. apply walk_errs. Qed.

Lemma runAll_keepsBound (ws : list (string * Script.walker)) :
  Forall (fun e => keepsBound (snd e)) ws -> keepsBound (Script.runAll ws).
Proof.
  induction 1 as [|[nm w] ws Hw _ IH]; intros acc pid H; cbn in *; [assumption|].
  specialize (Hw acc pid H). destruct (w acc) as [acc' err]. cbn in Hw.
  destruct err; cbn; [assumption|]. now apply IH.
Qed.

Lemma walk_keepsBound (n : Script.node) :
  forall parent name, keepsBound (Script.walk parent name n).
Proof.
  induction n as [|content| |entries IH] using node_induction; intros parent name;
    try (intros acc pid H; cbn; assumption).
  - intros acc pid H. cbn.
    destruct (String.eqb name "cgroup.procs"); [|assumption].
    destruct content as [text|]; [|assumption].
    destruct (bufio.ScanLines text) as [pids err]. cbn.
    apply bindAll_bound. now right.
  - cbn [Script.walk]. apply runAll_keepsBound.
    apply List.Forall_forall. intros [nm w] Hin.
    apply (proj1 (In_sortByName _ _)) in Hin.
    apply (proj1 (in_map_iff _ _ _)) in Hin as [[childName child] [Heq Hin]].
    injection Heq as <- <-. cbn.
    rewrite List.Forall_forall in IH. apply (IH _ Hin).
Qed.

Lemma runAll_binds (pid : string) (ws : list (string * Script.walker)) :
  Forall (fun e => keepsBound (snd e)) ws ->
  Exists (fun e => binds pid (snd e)) ws ->
  binds pid (Script.runAll ws).
Proof.
  intros Hkeep Hex. induction Hex as [[nm w] ws Hb|[nm w] ws _ IH]; intros acc Herr;
    cbn in *; inversion Hkeep as [|? ? Hk Hks]; subst; cbn in *.
  - specialize (Hb acc). destruct (w acc) as [acc' err]. cbn in Hb.
    destruct err; [discriminate|]. cbn in *.
    apply (runAll_keepsBound ws Hks). now apply Hb.
  - destruct (w acc) as [acc' err]. destruct err; [discriminate|]. cbn in *.
    now apply IH.
Qed.

Lemma walk_binds (parent name : string) (n : Script.node) (pid jobID : string) :
  listsIn parent name n pid jobID -> binds pid (Script.walk parent name n).
Proof.
  induction 1 as [parent text pid Hin|parent name entries childName child pid jobID Hin _ IH];
    intros acc Herr.
  - cbn in *. destruct (bufio.ScanLines text) as [pids err]. cbn in *.
    apply bindAll_bound. now left.
  - revert acc Herr. cbn [Script.walk]. apply runAll_binds.
    + apply List.Forall_forall. intros [nm w] Hin'.
      apply (proj1 (In_sortByName _ _)) in Hin'.
      apply (proj1 (in_map_iff _ _ _)) in Hin' as [[childName' child'] [Heq Hin']].
      injection Heq as <- <-. cbn. apply walk_keepsBound.
    + apply List.Exists_exists. exists (childName, Script.walk name childName child). split.
      * apply (proj2 (In_sortByName _ _)). apply (proj2 (in_map_iff _ _ _)).
        exists (childName, child). now split.
      * exact IH.
Qed.

(** X24. When [getCgroupPidToJob] returns no error, every process
    identifier that some [cgroup.procs] file lists is bound, to the name of
    a directory whose [cgroup.procs] lists it. *)
Theorem getCgroupPidToJob_listed (root : Script.node) (pid jobID : string) :
  snd (Script.getCgroupPidToJob root) = false ->
  listsIn "fs" "cgroup" root pid jobID ->
  exists jobID', fst (Script.getCgroupPidToJob root) !! pid = Some jobID'
                 /\ listsIn "fs" "cgroup" root pid jobID'.
Proof.
  intros Herr Hl. destruct (walk_binds _ _ _ _ _ Hl ∅ Herr) as [j Hj].
  exists j. split; [exact Hj|].
  apply walk_addsOnly in Hj as [Hj|Hj]; [|assumption].
  rewrite lookup_empty in Hj. discriminate.
Qed.

Lemma cgroupTree_lists_1234 : listsIn "fs" "cgroup" Example.cgroupTree "1234" "job_42".
Proof.
  eapply listsIn_dir; [left; reflexivity|].
  eapply listsIn_dir; [left; reflexivity|].
  eapply listsIn_dir; [right; left; reflexivity|].
  apply listsIn_file. left. reflexivity.
Qed.

Lemma getCgroupPidToJob_bindings_witness :
  listsIn "fs" "cgroup" Example.cgroupTree "1234" "job_42".
Proof. apply (getCgroupPidToJob_bindings Example.cgroupTree "1234" "job_42"). vm_compute. reflexivity. Defined.

Lemma getCgroupPidToJob_listed_witness :
  exists jobID', fst (Script.getCgroupPidToJob Example.cgroupTree) !! "1234" = Some jobID'
                 /\ listsIn "fs" "cgroup" Example.cgroupTree "1234" jobID'.
Proof.
  apply (getCgroupPidToJob_listed Example.cgroupTree "1234" "job_42").
  - vm_compute. reflexivity.
  - exact cgroupTree_lists_1234.
Defined.
